(** * Course recommender (app.py): scoring core

    A shallow embedding of the scoring functions of [app.py]
    ([clean_text], [handle_cold_start], [recommend_courses],
    [load_resources]) together with the parts of pandas, jieba and
    scikit-learn they call, and the properties of the specification
    checked against them.

    Conventions.
    - A Python [str] is a list of Unicode code points ([text]).
    - A float is an exact rational ([Q]); a division by zero yields no
      number, and a similarity computed from one would be the cell
      [NaN], as a missing value in a column is.
    - A raised exception is [Err e]; mutation of a DataFrame that the
      caller can see goes through an explicit [heap] of DataFrame
      objects addressed by references. *)

From Stdlib Require Import String Ascii.
From Stdlib Require Import ZArith QArith Qabs Bool Lia Lqa Arith PeanoNat.
From Stdlib Require Import List Permutation Sorted.
Import ListNotations.

Open Scope string_scope.
Open Scope list_scope.
Open Scope Z_scope.

(* ================================================================= *)
(** ** Text *)

Definition text := list Z.

(** ASCII literals: [str "a b"] is the text [a], space, [b].  Only
    meant for literals made of ASCII characters. *)
Definition str (s : string) : text :=
  map (fun a => Z.of_nat (nat_of_ascii a)) (list_ascii_of_string s).

Definition text_eqb (a b : text) : bool :=
  if list_eq_dec Z.eq_dec a b then true else false.

Definition between (lo hi c : Z) : bool := (lo <=? c) && (c <=? hi).

(** [一-龥] *)
Definition is_cjk (c : Z) : bool := between 0x4e00 0x9fa5 c.

(** [a-zA-Z] *)
Definition is_upper (c : Z) : bool := between 65 90 c.
Definition is_lower (c : Z) : bool := between 97 122 c.
Definition is_latin (c : Z) : bool := is_lower c || is_upper c.

(** [\s] of a Unicode pattern, which is also what [str.strip] removes:
    the code points for which [str.isspace] holds. *)
Definition is_space (c : Z) : bool :=
  between 9 13 c || between 28 32 c || (c =? 0x85) || (c =? 0xa0)
  || (c =? 0x1680) || between 0x2000 0x200a c || (c =? 0x2028)
  || (c =? 0x2029) || (c =? 0x202f) || (c =? 0x205f) || (c =? 0x3000).

(** The characters kept by [re.sub(r'[^一-龥a-zA-Z\s]', '', _)]. *)
Definition allowed (c : Z) : bool := is_cjk c || is_latin c || is_space c.

Definition strip_disallowed (t : text) : text := filter allowed t.

(** [str.lower] on the characters that survive [strip_disallowed]:
    ideographs and whitespace have no case, [A-Z] maps to [a-z]. *)
Definition lower_char (c : Z) : Z := if is_upper c then c + 32 else c.
Definition lower (t : text) : text := map lower_char t.

(** [sep.join(words)] *)
Fixpoint join (sep : text) (words : list text) : text :=
  match words with
  | [] => []
  | [w] => w
  | w :: ws => w ++ sep ++ join sep ws
  end.

Fixpoint lstrip (t : text) : text :=
  match t with
  | c :: t' => if is_space c then lstrip t' else t
  | [] => []
  end.

(** [str.strip()] *)
Definition strip (t : text) : text := rev (lstrip (rev (lstrip t))).

(* ================================================================= *)
(** ** Exceptions *)

Inductive exn : Type :=
| IOError               (* open() / joblib.load / read_pickle failed *)
| KeyError (k : string) (* missing column *)
| MissingColumns (ks : list string)
                        (* the KeyError of [df[[...]]], which lists
                           every column that was not found *)
| ValueError            (* length or shape mismatch *)
| TypeError             (* operation on a cell of the wrong type *)
| AttributeError        (* a method of str called on a float *)
| BadReference.         (* a reference outside the heap; never raised
                           for references obtained from the heap *)

Inductive result (A : Type) : Type :=
| Ok (a : A)
| Err (e : exn).
Arguments Ok {A} a.
Arguments Err {A} e.

Definition rbind {A B} (r : result A) (k : A -> result B) : result B :=
  match r with
  | Ok a => k a
  | Err e => Err e
  end.

Fixpoint rmap {A B} (f : A -> result B) (l : list A) : result (list B) :=
  match l with
  | [] => Ok []
  | x :: l' =>
      rbind (f x) (fun y => rbind (rmap f l') (fun ys => Ok (y :: ys)))
  end.

(* ================================================================= *)
(** ** Tokenizer / normalizer: [jieba.lcut] and [clean_text] *)

(** [re_han_default] of jieba: [[一-鿕a-zA-Z0-9+#&\._%\-]]. *)
Definition is_han (c : Z) : bool :=
  between 0x4e00 0x9fd5 c || is_latin c || between 48 57 c
  || (c =? 43) || (c =? 35) || (c =? 38) || (c =? 46) || (c =? 95)
  || (c =? 37) || (c =? 45).

Section Normalizer.

(** jieba's dictionary segmentation of one block of [is_han]
    characters ([Tokenizer.__cut_DAG]); it depends on jieba's
    dictionary and is left open. *)
Variable cut_block : text -> list text.

(** The lines of [stopwords.txt] as reading the file returns them, or
    the exception that reading it raises: [IOError] when the file
    cannot be opened, [ValueError] (a [UnicodeDecodeError]) when its
    bytes are not gbk. *)
Variable stopwords_txt : result (list text).

Definition flush (blk : text) : list text :=
  match blk with
  | [] => []
  | _ => cut_block blk
  end.

(** The loop of [Tokenizer.cut]: the sentence is split into maximal
    blocks of [is_han] characters, which go to [cut_block]; in the
    text between them each [\r\n] pair and each other character is a
    token of its own.  [blk] is the block being read. *)
Fixpoint cut_from (blk : text) (s : text) : list text :=
  match s with
  | [] => flush blk
  | c :: s' =>
      if is_han c then cut_from (blk ++ [c]) s'
      else
        match s' with
        | c' :: s'' =>
            if (c =? 13) && (c' =? 10)
            then flush blk ++ [c; c'] :: cut_from [] s''
            else flush blk ++ [c] :: cut_from [] s'
        | [] => flush blk ++ [[c]]
        end
  end.

Definition lcut (s : text) : list text := cut_from [] s.

Definition read_stopwords : result (list text) :=
  match stopwords_txt with
  | Ok lines => Ok (map strip lines)
  | Err e => Err e
  end.

Definition is_stopword (stopwords : list text) (w : text) : bool :=
  existsb (text_eqb w) stopwords.

(** [clean_text(text)], lines 44-52. *)
Definition clean_text (t : text) : result text :=
  rbind read_stopwords (fun stopwords =>
    let t1 := strip_disallowed t in
    let t2 := lower t1 in
    let words := lcut t2 in
    let filtered_words :=
      filter (fun word => negb (is_stopword stopwords word)) words in
    Ok (join (str " ") filtered_words)).

End Normalizer.

(* ================================================================= *)
(** ** Cells of a table *)

Inductive cell : Type :=
| Str (t : text)
| Num (q : Q)
| NaN.

Definition column := list cell.

(* ================================================================= *)
(** ** Vectors and [sklearn.metrics.pairwise.cosine_similarity] *)

Definition vec := list Q.

Fixpoint dot (x y : vec) : Q :=
  match x, y with
  | a :: x', b :: y' => (a * b + dot x' y')%Q
  | _, _ => 0%Q
  end.

Definition sumsq (x : vec) : Q := dot x x.

Section Similarity.

(** The square root used for row norms.  No property of it is
    assumed: what is proved below holds whatever it returns. *)
Variable sqrt : Q -> Q.

Definition row_norm (x : vec) : Q := sqrt (sumsq x).

(** A row of zero norm is not divided: its norm is replaced by 1
    ([_handle_zeros_in_scale]; the sparse code path skips such a row,
    to the same effect). *)
Definition handle_zeros (n : Q) : Q := if Qeq_bool n 0 then 1%Q else n.

(** A float divided by a float: by zero IEEE arithmetic gives nan or
    an infinity, which is no number here. *)
Definition fdiv (a n : Q) : option Q :=
  if Qeq_bool n 0 then None else Some (a / n)%Q.

(** [normalize(X)]: every entry of the row divided by the guarded L2
    norm of the row. *)
Definition normalize (x : vec) : list (option Q) :=
  map (fun a => fdiv a (handle_zeros (row_norm x))) x.

(** The entries of a row when all of them are numbers. *)
Fixpoint finite (x : list (option Q)) : option vec :=
  match x with
  | [] => Some []
  | Some a :: x' =>
      match finite x' with
      | Some v => Some (a :: v)
      | None => None
      end
  | None :: _ => None
  end.

(** One entry of [normalize(X) @ normalize(Y).T]; a row with an entry
    that is no number yields no number. *)
Definition cosine_entry (x y : vec) : cell :=
  match finite (normalize x), finite (normalize y) with
  | Some u, Some v => Num (dot u v)
  | _, _ => NaN
  end.

(** [cosine_similarity(X, Y).flatten()] for a one-row [X]: one
    similarity per row of [Y].  [check_pairwise_arrays] refuses with a
    ValueError an [X] without columns, a [Y] without rows and rows of
    another width than [X]. *)
Definition cosine_similarity (X : vec) (Y : list vec) : result (list cell) :=
  match X, Y with
  | [], _ => Err ValueError
  | _, [] => Err ValueError
  | _, _ =>
      if forallb (fun r => (length r =? length X)%nat) Y
      then Ok (map (cosine_entry X) Y)
      else Err ValueError
  end.

(** The entries as numbers, for the statements: a row divided by its
    guarded norm, which is never zero, and the dot product of two such
    rows.  [cosine_entry x y] is [Num (cosine x y)] (lemma
    [cosine_entry_num]). *)
Definition scale_row (x : vec) : vec :=
  map (fun a => (a / handle_zeros (row_norm x))%Q) x.

Definition cosine (x y : vec) : Q := dot (scale_row x) (scale_row y).

End Similarity.

(* ================================================================= *)
(** ** DataFrames *)

Record DataFrame : Type := mkDF {
  index : list nat;                       (* row labels *)
  columns : list (string * column)        (* in column order *)
}.

Definition nrows (df : DataFrame) : nat := length (index df).
Definition column_names (df : DataFrame) : list string :=
  map fst (columns df).

Definition wf_df (df : DataFrame) : bool :=
  forallb (fun nc => (length (snd nc) =? nrows df)%nat) (columns df).

Fixpoint lookup (name : string) (cols : list (string * column))
  : option column :=
  match cols with
  | [] => None
  | (n, c) :: cols' => if String.eqb n name then Some c else lookup name cols'
  end.

(** An existing column is replaced where it stands, a new one goes
    last. *)
Fixpoint assign (name : string) (c : column) (cols : list (string * column))
  : list (string * column) :=
  match cols with
  | [] => [(name, c)]
  | (n, c0) :: cols' =>
      if String.eqb n name then (n, c) :: cols'
      else (n, c0) :: assign name c cols'
  end.

(** [df[name]] *)
Definition df_get (df : DataFrame) (name : string) : result column :=
  match lookup name (columns df) with
  | Some c => Ok c
  | None => Err (KeyError name)
  end.

(** [df[name] = values] for an array of values.  A frame without rows
    takes its rows from a non-empty array (the columns it already has
    are filled with NaN); otherwise the lengths must agree. *)
Definition df_set (df : DataFrame) (name : string) (c : column)
  : result DataFrame :=
  match index df, c with
  | [], _ :: _ =>
      Ok (mkDF (seq 0 (length c))
            (assign name c
               (map (fun nc => (fst nc, repeat NaN (length c))) (columns df))))
  | _, _ =>
      if (length c =? nrows df)%nat
      then Ok (mkDF (index df) (assign name c (columns df)))
      else Err ValueError
  end.

Definition has_column (df : DataFrame) (name : string) : bool :=
  match lookup name (columns df) with
  | Some _ => true
  | None => false
  end.

(** [df[[n1, n2, ...]]]: the names are all looked up first, and those
    not found are reported together. *)
Definition df_select (df : DataFrame) (names : list string)
  : result DataFrame :=
  match filter (fun n => negb (has_column df n)) names with
  | [] =>
      rbind (rmap (fun n => rbind (df_get df n) (fun c => Ok (n, c))) names)
        (fun cols => Ok (mkDF (index df) cols))
  | missing => Err (MissingColumns (nodup string_dec missing))
  end.

(** [df.take(positions)] *)
Definition df_take (positions : list nat) (df : DataFrame) : DataFrame :=
  mkDF (map (fun i => nth i (index df) 0%nat) positions)
       (map (fun nc => (fst nc, map (fun i => nth i (snd nc) NaN) positions))
            (columns df)).

(** [df.head(n)] is [df.iloc[:n]]: a negative [n] drops the last [-n]
    rows. *)
Definition head_count (n : Z) (len : nat) : nat :=
  if 0 <=? n then Nat.min (Z.to_nat n) len
  else (len - Z.to_nat (- n))%nat.

Definition df_head (n : Z) (df : DataFrame) : DataFrame :=
  let k := head_count n (nrows df) in
  mkDF (firstn k (index df))
       (map (fun nc => (fst nc, firstn k (snd nc))) (columns df)).

(** *** Element-wise arithmetic of columns

    A missing side gives a missing result; text concatenates with
    text and numbers add to numbers. *)

Definition cell_add (a b : cell) : result cell :=
  match a, b with
  | NaN, _ | _, NaN => Ok NaN
  | Str s, Str t => Ok (Str (s ++ t))
  | Num p, Num q => Ok (Num (p + q))
  | _, _ => Err TypeError
  end.

(** [w * cell] for a float [w] *)
Definition cell_scale (w : Q) (a : cell) : result cell :=
  match a with
  | NaN => Ok NaN
  | Num q => Ok (Num (w * q))
  | Str _ => Err TypeError
  end.

Definition col_add (a b : column) : result column :=
  rmap (fun ab => cell_add (fst ab) (snd ab)) (combine a b).

Definition col_add_scalar (a : column) (s : cell) : result column :=
  rmap (fun x => cell_add x s) a.

Definition col_scale (w : Q) (a : column) : result column :=
  rmap (cell_scale w) a.

(** [series.fillna(0)] *)
Definition fillna0 (a : column) : column :=
  map (fun x => match x with NaN => Num 0 | _ => x end) a.

(** [series.apply(f)] for an [f] that starts with [str(text)], as
    [clean_text] does: a missing value reads "nan".  How a float
    prints is not modelled; string concatenation never yields one. *)
Definition col_apply (f : text -> result text) (a : column)
  : result column :=
  rmap (fun x =>
          match x with
          | Str t => rbind (f t) (fun u => Ok (Str u))
          | NaN => rbind (f (str "nan")) (fun u => Ok (Str u))
          | Num _ => Err TypeError
          end) a.

(** A fitted [TfidfVectorizer], seen through what [transform] does to
    one document. *)
Definition TfidfVectorizer := text -> vec.

(** [tfidf.transform(series)]: every entry has to be a string (a
    missing value is refused as an invalid document and a float has no
    [lower]); the counts are then validated before they are weighted,
    and a matrix without rows or without columns is refused with a
    ValueError. *)
Definition transform (tfidf : TfidfVectorizer) (a : column)
  : result (list vec) :=
  rbind (rmap (fun x => match x with
                        | Str t => Ok (tfidf t)
                        | NaN => Err ValueError
                        | Num _ => Err AttributeError
                        end) a)
    (fun rows =>
       match rows with
       | [] => Err ValueError
       | [] :: _ => Err ValueError
       | _ => Ok rows
       end).

(* ================================================================= *)
(** ** Sorting: [DataFrame.sort_values(by, ascending=False)] *)

(** The numeric sort key of a cell; ordering text is not modelled. *)
Definition cell_key (a : cell) : result (option Q) :=
  match a with
  | Num q => Ok (Some q)
  | NaN => Ok None
  | Str _ => Err TypeError
  end.

Section Sorting.

(** [ndarray.argsort(kind='quicksort')], the sort [sort_values] uses
    when no [kind] is given. *)
Variable argsort : list Q -> list nat.

Definition non_nan_positions (items : list (option Q)) : list (nat * Q) :=
  flat_map (fun iq => match snd iq with
                      | Some q => [(fst iq, q)]
                      | None => []
                      end)
           (combine (seq 0 (length items)) items).

Definition nan_positions (items : list (option Q)) : list nat :=
  flat_map (fun iq => match snd iq with
                      | Some _ => []
                      | None => [fst iq]
                      end)
           (combine (seq 0 (length items)) items).

(** [nargsort(items, ascending=False, na_position='last')]: the
    present values are reversed, argsorted, and the outcome is
    reversed again; the positions of missing values go last. *)
Definition nargsort_desc (items : list (option Q)) : list nat :=
  let non_nans := rev (map snd (non_nan_positions items)) in
  let non_nan_idx := rev (map fst (non_nan_positions items)) in
  let indexer := map (fun k => nth k non_nan_idx 0%nat) (argsort non_nans) in
  rev indexer ++ nan_positions items.

Definition sort_values_desc (by_ : string) (df : DataFrame)
  : result DataFrame :=
  rbind (df_get df by_) (fun c =>
  rbind (rmap cell_key c) (fun keys =>
  Ok (df_take (nargsort_desc keys) df))).

End Sorting.

(* ================================================================= *)
(** ** The heap of DataFrame objects *)

Definition ref := nat.
Definition heap := list DataFrame.

(** A computation reads and updates the heap and returns a value or
    raises; what it wrote before raising stays written. *)
Definition M (A : Type) : Type := heap -> heap * result A.

Definition ret {A} (a : A) : M A := fun h => (h, Ok a).

Definition bind {A B} (m : M A) (k : A -> M B) : M B :=
  fun h => match m h with
           | (h', Ok a) => k a h'
           | (h', Err e) => (h', Err e)
           end.

Definition lift {A} (r : result A) : M A := fun h => (h, r).

(** [try: m except Exception as e: handler e] *)
Definition try_except {A} (m : M A) (handler : exn -> M A) : M A :=
  fun h => match m h with
           | (h', Err e) => handler e h'
           | r => r
           end.

Declare Scope monad_scope.
Delimit Scope monad_scope with monad.
Notation "x <- m ;; k" := (bind m (fun x => k))
  (at level 61, m at next level, right associativity) : monad_scope.
Notation "m ;; k" := (bind m (fun _ => k))
  (at level 61, right associativity) : monad_scope.
Open Scope monad_scope.

Fixpoint update {A} (i : nat) (a : A) (l : list A) : list A :=
  match l, i with
  | [], _ => []
  | _ :: l', O => a :: l'
  | x :: l', S i' => x :: update i' a l'
  end.

Definition read (r : ref) : M DataFrame :=
  fun h => match nth_error h r with
           | Some df => (h, Ok df)
           | None => (h, Err BadReference)
           end.

Definition write (r : ref) (df : DataFrame) : M unit :=
  fun h => (update r df h, Ok tt).

(** A new object holding [df]. *)
Definition alloc (df : DataFrame) : M ref :=
  fun h => (h ++ [df], Ok (length h)).

(** [df.copy()] *)
Definition copy (r : ref) : M ref := df <- read r ;; alloc df.

(** [df[name]] *)
Definition getitem (r : ref) (name : string) : M column :=
  df <- read r ;; lift (df_get df name).

(** [df[name] = values], in place *)
Definition setitem (r : ref) (name : string) (c : column) : M unit :=
  df <- read r ;;
  df' <- lift (df_set df name c) ;;
  write r df'.

(** [df[name] = scalar], in place *)
Definition setitem_scalar (r : ref) (name : string) (v : cell) : M unit :=
  df <- read r ;;
  df' <- lift (df_set df name (repeat v (nrows df))) ;;
  write r df'.

(* ================================================================= *)
(** ** The functions of app.py *)

Definition default_top_n : Z := 5.
Definition default_similarity_weight : Q := 7 # 10.
Definition default_rating_weight : Q := 3 # 10.

Inductive ui_event : Type :=
| st_success (* "模型与数据加载成功" *)
| st_error_load (e : exn) (* "资源加载失败: e" *)
| st_error_init (* "系统初始化失败，请检查资源路径" *)
| st_error_none (* "未找到符合条件的课程推荐" *)
| st_dataframe (df : DataFrame).

Section App.

Variable cut_block : text -> list text.
Variable sqrt : Q -> Q.
Variable argsort : list Q -> list nat.

(** The three files behind the hard-coded paths; [None] when loading
    one fails. *)
Variable stopwords_txt : result (list text).
Variable tfidf_model_pkl : option TfidfVectorizer.
Variable course_teacher_tfidf_pkl : option DataFrame.

(** [load_resources()], lines 17-32. *)
Definition load_resources
  : M (list ui_event
       * (option TfidfVectorizer * option ref * option (list vec))) :=
  try_except
    (tfidf <- lift (match tfidf_model_pkl with
                    | Some m => Ok m
                    | None => Err IOError
                    end) ;;
     course_teacher_tfidf <-
       match course_teacher_tfidf_pkl with
       | Some df => alloc df
       | None => lift (Err IOError)
       end ;;
     cleaned_review <- getitem course_teacher_tfidf "cleaned_review" ;;
     tfidf_matrix <- lift (transform tfidf cleaned_review) ;;
     ret ([st_success],
          (Some tfidf, Some course_teacher_tfidf, Some tfidf_matrix)))
    (fun e => ret ([st_error_load e], (None, None, None))).

(** [handle_cold_start(new_course_teacher_df, tfidf, clean_text,
    keywords_tfidf, similarity_weight, rating_weight)], lines 54-67. *)
Definition handle_cold_start
    (new_course_teacher_df : ref) (tfidf : TfidfVectorizer)
    (clean_text : text -> result text) (keywords_tfidf : vec)
    (similarity_weight rating_weight : Q) : M DataFrame :=
  course_name <- getitem new_course_teacher_df "course_name" ;;
  with_space <- lift (col_add_scalar course_name (Str (str " "))) ;;
  teacher_name <- getitem new_course_teacher_df "teacher_name" ;;
  substitute <- lift (col_add with_space teacher_name) ;;
  setitem new_course_teacher_df "替代文本" substitute ;;
  substitute' <- getitem new_course_teacher_df "替代文本" ;;
  cleaned <- lift (col_apply clean_text substitute') ;;
  setitem new_course_teacher_df "cleaned_替代文本" cleaned ;;
  cleaned' <- getitem new_course_teacher_df "cleaned_替代文本" ;;
  new_tfidf_matrix <- lift (transform tfidf cleaned') ;;
  similarity_scores <-
    lift (cosine_similarity sqrt keywords_tfidf new_tfidf_matrix) ;;
  df <- read new_course_teacher_df ;;
  selected <- lift (df_select df ["course_name"; "teacher_name"]) ;;
  cold_start_results <- alloc selected ;;
  setitem cold_start_results "similarity" similarity_scores ;;
  setitem_scalar cold_start_results "avg_rating" (Num 0) ;;
  similarity <- getitem cold_start_results "similarity" ;;
  weighted_similarity <- lift (col_scale similarity_weight similarity) ;;
  avg_rating <- getitem cold_start_results "avg_rating" ;;
  weighted_rating <- lift (col_scale rating_weight avg_rating) ;;
  composite <- lift (col_add weighted_similarity weighted_rating) ;;
  setitem cold_start_results "composite_score" composite ;;
  read cold_start_results.

(** [recommend_courses(keywords, course_teacher_tfidf, tfidf,
    tfidf_matrix, top_n, similarity_weight, rating_weight)],
    lines 69-82. *)
Definition recommend_courses
    (keywords : text) (course_teacher_tfidf : ref)
    (tfidf : TfidfVectorizer) (tfidf_matrix : list vec) (top_n : Z)
    (similarity_weight rating_weight : Q) : M DataFrame :=
  cleaned_keywords <- lift (clean_text cut_block stopwords_txt keywords) ;;
  let keywords_tfidf := tfidf cleaned_keywords in
  similarity_scores <-
    lift (cosine_similarity sqrt keywords_tfidf tfidf_matrix) ;;
  temp_df <- copy course_teacher_tfidf ;;
  setitem temp_df "similarity" similarity_scores ;;
  avg_rating <- getitem temp_df "avg_rating" ;;
  setitem temp_df "avg_rating" (fillna0 avg_rating) ;;
  similarity <- getitem temp_df "similarity" ;;
  weighted_similarity <- lift (col_scale similarity_weight similarity) ;;
  avg_rating' <- getitem temp_df "avg_rating" ;;
  weighted_rating <- lift (col_scale rating_weight avg_rating') ;;
  composite <- lift (col_add weighted_similarity weighted_rating) ;;
  setitem temp_df "composite_score" composite ;;
  df <- read temp_df ;;
  selected <-
    lift (df_select df ["course_name"; "teacher_name"; "composite_score"]) ;;
  sorted <- lift (sort_values_desc argsort "composite_score" selected) ;;
  ret (df_head top_n sorted).

(** [final_recommend], lines 105-108: the weights keep their
    defaults. *)
Definition final_recommend
    (keywords : text) (course_teacher_tfidf : ref)
    (tfidf : TfidfVectorizer) (tfidf_matrix : list vec) (top_n : Z)
  : M DataFrame :=
  recommend_courses keywords course_teacher_tfidf tfidf tfidf_matrix top_n
    default_similarity_weight default_rating_weight.

(** The part of [main()] that decides whether a query is scored
    (lines 142-160, then step 2 through
    [display_recommendation_section]); the widgets and the session
    bookkeeping around it are left out. *)
Definition main_step2 (user_keywords : text) : M (list ui_event) :=
  loaded <- load_resources ;;
  match loaded with
  | (log, (Some tfidf, Some course_teacher_tfidf, Some tfidf_matrix)) =>
      recommendations <-
        final_recommend user_keywords course_teacher_tfidf tfidf
          tfidf_matrix default_top_n ;;
      if (nrows recommendations =? 0)%nat
      then ret (log ++ [st_error_none])
      else ret (log ++ [st_dataframe recommendations])
  | (log, _) => ret (log ++ [st_error_init])
  end.

End App.

(* ================================================================= *)
(** ** The page: session state and one run of [main] *)

(** [st.session_state] once [init_session_state] has run; before that
    it holds no key (the state is [None]). *)
Record session : Type := mkSession {
  user_keywords : text;
  new_courses : DataFrame;
  recommendations : DataFrame;
  current_step : Z
}.

(** [pd.DataFrame()] *)
Definition empty_frame : DataFrame := mkDF [] [].

(** [init_session_state()], lines 35-41. *)
Definition init_session_state (state : option session) : session :=
  match state with
  | Some s => s
  | None => mkSession [] empty_frame empty_frame 1
  end.

(** What the widgets hold in one run of the script: the text of the
    input box and, for each button, whether it was just clicked. *)
Record widgets : Type := mkWidgets {
  user_keywords_input : text;
  submit_recommend : bool;
  restart : bool
}.

Inductive page_event : Type :=
| resource_event (e : ui_event)
| st_progress (step : Z)      (* st.progress(step / 2) *)
| st_warning_keywords         (* "请输入关键词！" *)
| st_recommendations (df : DataFrame)
| st_no_recommendations.      (* "未找到符合条件的课程推荐" *)

(** How a run of the script ends: at its last line or at the early
    [return], in [st.rerun()], in an exception, or in the refusal of
    [st.progress] to show a value outside [0, 1]. *)
Inductive outcome : Type :=
| Done
| Rerun
| Raised (e : exn)
| ProgressOutOfRange.

(** [display_input_section], lines 85-103: the new session state, what
    is shown, and whether [st.rerun()] was reached. *)
Definition display_input_section (w : widgets) (s : session)
  : session * list page_event * bool :=
  let s1 := mkSession (user_keywords_input w) (new_courses s)
              (recommendations s) (current_step s) in
  if submit_recommend w then
    match user_keywords s1 with
    | [] => (s1, [st_warning_keywords], false)
    | _ =>
        (mkSession (user_keywords s1) (new_courses s1) (recommendations s1) 2,
         [], true)
    end
  else (s1, [], false).

(** The lines 171-175 of [main]: the reset behind the restart button. *)
Definition reset_session : session := mkSession [] empty_frame empty_frame 1.

Section Page.

Variable cut_block : text -> list text.
Variable sqrt : Q -> Q.
Variable argsort : list Q -> list nat.
Variable stopwords_txt : result (list text).
Variable tfidf_model_pkl : option TfidfVectorizer.
Variable course_teacher_tfidf_pkl : option DataFrame.

(** [display_recommendation_section], lines 110-131. *)
Definition display_recommendation_section (tfidf : TfidfVectorizer)
    (course_teacher_tfidf : ref) (tfidf_matrix : list vec) (s : session)
  : M (session * list page_event) :=
  recommendations <-
    final_recommend cut_block sqrt argsort stopwords_txt (user_keywords s)
      course_teacher_tfidf tfidf tfidf_matrix default_top_n ;;
  let s1 := mkSession (user_keywords s) (new_courses s) recommendations
              (current_step s) in
  if (nrows recommendations =? 0)%nat
  then ret (s1, [st_no_recommendations])
  else ret (s1, [st_recommendations recommendations]).

(** The restart button at the end of [main], lines 170-175. *)
Definition restart_button (w : widgets) (h : heap) (s : session)
    (log : list page_event) : heap * session * list page_event * outcome :=
  if restart w then (h, reset_session, log, Rerun) else (h, s, log, Done).

(** One run of [main()], lines 134-175.  [load_resources] runs as on a
    miss of its cache; the stopword file is opened for the sidebar
    (line 148) once the resources are there. *)
Definition main (w : widgets) (state : option session) (h : heap)
  : heap * session * list page_event * outcome :=
  let s := init_session_state state in
  match load_resources tfidf_model_pkl course_teacher_tfidf_pkl h with
  | (h1, Ok (log, (Some tfidf, Some course_teacher_tfidf, Some tfidf_matrix))) =>
      let shown := map resource_event log in
      match stopwords_txt with
      | Err e => (h1, s, shown, Raised e)
      | Ok _ =>
          if (0 <=? current_step s) && (current_step s <=? 2) then
            let shown := shown ++ [st_progress (current_step s)] in
            if current_step s =? 1 then
              match display_input_section w s with
              | (s1, events, true) => (h1, s1, shown ++ events, Rerun)
              | (s1, events, false) =>
                  restart_button w h1 s1 (shown ++ events)
              end
            else if current_step s =? 2 then
              match display_recommendation_section tfidf
                      course_teacher_tfidf tfidf_matrix s h1 with
              | (h2, Ok (s1, events)) =>
                  restart_button w h2 s1 (shown ++ events)
              | (h2, Err e) => (h2, s, shown, Raised e)
              end
            else restart_button w h1 s shown
          else (h1, s, shown, ProgressOutOfRange)
      end
  | (h1, Ok (log, _)) =>
      (h1, s, map resource_event log ++ [resource_event st_error_init], Done)
  | (h1, Err e) => (h1, s, [], Raised e)
  end.

End Page.

(* ================================================================= *)
(** ** Vocabulary of the statements *)

Definition is_number (a : cell) : Prop :=
  match a with Str _ => False | _ => True end.

(** The rating a cell contributes once [fillna(0)] has been applied. *)
Definition rating_of (a : cell) : Q :=
  match a with Num q => q | _ => 0%Q end.

(** What lines 78-81 compute from the similarity and the rating of a
    row. *)
Definition composite_of (w_sim w_rating : Q) (sr : Q * cell) : Q :=
  (w_sim * fst sr + w_rating * rating_of (snd sr))%Q.

(** What numpy promises of [argsort]: a permutation of the positions
    that puts the values in ascending order. *)
Definition sorts (argsort : list Q -> list nat) : Prop :=
  forall v,
    Permutation (argsort v) (seq 0 (length v))
    /\ StronglySorted (fun a b => (nth a v 0 <= nth b v 0)%Q) (argsort v).

(** A stable [argsort] also keeps equal values in their order. *)
Definition stable (argsort : list Q -> list nat) : Prop :=
  forall v,
    StronglySorted (fun a b => (nth a v 0 == nth b v 0)%Q -> (a < b)%nat)
                   (argsort v).

(** The positions [sort_values] takes the rows from, when no score is
    missing. *)
Definition descending_positions (argsort : list Q -> list nat)
    (scores : list Q) : list nat :=
  rev (map (fun k => nth k (rev (seq 0 (length scores))) 0%nat)
           (argsort (rev scores))).

(** The query as [recommend_courses] vectorizes it, when the stopword
    file has the given lines. *)
Definition cleaned_query (cut_block : text -> list text)
    (stopword_lines : list text) (keywords : text) : text :=
  join (str " ")
    (filter (fun word =>
               negb (is_stopword (map strip stopword_lines) word))
            (lcut cut_block (lower (strip_disallowed keywords)))).

(** A catalog as the scoring path needs it: at least one row, the
    three columns it reads, with numbers or gaps for ratings, and a
    matrix with one row of the query's width per catalog row, that
    width not being zero. *)
Record scorable (cut_block : text -> list text) (stopword_lines : list text)
    (cat : DataFrame) (cn tn ar : column)
    (tfidf : TfidfVectorizer) (tfidf_matrix : list vec)
    (keywords : text) : Prop := {
  sc_wf : wf_df cat = true;
  sc_course : lookup "course_name" (columns cat) = Some cn;
  sc_teacher : lookup "teacher_name" (columns cat) = Some tn;
  sc_rating : lookup "avg_rating" (columns cat) = Some ar;
  sc_numbers : Forall is_number ar;
  sc_rows : length tfidf_matrix = nrows cat;
  sc_width :
    Forall (fun r =>
              length r
              = length (tfidf (cleaned_query cut_block stopword_lines keywords)))
           tfidf_matrix;
  sc_nonempty : (0 < nrows cat)%nat;
  sc_features :
    (0 < length (tfidf (cleaned_query cut_block stopword_lines keywords)))%nat
}.

(** The composite scores in catalog order. *)
Definition composite_scores (cut_block : text -> list text) (sqrt : Q -> Q)
    (stopword_lines : list text) (tfidf : TfidfVectorizer)
    (tfidf_matrix : list vec) (keywords : text) (w_sim w_rating : Q)
    (ar : column) : list Q :=
  map (composite_of w_sim w_rating)
      (combine (map (cosine sqrt
                       (tfidf (cleaned_query cut_block stopword_lines keywords)))
                    tfidf_matrix) ar).

(** The three columns that are ranked. *)
Definition scored_frame (cat : DataFrame) (cn tn : column)
    (scores : list Q) : DataFrame :=
  mkDF (index cat)
    [("course_name", cn); ("teacher_name", tn);
     ("composite_score", map Num scores)].

Definition ranking (argsort : list Q -> list nat) (top_n : Z)
    (cat : DataFrame) (cn tn : column) (scores : list Q) : DataFrame :=
  df_head top_n
    (df_take (descending_positions argsort scores)
             (scored_frame cat cn tn scores)).

(** The score of catalog row [i]. *)
Definition score_at (cut_block : text -> list text) (sqrt : Q -> Q)
    (stopword_lines : list text) (tfidf : TfidfVectorizer)
    (tfidf_matrix : list vec) (keywords : text) (w_sim w_rating : Q)
    (ar : column) (i : nat) : Q :=
  (w_sim * cosine sqrt (tfidf (cleaned_query cut_block stopword_lines keywords))
             (nth i tfidf_matrix [])
   + w_rating * rating_of (nth i ar NaN))%Q.

(** The result frame made of the catalog rows at [positions]. *)
Definition rows_at (cat : DataFrame) (cn tn : column) (score : nat -> Q)
    (positions : list nat) : DataFrame :=
  mkDF (map (fun i => nth i (index cat) 0%nat) positions)
    [("course_name", map (fun i => nth i cn NaN) positions);
     ("teacher_name", map (fun i => nth i tn NaN) positions);
     ("composite_score", map (fun i => Num (score i)) positions)].

(** The substitute text of a row, line 56. *)
Definition substitute_text (names : text * text) : text :=
  (fst names ++ str " ") ++ snd names.

(** The frame [handle_cold_start] returns for rows with the given
    names, lines 60-66. *)
Definition cold_start_frame (df : DataFrame) (cns tns : list text)
    (similarity : text * text -> Q) (w_sim w_rating : Q) : DataFrame :=
  mkDF (index df)
    [("course_name", map Str cns); ("teacher_name", map Str tns);
     ("similarity", map Num (map similarity (combine cns tns)));
     ("avg_rating", repeat (Num 0) (nrows df));
     ("composite_score",
      map Num (map (fun names => (w_sim * similarity names + w_rating * 0)%Q)
                   (combine cns tns)))].

(** The caller's frame after the call, lines 56-57. *)
Definition cold_start_input_after (df : DataFrame) (cns tns : list text)
    (cleaned : text -> text) : DataFrame :=
  mkDF (index df)
    (assign "cleaned_替代文本"
       (map Str (map cleaned (map substitute_text (combine cns tns))))
       (assign "替代文本"
          (map Str (map substitute_text (combine cns tns)))
          (columns df))).

Definition all_zero (x : vec) : Prop := Forall (fun a => (a == 0)%Q) x.

(** What any segmentation of a block does: it cuts the block into
    non-empty pieces. *)
Definition segments (cut_block : text -> list text) : Prop :=
  forall blk,
    concat (cut_block blk) = blk /\ Forall (fun w => w <> []) (cut_block blk).

(** A segmentation whose pieces are final: a piece, given as a block
    of its own, is not cut further. *)
Definition final_pieces (cut_block : text -> list text) : Prop :=
  forall blk w, In w (cut_block blk) -> cut_block w = [w].

(** The tokens [clean_text] keeps of a text, before it joins them. *)
Definition kept_tokens (cut_block : text -> list text)
    (stopword_lines : list text) (t : text) : list text :=
  filter (fun word => negb (is_stopword (map strip stopword_lines) word))
         (lcut cut_block (lower (strip_disallowed t))).

(** [frames n m]: running [m] changes none of the first [n] objects of
    the heap, and removes none. *)
Definition frames {A} (n : nat) (m : M A) : Prop :=
  forall h, (n <= length h)%nat ->
    firstn n (fst (m h)) = firstn n h
    /\ (length h <= length (fst (m h)))%nat.

(** The session states the page moves between: no cold-start data,
    and the step of the input or the step of the recommendations. *)
Definition page_state (s : session) : Prop :=
  new_courses s = empty_frame /\ (current_step s = 1 \/ current_step s = 2).

(** The composite scores of a result, in lowest terms. *)
Definition composite_column (res : DataFrame) : list Q :=
  match lookup "composite_score" (columns res) with
  | Some c => map (fun a => Qred (rating_of a)) c
  | None => []
  end.

(* ================================================================= *)
(** ** Concrete collaborators, for running the model *)

(** A square root rounded down to twelve decimals. *)
Definition fixed_sqrt (q : Q) : Q :=
  Z.sqrt (Qnum q * 10 ^ 24 / Zpos (Qden q)) # 10 ^ 12.

(** Insertion argsort: the positions of [v], each inserted in front of
    the first position whose value [cmp] puts after it. *)
Fixpoint insert_pos (cmp : Q -> Q -> bool) (v : list Q) (i : nat)
    (l : list nat) : list nat :=
  match l with
  | [] => [i]
  | j :: l' =>
      if cmp (nth i v 0%Q) (nth j v 0%Q) then i :: l
      else j :: insert_pos cmp v i l'
  end.

Definition insertion_argsort (cmp : Q -> Q -> bool) (v : list Q) : list nat :=
  fold_right (insert_pos cmp v) [] (seq 0 (length v)).

(** Equal values keep their order. *)
Definition stable_argsort : list Q -> list nat := insertion_argsort Qle_bool.

(** A segmenter that keeps every block whole. *)
Definition whole_block : text -> list text := fun blk => [blk].

(** A segmenter that keeps every block that is not empty whole. *)
Definition whole_words : text -> list text :=
  fun blk => match blk with [] => [] | _ => [blk] end.

(** A segmenter that cuts every block into its characters. *)
Definition per_character : text -> list text := map (fun c => [c]).

(** Words of a cleaned text: the pieces between spaces. *)
Fixpoint words_from (w : text) (t : text) : list text :=
  match t with
  | [] => match w with [] => [] | _ => [w] end
  | c :: t' =>
      if c =? 32
      then match w with [] => words_from [] t' | _ => w :: words_from [] t' end
      else words_from (w ++ [c]) t'
  end.

(** Term counts over a fixed vocabulary. *)
Definition bag_of_words (vocabulary : list text) : TfidfVectorizer :=
  fun doc =>
    map (fun term =>
           inject_Z (Z.of_nat (length (filter (text_eqb term)
                                         (words_from [] doc)))))
        vocabulary.

Definition demo_stopword_lines : list text :=
  [str "the" ++ [10]; str "and" ++ [10]; [30340; 10]].

Definition demo_stopwords : result (list text) := Ok demo_stopword_lines.

Definition demo_vocabulary : list text :=
  [str "clear"; str "explanations"; str "patient"; str "difficult";
   str "workload"; str "seminar"].

Definition demo_catalog : DataFrame :=
  mkDF [0; 1]%nat
    [("course_name", [Str (str "Calculus I"); Str (str "Organic Chem")]);
     ("teacher_name", [Str (str "Dr. Lee"); Str (str "Dr. Shah")]);
     ("cleaned_review",
      [Str (str "students say clear explanations patient");
       Str (str "difficult heavy workload stressful")]);
     ("avg_rating", [Num (9 # 2); Num 3])].

Definition demo_matrix : list vec :=
  map (bag_of_words demo_vocabulary)
    [str "students say clear explanations patient";
     str "difficult heavy workload stressful"].

Definition demo_new_courses : DataFrame :=
  mkDF [0]%nat
    [("course_name", [Str (str "New Seminar")]);
     ("teacher_name", [Str (str "Dr. Park")]);
     ("avg_rating", [Num 5])].

(** Twenty courses with the same review and the same rating. *)
Definition tied_catalog : DataFrame :=
  mkDF (seq 0 20)
    [("course_name",
      map (fun i => Str (str "Course " ++ [65 + Z.of_nat i])) (seq 0 20));
     ("teacher_name", repeat (Str (str "Dr. Lee")) 20);
     ("cleaned_review", repeat (Str (str "clear")) 20);
     ("avg_rating", repeat (Num 4) 20)].

Definition tied_matrix : list vec :=
  repeat (bag_of_words demo_vocabulary (str "clear")) 20.

(** [recommend_courses] on the demo catalog, with the default weights. *)
Definition demo_recommend (argsort : list Q -> list nat) (keywords : text)
    (top_n : Z) : heap * result DataFrame :=
  recommend_courses whole_block fixed_sqrt argsort demo_stopwords
    keywords 0%nat (bag_of_words demo_vocabulary) demo_matrix top_n
    default_similarity_weight default_rating_weight [demo_catalog].

(** [handle_cold_start] on the demo entry, for the query "seminar". *)
Definition demo_cold_start : heap * result DataFrame :=
  handle_cold_start fixed_sqrt 0%nat (bag_of_words demo_vocabulary)
    (clean_text whole_block demo_stopwords)
    (bag_of_words demo_vocabulary (str "seminar"))
    default_similarity_weight default_rating_weight [demo_new_courses].

(* ================================================================= *)
(** * Properties *)

(** ** Text and the error and heap monads *)

Lemma text_eqb_eq (a b : text) : text_eqb a b = true <-> a = b.
Proof.
  unfold text_eqb. destruct (list_eq_dec Z.eq_dec a b); split; congruence.
Qed.

Lemma rmap_ok {A B} (f : A -> result B) (g : A -> B) (l : list A) :
  (forall x, In x l -> f x = Ok (g x)) -> rmap f l = Ok (map g l).
Proof.
  induction l as [|x l IH]; intros H; simpl; [reflexivity|].
  rewrite (H x (or_introl eq_refl)). simpl.
  rewrite IH by (intros y Hy; apply H; right; exact Hy).
  reflexivity.
Qed.

Lemma bind_ok {A B} (m : M A) (k : A -> M B) h h' a :
  m h = (h', Ok a) -> bind m k h = k a h'.
Proof. intros E. unfold bind. rewrite E. reflexivity. Qed.

Lemma bind_err {A B} (m : M A) (k : A -> M B) h h' e :
  m h = (h', Err e) -> bind m k h = (h', Err e).
Proof. intros E. unfold bind. rewrite E. reflexivity. Qed.

Lemma nth_error_last {A} (h : list A) (d : A) :
  nth_error (h ++ [d]) (length h) = Some d.
Proof. induction h; simpl; auto. Qed.

Lemma update_last {A} (h : list A) (d d' : A) :
  update (length h) d' (h ++ [d]) = h ++ [d'].
Proof. induction h; simpl; congruence. Qed.

Lemma update_length {A} i (a : A) l : length (update i a l) = length l.
Proof.
  revert i; induction l as [|x l IH]; intros [|i]; simpl; auto.
Qed.

Lemma update_above {A} n i (a : A) l :
  (n <= i)%nat -> firstn n (update i a l) = firstn n l.
Proof.
  revert i l; induction n as [|n IH]; intros i l Hle; [reflexivity|].
  destruct l as [|x l]; [destruct i; reflexivity|].
  destruct i as [|i]; [lia|]. simpl. f_equal. apply IH. lia.
Qed.

(** ** Columns of a frame *)

Lemma lookup_assign_same name c cols :
  lookup name (assign name c cols) = Some c.
Proof.
  induction cols as [|[n c0] cols IH]; simpl.
  - rewrite String.eqb_refl. reflexivity.
  - destruct (String.eqb n name) eqn:E; simpl; rewrite E; auto.
Qed.

Lemma lookup_assign_other name name' c cols :
  String.eqb name' name = false ->
  lookup name (assign name' c cols) = lookup name cols.
Proof.
  intros Hne. induction cols as [|[n c0] cols IH]; simpl.
  - rewrite Hne. reflexivity.
  - destruct (String.eqb n name') eqn:E; simpl.
    + apply String.eqb_eq in E. subst n. rewrite Hne. reflexivity.
    + destruct (String.eqb n name); auto.
Qed.

Lemma df_select_two df a b ca cb :
  lookup a (columns df) = Some ca -> lookup b (columns df) = Some cb ->
  df_select df [a; b] = Ok (mkDF (index df) [(a, ca); (b, cb)]).
Proof.
  intros Ha Hb. unfold df_select, has_column, df_get. simpl.
  rewrite Ha, Hb. reflexivity.
Qed.

Lemma df_select_three df a b c ca cb cc :
  lookup a (columns df) = Some ca -> lookup b (columns df) = Some cb ->
  lookup c (columns df) = Some cc ->
  df_select df [a; b; c] = Ok (mkDF (index df) [(a, ca); (b, cb); (c, cc)]).
Proof.
  intros Ha Hb Hc. unfold df_select, has_column, df_get. simpl.
  rewrite Ha, Hb, Hc. reflexivity.
Qed.

Lemma df_set_ok df name c :
  length c = nrows df ->
  df_set df name c = Ok (mkDF (index df) (assign name c (columns df))).
Proof.
  intros Hlen. unfold df_set, nrows in *.
  destruct (index df) as [|i ix] eqn:Ei; destruct c as [|x c];
    simpl in Hlen; try discriminate; try reflexivity.
  injection Hlen as Hlen. simpl. rewrite Hlen, Nat.eqb_refl. reflexivity.
Qed.

Lemma getitem_run h r df name c :
  nth_error h r = Some df -> lookup name (columns df) = Some c ->
  getitem r name h = (h, Ok c).
Proof.
  intros Hr Hc. unfold getitem, bind, read, lift, df_get.
  rewrite Hr, Hc. reflexivity.
Qed.

Lemma setitem_run h r df name c :
  nth_error h r = Some df -> length c = nrows df ->
  setitem r name c h
  = (update r (mkDF (index df) (assign name c (columns df))) h, Ok tt).
Proof.
  intros Hr Hc. unfold setitem, bind, read, lift, write.
  rewrite Hr, (df_set_ok _ _ _ Hc). reflexivity.
Qed.

(** ** Scores *)

Lemma col_scale_num w l :
  col_scale w (map Num l) = Ok (map (fun q => Num (w * q)) l).
Proof.
  unfold col_scale. rewrite (rmap_ok _ (fun a => Num (w * rating_of a))).
  - rewrite map_map. reflexivity.
  - intros x Hx. apply in_map_iff in Hx as [q [<- _]]. reflexivity.
Qed.

Lemma fillna0_numbers ar :
  Forall is_number ar -> fillna0 ar = map Num (map rating_of ar).
Proof.
  induction 1 as [|a ar Ha _ IH]; simpl; [reflexivity|].
  rewrite IH. destruct a; simpl in *; try contradiction; reflexivity.
Qed.

Lemma col_add_weighted w_sim w_rating sims ar :
  length sims = length ar ->
  col_add (map (fun q => Num (w_sim * q)) sims)
          (map (fun q => Num (w_rating * q)) (map rating_of ar))
  = Ok (map Num (map (composite_of w_sim w_rating) (combine sims ar))).
Proof.
  unfold col_add. revert ar.
  induction sims as [|s sims IH]; intros [|a ar] Hlen; simpl in *;
    try discriminate; [reflexivity|].
  rewrite IH by lia. reflexivity.
Qed.

Lemma handle_zeros_guard n : Qeq_bool (handle_zeros n) 0 = false.
Proof.
  unfold handle_zeros. destruct (Qeq_bool n 0) eqn:E; [reflexivity | exact E].
Qed.

(** The guard at work: no entry of a normalized row is lost to a
    division by zero. *)
Lemma normalize_finite sqrt x :
  finite (normalize sqrt x) = Some (scale_row sqrt x).
Proof.
  unfold normalize, scale_row.
  generalize (handle_zeros_guard (row_norm sqrt x)).
  generalize (handle_zeros (row_norm sqrt x)). intros n Hn.
  induction x as [|a x IH]; simpl; [reflexivity|].
  unfold fdiv at 1. rewrite Hn, IH. reflexivity.
Qed.

Lemma cosine_entry_num sqrt x y :
  cosine_entry sqrt x y = Num (cosine sqrt x y).
Proof. unfold cosine_entry. rewrite !normalize_finite. reflexivity. Qed.

Lemma cosine_similarity_ok sqrt X Y :
  (0 < length X)%nat -> (0 < length Y)%nat ->
  Forall (fun r => length r = length X) Y ->
  cosine_similarity sqrt X Y = Ok (map Num (map (cosine sqrt X) Y)).
Proof.
  intros HX HY H. unfold cosine_similarity.
  destruct X as [|a X]; [simpl in HX; lia|].
  destruct Y as [|r Y]; [simpl in HY; lia|].
  replace (forallb _ (r :: Y)) with true.
  - rewrite map_map. f_equal. apply map_ext. intros y.
    apply cosine_entry_num.
  - symmetry. apply forallb_forall. rewrite Forall_forall in H.
    intros r' Hr. apply Nat.eqb_eq. auto.
Qed.

(** ** Sorting *)

Lemma non_nan_positions_from s (l : list Q) :
  flat_map (fun iq : nat * option Q =>
              match snd iq with Some q => [(fst iq, q)] | None => [] end)
           (combine (seq s (length l)) (map Some l))
  = combine (seq s (length l)) l.
Proof.
  revert s; induction l as [|q l IH]; intros s; simpl; [reflexivity|].
  rewrite IH. reflexivity.
Qed.

Lemma nan_positions_from s (l : list Q) :
  flat_map (fun iq : nat * option Q =>
              match snd iq with Some _ => [] | None => [fst iq] end)
           (combine (seq s (length l)) (map Some l))
  = [].
Proof.
  revert s; induction l as [|q l IH]; intros s; simpl; auto.
Qed.

Lemma map_fst_combine {A B} (a : list A) (b : list B) :
  length a = length b -> map fst (combine a b) = a.
Proof.
  revert b; induction a as [|x a IH]; intros [|y b] H; simpl in *;
    try discriminate; [reflexivity|]. f_equal. apply IH. lia.
Qed.

Lemma map_snd_combine {A B} (a : list A) (b : list B) :
  length a = length b -> map snd (combine a b) = b.
Proof.
  revert b; induction a as [|x a IH]; intros [|y b] H; simpl in *;
    try discriminate; [reflexivity|]. f_equal. apply IH. lia.
Qed.

Lemma nargsort_desc_all_present argsort scores :
  nargsort_desc argsort (map Some scores)
  = descending_positions argsort scores.
Proof.
  unfold nargsort_desc, non_nan_positions, nan_positions,
    descending_positions.
  rewrite length_map, non_nan_positions_from, nan_positions_from.
  rewrite map_fst_combine, map_snd_combine by (rewrite length_seq; lia).
  apply app_nil_r.
Qed.

Lemma cell_keys_present scores :
  rmap cell_key (map Num scores) = Ok (map Some scores).
Proof.
  rewrite (rmap_ok _ (fun a => Some (rating_of a))).
  - rewrite map_map. reflexivity.
  - intros x Hx. apply in_map_iff in Hx as [q [<- _]]. reflexivity.
Qed.

Lemma StronglySorted_snoc {A} (R : A -> A -> Prop) l a :
  StronglySorted R l -> Forall (fun b => R b a) l ->
  StronglySorted R (l ++ [a]).
Proof.
  induction 1 as [|b m Hm IH Hb]; intros Hall; simpl.
  - constructor; constructor.
  - inversion Hall as [|? ? Hba Hrest]; subst. constructor.
    + apply IH. exact Hrest.
    + apply Forall_app; split; [exact Hb|]. constructor; [exact Hba|constructor].
Qed.

Lemma StronglySorted_rev {A} (R : A -> A -> Prop) l :
  StronglySorted R l -> StronglySorted (fun a b => R b a) (rev l).
Proof.
  induction 1 as [|a l Hl IH Ha]; simpl; [constructor|].
  apply StronglySorted_snoc; [exact IH|].
  apply Forall_rev. exact Ha.
Qed.

Lemma StronglySorted_map {A B} (R : B -> B -> Prop) (f : A -> B) l :
  StronglySorted (fun a b => R (f a) (f b)) l -> StronglySorted R (map f l).
Proof.
  induction 1 as [|a l Hl IH Ha]; simpl; constructor; auto.
  apply Forall_map. exact Ha.
Qed.

Lemma StronglySorted_impl_in {A} (R R' : A -> A -> Prop) l :
  (forall a b, In a l -> In b l -> R a b -> R' a b) ->
  StronglySorted R l -> StronglySorted R' l.
Proof.
  intros Himp H. induction H as [|a l Hl IH Ha]; constructor.
  - apply IH. intros x y Hx Hy. apply Himp; right; assumption.
  - rewrite Forall_forall in *. intros b Hb.
    apply Himp; [left; reflexivity | right; exact Hb | auto].
Qed.

Lemma in_firstn {A} k (l : list A) x : In x (firstn k l) -> In x l.
Proof.
  intros H. rewrite <- (firstn_skipn k l). apply in_or_app. left. exact H.
Qed.

Lemma StronglySorted_firstn {A} (R : A -> A -> Prop) k l :
  StronglySorted R l -> StronglySorted R (firstn k l).
Proof.
  intros H. revert k. induction H as [|a l Hl IH Ha]; intros [|k]; simpl;
    try constructor; auto.
  rewrite Forall_forall in *. intros b Hb. apply Ha.
  rewrite <- (firstn_skipn k l). apply in_or_app. left. exact Hb.
Qed.

Lemma map_nth_seq {A} (l : list A) d :
  map (fun k => nth k l d) (seq 0 (length l)) = l.
Proof.
  induction l as [|x l IH]; simpl; [reflexivity|].
  f_equal. rewrite <- seq_shift, map_map. exact IH.
Qed.

Lemma nth_rev_seq n k : (k < n)%nat -> nth k (rev (seq 0 n)) 0%nat = (n - S k)%nat.
Proof.
  intros Hk. rewrite rev_nth by (rewrite length_seq; exact Hk).
  rewrite length_seq, seq_nth by lia. reflexivity.
Qed.

Section DescendingPositions.

Variable argsort : list Q -> list nat.
Hypothesis argsort_sorts : sorts argsort.

Lemma descending_positions_perm scores :
  Permutation (descending_positions argsort scores)
              (seq 0 (length scores)).
Proof.
  unfold descending_positions.
  destruct (argsort_sorts (rev scores)) as [Hperm _].
  rewrite length_rev in Hperm.
  rewrite <- Permutation_rev.
  rewrite (Permutation_map _ Hperm).
  pose proof (map_nth_seq (rev (seq 0 (length scores))) 0%nat) as E.
  rewrite length_rev, length_seq in E. rewrite E.
  rewrite <- Permutation_rev. reflexivity.
Qed.

Lemma descending_positions_bound scores i :
  In i (descending_positions argsort scores) -> (i < length scores)%nat.
Proof.
  intros Hi.
  apply (Permutation_in _ (descending_positions_perm scores)) in Hi.
  apply in_seq in Hi. lia.
Qed.

Lemma descending_positions_length scores :
  length (descending_positions argsort scores) = length scores.
Proof.
  rewrite (Permutation_length (descending_positions_perm scores)).
  apply length_seq.
Qed.

(** Values read back through the reversal. *)
Lemma argsort_rev_bound scores k :
  In k (argsort (rev scores)) -> (k < length scores)%nat.
Proof.
  intros Hk. destruct (argsort_sorts (rev scores)) as [Hperm _].
  apply (Permutation_in _ Hperm) in Hk. apply in_seq in Hk.
  rewrite length_rev in Hk. lia.
Qed.

Lemma descending_positions_sorted scores :
  StronglySorted (fun a b => (nth b scores 0 <= nth a scores 0)%Q)
                 (descending_positions argsort scores).
Proof.
  unfold descending_positions.
  apply (StronglySorted_rev (fun a b => (nth a scores 0 <= nth b scores 0)%Q)).
  apply StronglySorted_map.
  destruct (argsort_sorts (rev scores)) as [_ Hsorted].
  revert Hsorted. apply StronglySorted_impl_in.
  intros a b Ha Hb Hab.
  apply argsort_rev_bound in Ha, Hb.
  rewrite !nth_rev_seq by assumption.
  rewrite !rev_nth in Hab by assumption. exact Hab.
Qed.

Lemma descending_positions_stable scores :
  stable argsort ->
  StronglySorted
    (fun a b => (nth a scores 0 == nth b scores 0)%Q -> (a < b)%nat)
    (descending_positions argsort scores).
Proof.
  intros Hstable. unfold descending_positions.
  apply (StronglySorted_rev
           (fun a b => (nth b scores 0 == nth a scores 0)%Q -> (b < a)%nat)).
  apply StronglySorted_map.
  generalize (Hstable (rev scores)). apply StronglySorted_impl_in.
  intros a b Ha Hb Hab Heq.
  apply argsort_rev_bound in Ha, Hb.
  rewrite !nth_rev_seq in * by assumption.
  rewrite !rev_nth in Hab by assumption.
  assert (a < b)%nat by (apply Hab; symmetry; exact Heq). lia.
Qed.

End DescendingPositions.

(** ** Insertion argsort meets the contract *)

Section InsertionArgsort.

Variable cmp : Q -> Q -> bool.
Variable v : list Q.

Lemma insert_pos_perm i l : Permutation (insert_pos cmp v i l) (i :: l).
Proof.
  induction l as [|j l IH]; simpl; [reflexivity|].
  destruct (cmp _ _); [reflexivity|].
  rewrite IH. apply perm_swap.
Qed.

Lemma fold_insert_perm l :
  Permutation (fold_right (insert_pos cmp v) [] l) l.
Proof.
  induction l as [|i l IH]; simpl; [reflexivity|].
  rewrite insert_pos_perm. constructor. exact IH.
Qed.

Hypothesis cmp_true : forall x y, cmp x y = true -> (x <= y)%Q.
Hypothesis cmp_false : forall x y, cmp x y = false -> (y <= x)%Q.

Let ascending (a b : nat) : Prop := (nth a v 0 <= nth b v 0)%Q.

Lemma insert_pos_sorted i l :
  StronglySorted ascending l ->
  StronglySorted ascending (insert_pos cmp v i l).
Proof.
  induction 1 as [|j l Hl IH Hj]; simpl.
  - constructor; constructor.
  - destruct (cmp _ _) eqn:E.
    + constructor; [constructor; assumption|].
      apply cmp_true in E. constructor; [exact E|].
      rewrite Forall_forall in *. intros k Hk.
      unfold ascending in *. eapply Qle_trans; [exact E | auto].
    + constructor; [exact IH|].
      apply (Permutation_Forall (Permutation_sym (insert_pos_perm i l))).
      constructor; [apply cmp_false; exact E | exact Hj].
Qed.

Lemma fold_insert_sorted l :
  StronglySorted ascending (fold_right (insert_pos cmp v) [] l).
Proof.
  induction l as [|i l IH]; simpl; [constructor|].
  apply insert_pos_sorted. exact IH.
Qed.

End InsertionArgsort.

Lemma insertion_argsort_sorts cmp :
  (forall x y, cmp x y = true -> (x <= y)%Q) ->
  (forall x y, cmp x y = false -> (y <= x)%Q) ->
  forall v,
    Permutation (insertion_argsort cmp v) (seq 0 (length v))
    /\ StronglySorted (fun a b => (nth a v 0 <= nth b v 0)%Q)
                      (insertion_argsort cmp v).
Proof.
  intros Ht Hf v. split.
  - apply fold_insert_perm.
  - apply fold_insert_sorted; assumption.
Qed.

Lemma Qle_bool_false x y : Qle_bool x y = false -> (y <= x)%Q.
Proof.
  intros E. apply Qlt_le_weak. apply Qnot_le_lt. intros H.
  apply Qle_bool_iff in H. congruence.
Qed.

Lemma stable_argsort_sorts : sorts stable_argsort.
Proof.
  intros v. apply insertion_argsort_sorts.
  - intros x y. apply Qle_bool_iff.
  - apply Qle_bool_false.
Qed.

Section StableInsertion.

Variable v : list Q.

Let in_order (a b : nat) : Prop := (nth a v 0 == nth b v 0)%Q -> (a < b)%nat.

Lemma insert_pos_in_order i l :
  Forall (fun j => (i < j)%nat) l ->
  StronglySorted in_order l ->
  StronglySorted in_order (insert_pos Qle_bool v i l).
Proof.
  intros Hgt Hs. induction Hs as [|j l Hl IH Hj]; simpl.
  - constructor; constructor.
  - destruct (Qle_bool _ _) eqn:E.
    + constructor; [constructor; assumption|].
      revert Hgt. apply Forall_impl. intros k Hk _. exact Hk.
    + inversion Hgt as [|? ? Hij Hrest]; subst.
      constructor; [apply IH; exact Hrest|].
      apply (Permutation_Forall
               (Permutation_sym (insert_pos_perm Qle_bool v i l))).
      constructor; [|exact Hj].
      intros Heq. exfalso.
      assert (Qle_bool (nth i v 0%Q) (nth j v 0%Q) = true); [|congruence].
      apply Qle_bool_iff. rewrite Heq. apply Qle_refl.
Qed.

Lemma fold_insert_in_order s n :
  StronglySorted in_order
    (fold_right (insert_pos Qle_bool v) [] (seq s n)).
Proof.
  revert s. induction n as [|n IH]; intros s; simpl; [constructor|].
  apply insert_pos_in_order; [|apply IH].
  apply (Permutation_Forall
           (Permutation_sym (fold_insert_perm Qle_bool v (seq (S s) n)))).
  apply Forall_forall. intros j Hj. apply in_seq in Hj. lia.
Qed.

End StableInsertion.

Lemma stable_argsort_stable : stable stable_argsort.
Proof. intros v. apply fold_insert_in_order. Qed.

(** ** One run of [recommend_courses] *)

Section RecommendRun.

Variable cut_block : text -> list text.
Variable sqrt : Q -> Q.
Variable argsort : list Q -> list nat.
Variable stopword_lines : list text.

Lemma clean_text_ok keywords :
  clean_text cut_block (Ok stopword_lines) keywords
  = Ok (cleaned_query cut_block stopword_lines keywords).
Proof. reflexivity. Qed.

Lemma lookup_length cat name c :
  wf_df cat = true -> lookup name (columns cat) = Some c ->
  length c = nrows cat.
Proof.
  unfold wf_df. generalize (nrows cat) as n. intros n.
  induction (columns cat) as [|[m c0] cols IH]; simpl; [discriminate|].
  intros Hwf Hl. apply andb_true_iff in Hwf as [H1 H2].
  destruct (String.eqb m name).
  - injection Hl as <-. apply Nat.eqb_eq. exact H1.
  - auto.
Qed.

Lemma recommend_courses_run h r cat cn tn ar keywords tfidf tfidf_matrix
    top_n w_sim w_rating :
  nth_error h r = Some cat ->
  scorable cut_block stopword_lines cat cn tn ar tfidf tfidf_matrix keywords ->
  exists temp,
    recommend_courses cut_block sqrt argsort (Ok stopword_lines)
      keywords r tfidf tfidf_matrix top_n w_sim w_rating h
    = (h ++ [temp],
       Ok (ranking argsort top_n cat cn tn
             (composite_scores cut_block sqrt stopword_lines tfidf tfidf_matrix keywords
                w_sim w_rating ar))).
Proof.
  intros Hr [Hwf Hcn Htn Har Hnum Hrows Hwidth Hne Hfeat].
  pose proof (lookup_length _ _ _ Hwf Har) as Hlen_ar.
  unfold recommend_courses.
  rewrite (bind_ok _ _ h h (cleaned_query cut_block stopword_lines keywords)) by reflexivity.
  cbv zeta.
  assert (HY : (0 < length tfidf_matrix)%nat) by (rewrite Hrows; exact Hne).
  erewrite bind_ok
    by (unfold lift; rewrite (cosine_similarity_ok _ _ _ Hfeat HY Hwidth);
        reflexivity).
  set (sims := map (cosine sqrt (tfidf (cleaned_query cut_block stopword_lines keywords))) tfidf_matrix).
  assert (Hsims : length sims = nrows cat)
    by (unfold sims; rewrite length_map; exact Hrows).
  erewrite bind_ok
    by (unfold copy, bind, read, alloc; rewrite Hr; reflexivity).
  erewrite bind_ok.
  2:{ erewrite setitem_run; [reflexivity| apply nth_error_last |].
      rewrite length_map. exact Hsims. }
  rewrite update_last.
  erewrite bind_ok.
  2:{ eapply getitem_run; [apply nth_error_last|]. simpl columns.
      rewrite lookup_assign_other by reflexivity. exact Har. }
  erewrite bind_ok.
  2:{ erewrite setitem_run; [reflexivity| apply nth_error_last |].
      unfold fillna0. rewrite length_map. exact Hlen_ar. }
  rewrite update_last. simpl index. simpl columns.
  erewrite bind_ok.
  2:{ eapply getitem_run; [apply nth_error_last|]. simpl columns.
      rewrite lookup_assign_other by reflexivity.
      apply lookup_assign_same. }
  erewrite bind_ok by (unfold lift; rewrite col_scale_num; reflexivity).
  erewrite bind_ok.
  2:{ eapply getitem_run; [apply nth_error_last|]. simpl columns.
      apply lookup_assign_same. }
  rewrite (fillna0_numbers _ Hnum).
  erewrite bind_ok by (unfold lift; rewrite col_scale_num; reflexivity).
  erewrite bind_ok.
  2:{ unfold lift. rewrite col_add_weighted by lia. reflexivity. }
  fold (composite_scores cut_block sqrt stopword_lines tfidf tfidf_matrix keywords w_sim w_rating ar).
  set (scores := composite_scores cut_block sqrt stopword_lines tfidf tfidf_matrix keywords w_sim w_rating ar).
  assert (Hscores : length scores = nrows cat).
  { unfold scores, composite_scores.
    rewrite length_map, length_combine. fold sims. lia. }
  erewrite bind_ok.
  2:{ erewrite setitem_run; [reflexivity| apply nth_error_last |].
      rewrite length_map. exact Hscores. }
  rewrite update_last. simpl index. simpl columns.
  erewrite bind_ok by (unfold read; rewrite nth_error_last; reflexivity).
  erewrite bind_ok.
  2:{ unfold lift. erewrite df_select_three; [reflexivity| | |]; simpl columns.
      - rewrite !lookup_assign_other by reflexivity. exact Hcn.
      - rewrite !lookup_assign_other by reflexivity. exact Htn.
      - apply lookup_assign_same. }
  erewrite bind_ok.
  2:{ unfold lift, sort_values_desc, df_get. simpl.
      rewrite cell_keys_present. simpl.
      rewrite nargsort_desc_all_present. reflexivity. }
  eexists. unfold ret. reflexivity.
Qed.

Lemma composite_scores_nth tfidf tfidf_matrix keywords w_sim w_rating ar i :
  length tfidf_matrix = length ar -> (i < length ar)%nat ->
  nth i (composite_scores cut_block sqrt stopword_lines tfidf tfidf_matrix keywords w_sim w_rating ar) 0%Q
  = score_at cut_block sqrt stopword_lines tfidf tfidf_matrix keywords w_sim w_rating ar i.
Proof.
  intros Hlen Hi. unfold composite_scores, score_at.
  set (q := tfidf (cleaned_query cut_block stopword_lines keywords)).
  rewrite (nth_indep _ 0%Q (composite_of w_sim w_rating (cosine sqrt q [], NaN)))
    by (rewrite length_map, length_combine, length_map; lia).
  rewrite map_nth, combine_nth by (rewrite length_map; exact Hlen).
  rewrite (map_nth (cosine sqrt q)). reflexivity.
Qed.

Hypothesis argsort_sorts : sorts argsort.

Lemma ranking_rows top_n cat cn tn scores :
  length scores = nrows cat ->
  ranking argsort top_n cat cn tn scores
  = rows_at cat cn tn (fun i => nth i scores 0%Q)
      (firstn (head_count top_n (nrows cat))
              (descending_positions argsort scores)).
Proof.
  intros Hlen. unfold ranking, rows_at, df_head, df_take, scored_frame, nrows.
  simpl. rewrite length_map, (descending_positions_length _ argsort_sorts).
  rewrite Hlen. unfold nrows. rewrite !firstn_map. do 5 f_equal.
  apply map_ext_in. intros i Hi.
  assert (i < length scores)%nat.
  { apply (descending_positions_bound _ argsort_sorts).
    rewrite <- (firstn_skipn (head_count top_n (length (index cat)))).
    apply in_or_app. left. exact Hi. }
  rewrite (nth_indep _ NaN (Num 0)) by (rewrite length_map; assumption).
  apply (map_nth Num).
Qed.

(** The outcome of a well-formed call, row by row. *)
Lemma recommend_courses_rows h r cat cn tn ar keywords tfidf tfidf_matrix
    top_n w_sim w_rating :
  nth_error h r = Some cat ->
  scorable cut_block stopword_lines cat cn tn ar tfidf tfidf_matrix keywords ->
  exists temp,
    recommend_courses cut_block sqrt argsort (Ok stopword_lines)
      keywords r tfidf tfidf_matrix top_n w_sim w_rating h
    = (h ++ [temp],
       Ok (rows_at cat cn tn
             (score_at cut_block sqrt stopword_lines tfidf tfidf_matrix keywords w_sim w_rating ar)
             (firstn (head_count top_n (nrows cat))
                (descending_positions argsort
                   (composite_scores cut_block sqrt stopword_lines tfidf tfidf_matrix keywords
                      w_sim w_rating ar))))).
Proof.
  intros Hr Hsc.
  destruct (recommend_courses_run _ _ _ _ _ _ _ _ _ top_n w_sim w_rating Hr Hsc)
    as [temp Hrun].
  exists temp. rewrite Hrun. do 2 f_equal.
  destruct Hsc as [Hwf Hcn Htn Har Hnum Hrows Hwidth Hne Hfeat].
  pose proof (lookup_length _ _ _ Hwf Har) as Hlen_ar.
  set (scores := composite_scores cut_block sqrt stopword_lines tfidf tfidf_matrix keywords w_sim w_rating ar).
  assert (Hscores : length scores = nrows cat).
  { unfold scores, composite_scores.
    rewrite length_map, length_combine, length_map. lia. }
  rewrite ranking_rows by exact Hscores.
  unfold rows_at. do 5 f_equal.
  apply map_ext_in. intros i Hi. f_equal.
  apply composite_scores_nth; [lia|].
  rewrite Hlen_ar, <- Hscores.
  apply (descending_positions_bound _ argsort_sorts).
  rewrite <- (firstn_skipn (head_count top_n (nrows cat))).
  apply in_or_app. left. exact Hi.
Qed.

End RecommendRun.

(** ** One run of [handle_cold_start] *)

Lemma nth_error_update {A} (h : list A) r (d d' : A) :
  nth_error h r = Some d -> nth_error (update r d' h) r = Some d'.
Proof.
  revert r; induction h as [|x h IH]; intros [|r] H; simpl in *;
    try discriminate; auto.
Qed.

Lemma col_add_scalar_text cns sep :
  col_add_scalar (map Str cns) (Str sep)
  = Ok (map Str (map (fun c => c ++ sep) cns)).
Proof.
  unfold col_add_scalar. rewrite map_map.
  rewrite (rmap_ok _ (fun a => match a with
                               | Str c => Str (c ++ sep)
                               | _ => NaN
                               end)).
  - rewrite map_map. reflexivity.
  - intros x Hx. apply in_map_iff in Hx as [c [<- _]]. reflexivity.
Qed.

Lemma col_add_text a b :
  col_add (map Str a) (map Str b)
  = Ok (map Str (map (fun ab => fst ab ++ snd ab) (combine a b))).
Proof.
  unfold col_add. revert b.
  induction a as [|x a IH]; intros [|y b]; simpl; try reflexivity.
  rewrite IH. reflexivity.
Qed.

Lemma col_apply_text f g l :
  (forall t, f t = Ok (g t)) ->
  col_apply f (map Str l) = Ok (map Str (map g l)).
Proof.
  intros Hf. unfold col_apply. rewrite map_map.
  rewrite (rmap_ok _ (fun a => match a with
                               | Str t => Str (g t)
                               | _ => NaN
                               end)).
  - rewrite map_map. reflexivity.
  - intros x Hx. apply in_map_iff in Hx as [c [<- _]]. rewrite Hf. reflexivity.
Qed.

Lemma transform_text tfidf l :
  l <> [] ->
  Forall (fun r => (0 < length r)%nat) (map tfidf l) ->
  transform tfidf (map Str l) = Ok (map tfidf l).
Proof.
  intros Hl Hw. unfold transform.
  rewrite (rmap_ok _ (fun a => match a with
                               | Str t => tfidf t
                               | _ => []
                               end)).
  - rewrite map_map. simpl rbind.
    destruct l as [|t l]; [contradiction Hl; reflexivity|].
    simpl in *. inversion Hw as [|? ? H0 _]; subst.
    destruct (tfidf t); [simpl in H0; lia | reflexivity].
  - intros x Hx. apply in_map_iff in Hx as [c [<- _]]. reflexivity.
Qed.

Lemma substitute_texts cns tns sep :
  map (fun ab : text * text => fst ab ++ snd ab)
      (combine (map (fun c => c ++ sep) cns) tns)
  = map (fun names => (fst names ++ sep) ++ snd names) (combine cns tns).
Proof.
  revert tns; induction cns as [|c cns IH]; intros [|t tns]; simpl;
    try reflexivity.
  rewrite IH. reflexivity.
Qed.

Lemma update_update {A} r (a b : A) h :
  update r b (update r a h) = update r b h.
Proof.
  revert r; induction h as [|x h IH]; intros [|r]; simpl; congruence.
Qed.

Lemma zero_rating_scores {A} w_sim w_rating (sim : A -> Q) (l : list A) :
  map (composite_of w_sim w_rating)
      (combine (map sim l) (repeat (Num 0) (length l)))
  = map (fun x => (w_sim * sim x + w_rating * 0)%Q) l.
Proof. induction l as [|x l IH]; simpl; [reflexivity|]. rewrite IH. reflexivity. Qed.

Section ColdStartRun.

Variable sqrt : Q -> Q.

Lemma handle_cold_start_run h r df cns tns tfidf f cleaned keywords_tfidf
    w_sim w_rating :
  nth_error h r = Some df ->
  wf_df df = true ->
  lookup "course_name" (columns df) = Some (map Str cns) ->
  lookup "teacher_name" (columns df) = Some (map Str tns) ->
  (forall t, f t = Ok (cleaned t)) ->
  (forall t, length (tfidf t) = length keywords_tfidf) ->
  (0 < nrows df)%nat ->
  (0 < length keywords_tfidf)%nat ->
  let result_frame :=
    cold_start_frame df cns tns
      (fun names => cosine sqrt keywords_tfidf
                      (tfidf (cleaned (substitute_text names))))
      w_sim w_rating in
  handle_cold_start sqrt r tfidf f keywords_tfidf w_sim w_rating h
  = (update r (cold_start_input_after df cns tns cleaned) h ++ [result_frame],
     Ok result_frame).
Proof.
  intros Hr Hwf Hcn Htn Hf Hdim Hne Hfeat result_frame.
  pose proof (lookup_length _ _ _ Hwf Hcn) as Hlen_cn.
  pose proof (lookup_length _ _ _ Hwf Htn) as Hlen_tn.
  rewrite length_map in Hlen_cn, Hlen_tn.
  set (subs := map substitute_text (combine cns tns)).
  assert (Hsubs : length subs = nrows df)
    by (unfold subs; rewrite length_map, length_combine; lia).
  assert (Hsubs_ne : map cleaned subs <> [])
    by (intros E; apply (f_equal (@length _)) in E;
        rewrite length_map, Hsubs in E; simpl in E; lia).
  assert (Hwide : Forall (fun row => (0 < length row)%nat)
                    (map tfidf (map cleaned subs)))
    by (apply Forall_forall; intros row Hrow;
        apply in_map_iff in Hrow as [t [<- _]]; rewrite Hdim; exact Hfeat).
  unfold handle_cold_start.
  erewrite bind_ok by (eapply getitem_run; eassumption).
  erewrite bind_ok by (unfold lift; rewrite col_add_scalar_text; reflexivity).
  erewrite bind_ok by (eapply getitem_run; eassumption).
  erewrite bind_ok.
  2:{ unfold lift. rewrite col_add_text, substitute_texts. reflexivity. }
  fold subs.
  erewrite bind_ok.
  2:{ erewrite setitem_run; [reflexivity | exact Hr |].
      rewrite length_map. exact Hsubs. }
  set (df1 := mkDF (index df) (assign "替代文本" (map Str subs) (columns df))).
  assert (Hr1 : nth_error (update r df1 h) r = Some df1)
    by (eapply nth_error_update; exact Hr).
  erewrite bind_ok.
  2:{ eapply getitem_run; [exact Hr1 | apply lookup_assign_same]. }
  erewrite bind_ok
    by (unfold lift; rewrite (col_apply_text _ _ _ Hf); reflexivity).
  erewrite bind_ok.
  2:{ erewrite setitem_run; [reflexivity | exact Hr1 |].
      rewrite !length_map. exact Hsubs. }
  change (mkDF (index df1) (assign "cleaned_替代文本" (map Str (map cleaned subs)) (columns df1)))
    with (cold_start_input_after df cns tns cleaned).
  set (df2 := cold_start_input_after df cns tns cleaned).
  rewrite update_update.
  assert (Hr2 : nth_error (update r df2 h) r = Some df2)
    by (eapply nth_error_update; exact Hr).
  erewrite bind_ok.
  2:{ eapply getitem_run; [exact Hr2 | apply lookup_assign_same]. }
  erewrite bind_ok
    by (unfold lift; rewrite transform_text;
        [reflexivity | exact Hsubs_ne | exact Hwide]).
  erewrite bind_ok.
  2:{ unfold lift. rewrite cosine_similarity_ok; [reflexivity | exact Hfeat | |].
      - rewrite !length_map, length_combine. lia.
      - apply Forall_forall. intros row Hrow.
        apply in_map_iff in Hrow as [t [<- _]]. apply Hdim. }
  erewrite bind_ok by (unfold read; rewrite Hr2; reflexivity).
  erewrite bind_ok.
  2:{ unfold lift. erewrite df_select_two; [reflexivity| |].
      - simpl. rewrite !lookup_assign_other by reflexivity. exact Hcn.
      - simpl. rewrite !lookup_assign_other by reflexivity. exact Htn. }
  set (h2 := update r df2 h).
  assert (Hlen2 : length h2 = length h) by apply update_length.
  erewrite bind_ok by reflexivity.
  rewrite Hlen2, <- Hlen2.
  erewrite bind_ok.
  2:{ erewrite setitem_run; [reflexivity | apply nth_error_last |].
      rewrite !length_map, length_combine. unfold nrows in *. simpl. lia. }
  rewrite update_last. simpl index. simpl columns.
  erewrite bind_ok.
  2:{ unfold setitem_scalar, bind, read, lift, write.
      rewrite nth_error_last, df_set_ok by apply repeat_length.
      rewrite update_last. reflexivity. }
  simpl index. simpl columns.
  erewrite bind_ok.
  2:{ eapply getitem_run; [apply nth_error_last | reflexivity]. }
  erewrite bind_ok by (unfold lift; rewrite col_scale_num; reflexivity).
  erewrite bind_ok.
  2:{ eapply getitem_run; [apply nth_error_last | reflexivity]. }
  erewrite bind_ok.
  2:{ unfold lift.
      rewrite <- (map_repeat 0%Q _ Num), col_scale_num.
      reflexivity. }
  erewrite bind_ok.
  2:{ unfold lift.
      rewrite <- (map_repeat (Num 0) _ rating_of).
      rewrite col_add_weighted; [reflexivity|].
      rewrite repeat_length, !length_map, length_combine.
      unfold nrows in *. simpl. lia. }
  erewrite bind_ok.
  2:{ erewrite setitem_run; [reflexivity | apply nth_error_last |].
      rewrite !length_map, length_combine, repeat_length, !length_map,
        length_combine.
      unfold nrows in *. simpl. lia. }
  rewrite update_last. unfold read. rewrite nth_error_last.
  match goal with
  | |- (_ ++ [?X], _) = _ => assert (E : X = result_frame)
  end; [|rewrite E; reflexivity].
  unfold result_frame, cold_start_frame. simpl.
  rewrite !map_repeat, !map_map. unfold nrows. simpl.
  do 5 f_equal.
  replace (length (index df)) with (length (combine cns tns))
    by (unfold nrows in *; rewrite length_combine; lia).
  f_equal.
  rewrite <- (map_map (composite_of w_sim w_rating) Num).
  rewrite zero_rating_scores, map_map. reflexivity.
Qed.

End ColdStartRun.

(** ** Cosine similarity of a vector without length *)

Lemma dot_nonneg x : (0 <= dot x x)%Q.
Proof.
  induction x as [|a x IH]; simpl; [apply Qle_refl|].
  assert (0 <= a * a)%Q by nra. lra.
Qed.

Lemma sumsq_zero x : (sumsq x == 0)%Q -> all_zero x.
Proof.
  unfold sumsq, all_zero. induction x as [|a x IH]; simpl; intros H.
  - constructor.
  - pose proof (dot_nonneg x) as Hx.
    assert (Ha : (0 <= a * a)%Q) by nra.
    constructor.
    + assert (Hsq : (a * a == 0)%Q) by lra. nra.
    + apply IH. lra.
Qed.

Lemma dot_zero_l x y : all_zero x -> (dot x y == 0)%Q.
Proof.
  intros H. revert y. induction H as [|a x Ha _ IH]; intros y; simpl.
  - reflexivity.
  - destruct y as [|b y]; [reflexivity|]. rewrite IH, Ha. ring.
Qed.

Lemma dot_zero_r x y : all_zero y -> (dot x y == 0)%Q.
Proof.
  intros H. revert x. induction H as [|b y Hb _ IH]; intros x; simpl.
  - destruct x; reflexivity.
  - destruct x as [|a x]; [reflexivity|]. simpl. rewrite IH, Hb. ring.
Qed.

Lemma scale_row_zero sqrt x : all_zero x -> all_zero (scale_row sqrt x).
Proof.
  unfold scale_row, all_zero. generalize (handle_zeros (row_norm sqrt x)).
  intros d H. induction H as [|a x Ha _ IH]; simpl; constructor; auto.
  unfold Qdiv. rewrite Ha. ring.
Qed.

Lemma handle_zeros_nonzero n : ~ (handle_zeros n == 0)%Q.
Proof.
  unfold handle_zeros. destruct (Qeq_bool n 0) eqn:E.
  - intros H. discriminate H.
  - intros H. apply Qeq_bool_iff in H. congruence.
Qed.

Lemma cosine_zero sqrt x y :
  (sumsq x == 0)%Q \/ (sumsq y == 0)%Q -> (cosine sqrt x y == 0)%Q.
Proof.
  unfold cosine. intros [H|H].
  - apply dot_zero_l, scale_row_zero, sumsq_zero, H.
  - apply dot_zero_r, scale_row_zero, sumsq_zero, H.
Qed.

(** ** The normalizer *)

Lemma lower_char_allowed c : allowed c = true -> allowed (lower_char c) = true.
Proof.
  unfold lower_char. destruct (is_upper c) eqn:E; [|auto]. intros _.
  unfold is_upper, between in E. apply andb_true_iff in E as [E1 E2].
  apply Z.leb_le in E1, E2.
  unfold allowed, is_latin, is_lower, between.
  replace (97 <=? c + 32) with true by (symmetry; apply Z.leb_le; lia).
  replace (c + 32 <=? 122) with true by (symmetry; apply Z.leb_le; lia).
  simpl. rewrite orb_true_r. reflexivity.
Qed.

Lemma lower_char_idempotent c : lower_char (lower_char c) = lower_char c.
Proof.
  unfold lower_char. destruct (is_upper c) eqn:E; [|rewrite E; reflexivity].
  unfold is_upper, between in *. apply andb_true_iff in E as [E1 E2].
  apply Z.leb_le in E1, E2.
  replace (c + 32 <=? 90) with false by (symmetry; apply Z.leb_gt; lia).
  rewrite andb_false_r. reflexivity.
Qed.

Lemma filter_all_true {A} (p : A -> bool) l :
  Forall (fun x => p x = true) l -> filter p l = l.
Proof.
  induction 1 as [|x l Hx _ IH]; simpl; [reflexivity|].
  rewrite Hx, IH. reflexivity.
Qed.

Lemma strip_lower_idempotent t :
  lower (strip_disallowed (lower (strip_disallowed t)))
  = lower (strip_disallowed t).
Proof.
  unfold lower, strip_disallowed.
  rewrite filter_all_true.
  - rewrite map_map. apply map_ext. apply lower_char_idempotent.
  - apply Forall_map, Forall_forall. intros c Hc.
    apply filter_In in Hc as [_ Hc]. apply lower_char_allowed. exact Hc.
Qed.

Lemma lstrip_head t c r : lstrip t = c :: r -> is_space c = false.
Proof.
  induction t as [|x t IH]; simpl; [discriminate|].
  destruct (is_space x) eqn:E; [exact IH|].
  intros H. injection H as <- _. exact E.
Qed.

(** No line of the stopword file strips to a whitespace character, so
    a whitespace token is never filtered out. *)
Lemma whitespace_never_stopword lines c :
  is_space c = true -> is_stopword (map strip lines) [c] = false.
Proof.
  intros Hc. unfold is_stopword.
  destruct (existsb _ _) eqn:E; [|reflexivity]. exfalso.
  apply existsb_exists in E as [w [Hw Heq]].
  apply text_eqb_eq in Heq. subst w.
  apply in_map_iff in Hw as [line [Hline _]].
  unfold strip in Hline.
  assert (H : lstrip (rev (lstrip line)) = [c]).
  { rewrite <- (rev_involutive (lstrip (rev (lstrip line)))), Hline.
    reflexivity. }
  apply lstrip_head in H. congruence.
Qed.

(** A block of one character can only be cut into itself. *)
Lemma cut_of_single_character cut_block c :
  segments cut_block -> cut_block [c] = [[c]].
Proof.
  intros Hseg. destruct (Hseg [c]) as [Hcat Hne].
  destruct (cut_block [c]) as [|w l]; [discriminate|].
  inversion Hne as [|? ? Hw Hl]; subst.
  destruct w as [|x w]; [congruence|].
  simpl in Hcat. injection Hcat as -> Hrest.
  apply app_eq_nil in Hrest as [-> Hl'].
  destruct l as [|w' l]; [reflexivity|].
  inversion Hl as [|? ? Hw' _]; subst.
  destruct w' as [|y w']; [congruence|discriminate].
Qed.

(** Two words separated by a space get three spaces between them, and
    seven on a second pass, whatever the dictionary and the stopword
    file, as long as neither word is a stopword. *)
Lemma clean_text_two_words cut_block lines :
  segments cut_block ->
  is_stopword (map strip lines) (str "a") = false ->
  is_stopword (map strip lines) (str "b") = false ->
  clean_text cut_block (Ok lines) (str "a b") = Ok (str "a   b")
  /\ clean_text cut_block (Ok lines) (str "a   b") = Ok (str "a       b").
Proof.
  intros Hseg Sa Sb.
  pose proof (cut_of_single_character cut_block 97 Hseg) as Ha.
  pose proof (cut_of_single_character cut_block 98 Hseg) as Hb.
  pose proof (whitespace_never_stopword lines 32 eq_refl) as Ss.
  change (str "a") with [97] in *. change (str "b") with [98] in *.
  assert (C1 : lcut cut_block (lower (strip_disallowed (str "a b")))
               = [[97]; [32]; [98]]).
  { change (lcut cut_block (lower (strip_disallowed (str "a b"))))
      with (cut_block [97] ++ [32] :: cut_block [98]).
    rewrite Ha, Hb. reflexivity. }
  assert (C2 : lcut cut_block (lower (strip_disallowed (str "a   b")))
               = [[97]; [32]; [32]; [32]; [98]]).
  { change (lcut cut_block (lower (strip_disallowed (str "a   b"))))
      with (cut_block [97] ++ [32] :: [32] :: [32] :: cut_block [98]).
    rewrite Ha, Hb. reflexivity. }
  unfold clean_text, read_stopwords, rbind.
  rewrite C1, C2. simpl filter. rewrite Sa, Sb, Ss. simpl. split; reflexivity.
Qed.

(** ** Loading the resources *)

Lemma load_resources_total tfidf_pkl cat_pkl h :
  exists h' log loaded,
    load_resources tfidf_pkl cat_pkl h = (h', Ok (log, loaded)).
Proof.
  unfold load_resources, try_except.
  match goal with |- context [match ?m h with _ => _ end] => destruct (m h) as [h1 [[log loaded]|e]] end.
  - eauto.
  - unfold ret. eauto.
Qed.

(** ** What a computation leaves untouched *)

Lemma frames_ret {A} n (a : A) : frames n (ret a).
Proof. intros h _. simpl. auto. Qed.

Lemma frames_lift {A} n (r : result A) : frames n (lift r).
Proof. intros h _. simpl. auto. Qed.

Lemma frames_read n r : frames n (read r).
Proof. intros h _. unfold read. destruct (nth_error h r); simpl; auto. Qed.

Lemma frames_alloc n df : frames n (alloc df).
Proof.
  intros h Hn. unfold alloc. simpl. split.
  - rewrite firstn_app. replace (n - length h)%nat with 0%nat by lia.
    simpl. apply app_nil_r.
  - rewrite length_app. simpl. lia.
Qed.

Lemma frames_write n r df : (n <= r)%nat -> frames n (write r df).
Proof.
  intros Hr h _. unfold write. simpl. split.
  - apply update_above. exact Hr.
  - rewrite update_length. lia.
Qed.

(** Sequencing, when the value passed on satisfies [P] (for a
    reference: that it lies beyond the frame). *)
Lemma frames_bind {A B} n (P : A -> Prop) (m : M A) (k : A -> M B) :
  frames n m ->
  (forall h h' a, (n <= length h)%nat -> m h = (h', Ok a) -> P a) ->
  (forall a, P a -> frames n (k a)) ->
  frames n (bind m k).
Proof.
  intros Hm HP Hk h Hn. unfold bind.
  destruct (Hm h Hn) as [H1 H2].
  destruct (m h) as [h' [a|e]] eqn:E; simpl in *; [|auto].
  destruct (Hk a (HP h h' a Hn E) h' ltac:(lia)) as [H3 H4].
  split; [congruence | lia].
Qed.

Lemma frames_bind_any {A B} n (m : M A) (k : A -> M B) :
  frames n m -> (forall a, frames n (k a)) -> frames n (bind m k).
Proof.
  intros Hm Hk. apply (frames_bind n (fun _ => True)); auto.
Qed.

Lemma frames_getitem n r name : frames n (getitem r name).
Proof.
  apply frames_bind_any; [apply frames_read | intros; apply frames_lift].
Qed.

Lemma frames_setitem n r name c : (n <= r)%nat -> frames n (setitem r name c).
Proof.
  intros Hr. apply frames_bind_any; [apply frames_read | intros df].
  apply frames_bind_any; [apply frames_lift | intros df'].
  apply frames_write. exact Hr.
Qed.

Lemma frames_copy n r : frames n (copy r).
Proof.
  apply frames_bind_any; [apply frames_read | intros; apply frames_alloc].
Qed.

Lemma copy_fresh n r h h' a :
  (n <= length h)%nat -> copy r h = (h', Ok a) -> (n <= a)%nat.
Proof.
  unfold copy, bind, read, alloc. intros Hn.
  destruct (nth_error h r); intros E; inversion E. lia.
Qed.

(** [recommend_courses] writes to its own copy only: every object the
    caller had before the call, the catalog included, is unchanged
    after it, whether the call returns or raises. *)
Lemma recommend_courses_frame cut_block sqrt argsort stopwords_txt
    keywords r tfidf tfidf_matrix top_n w_sim w_rating h :
  firstn (length h)
    (fst (recommend_courses cut_block sqrt argsort stopwords_txt keywords r
            tfidf tfidf_matrix top_n w_sim w_rating h))
  = h.
Proof.
  assert (F : frames (length h)
                (recommend_courses cut_block sqrt argsort stopwords_txt
                   keywords r tfidf tfidf_matrix top_n w_sim w_rating));
    [|destruct (F h (le_n _)) as [F1 _]; rewrite F1; apply firstn_all].
  unfold recommend_courses.
  apply frames_bind_any; [apply frames_lift | intros cleaned].
  apply frames_bind_any; [apply frames_lift | intros sims].
  apply (frames_bind _ (fun a => (length h <= a)%nat));
    [apply frames_copy | intros; eapply copy_fresh; eassumption |].
  intros temp Htemp.
  repeat (apply frames_bind_any;
          [first [ apply frames_setitem; exact Htemp
                 | apply frames_getitem
                 | apply frames_lift
                 | apply frames_read ]
          | intros ]).
  apply frames_ret.
Qed.

(* ================================================================= *)
(** * The statements of the specification *)

Lemma demo_scorable keywords :
  scorable whole_block demo_stopword_lines demo_catalog
    [Str (str "Calculus I"); Str (str "Organic Chem")]
    [Str (str "Dr. Lee"); Str (str "Dr. Shah")]
    [Num (9 # 2); Num 3]
    (bag_of_words demo_vocabulary) demo_matrix keywords.
Proof.
  constructor; try reflexivity.
  - repeat constructor.
  - unfold demo_matrix, bag_of_words. repeat constructor.
  - unfold nrows. simpl. lia.
  - unfold bag_of_words. rewrite length_map. simpl. lia.
Qed.

Lemma recommend_courses_ranked cut_block sqrt argsort stopword_lines
    h r cat cn tn ar keywords tfidf tfidf_matrix top_n w_sim w_rating :
  sorts argsort ->
  nth_error h r = Some cat ->
  scorable cut_block stopword_lines cat cn tn ar tfidf tfidf_matrix keywords ->
  exists temp scores,
    recommend_courses cut_block sqrt argsort (Ok stopword_lines)
      keywords r tfidf tfidf_matrix top_n w_sim w_rating h
    = (h ++ [temp],
       Ok (rows_at cat cn tn (fun i => nth i scores 0%Q)
             (firstn (head_count top_n (nrows cat))
                     (descending_positions argsort scores))))
    /\ length scores = nrows cat.
Proof.
  intros Hsorts Hr Hsc.
  destruct (recommend_courses_run cut_block sqrt argsort stopword_lines
              _ _ _ _ _ _ _ _ _ top_n w_sim w_rating Hr Hsc) as [temp Hrun].
  exists temp. eexists. rewrite Hrun.
  destruct Hsc as [Hwf Hcn Htn Har Hnum Hrows Hwidth Hne Hfeat].
  pose proof (lookup_length _ _ _ Hwf Har) as Hlen_ar.
  assert (Hscores : length (composite_scores cut_block sqrt stopword_lines
                              tfidf tfidf_matrix keywords w_sim w_rating ar)
                    = nrows cat).
  { unfold composite_scores.
    rewrite length_map, length_combine, length_map. lia. }
  split; [|exact Hscores].
  rewrite (ranking_rows argsort Hsorts) by exact Hscores. reflexivity.
Qed.

Lemma rows_at_composite cat cn tn score positions :
  lookup "composite_score" (columns (rows_at cat cn tn score positions))
  = Some (map Num (map score positions)).
Proof. simpl. rewrite map_map. reflexivity. Qed.

Lemma rows_at_nrows cat cn tn score positions :
  nrows (rows_at cat cn tn score positions) = length positions.
Proof. unfold nrows. simpl. apply length_map. Qed.

Lemma ranked_scores_sorted argsort scores k :
  sorts argsort ->
  StronglySorted (fun a b => (b <= a)%Q)
    (map (fun i => nth i scores 0%Q)
         (firstn k (descending_positions argsort scores))).
Proof.
  intros Hsorts. apply StronglySorted_map, StronglySorted_firstn.
  apply descending_positions_sorted. exact Hsorts.
Qed.

Lemma StronglySorted_nth {A} (R : A -> A -> Prop) l d p p' :
  StronglySorted R l -> (p < p')%nat -> (p' < length l)%nat ->
  R (nth p l d) (nth p' l d).
Proof.
  intros H. revert p p'.
  induction H as [|a l Hl IH Ha]; intros p p' Hlt Hlen; simpl in Hlen; [lia|].
  destruct p' as [|p']; [lia|]. destruct p as [|p]; simpl.
  - rewrite Forall_forall in Ha. apply Ha. apply nth_In. lia.
  - apply IH; lia.
Qed.

Lemma scorable_lengths cut_block stopword_lines cat cn tn ar tfidf
    tfidf_matrix keywords :
  scorable cut_block stopword_lines cat cn tn ar tfidf tfidf_matrix keywords ->
  length ar = nrows cat /\ length tfidf_matrix = length ar.
Proof.
  intros [Hwf Hcn Htn Har Hnum Hrows Hwidth Hne Hfeat].
  pose proof (lookup_length _ _ _ Hwf Har). split; lia.
Qed.

Lemma composite_scores_length cut_block sqrt stopword_lines cat cn tn ar
    tfidf tfidf_matrix keywords w_sim w_rating :
  scorable cut_block stopword_lines cat cn tn ar tfidf tfidf_matrix keywords ->
  length (composite_scores cut_block sqrt stopword_lines tfidf tfidf_matrix
            keywords w_sim w_rating ar)
  = nrows cat.
Proof.
  intros Hsc. destruct (scorable_lengths _ _ _ _ _ _ _ _ _ Hsc) as [H1 H2].
  unfold composite_scores. rewrite length_map, length_combine, length_map. lia.
Qed.

(** The ranking of a scorable catalog: the catalog positions in an
    order of never increasing score, of which every call returns a
    prefix. *)
Lemma recommend_courses_positions cut_block sqrt argsort stopword_lines
    h r cat cn tn ar keywords tfidf tfidf_matrix w_sim w_rating :
  sorts argsort ->
  nth_error h r = Some cat ->
  scorable cut_block stopword_lines cat cn tn ar tfidf tfidf_matrix keywords ->
  let score :=
    score_at cut_block sqrt stopword_lines tfidf tfidf_matrix keywords
      w_sim w_rating ar in
  exists positions,
    Permutation positions (seq 0 (nrows cat))
    /\ StronglySorted (fun i j => (score j <= score i)%Q) positions
    /\ forall top_n,
       exists temp,
         recommend_courses cut_block sqrt argsort (Ok stopword_lines)
           keywords r tfidf tfidf_matrix top_n w_sim w_rating h
         = (h ++ [temp],
            Ok (rows_at cat cn tn score
                  (firstn (head_count top_n (nrows cat)) positions))).
Proof.
  intros Hsorts Hr Hsc score.
  set (scores := composite_scores cut_block sqrt stopword_lines tfidf
                   tfidf_matrix keywords w_sim w_rating ar).
  pose proof (composite_scores_length cut_block sqrt _ _ _ _ _ _ _ _
                w_sim w_rating Hsc) as Hlen. fold scores in Hlen.
  destruct (scorable_lengths _ _ _ _ _ _ _ _ _ Hsc) as [Har Hm].
  exists (descending_positions argsort scores).
  split; [|split].
  - rewrite <- Hlen. apply descending_positions_perm. exact Hsorts.
  - apply (StronglySorted_impl_in
             (fun a b => (nth b scores 0 <= nth a scores 0)%Q));
      [|apply descending_positions_sorted; exact Hsorts].
    intros i j Hi Hj Hij.
    apply (descending_positions_bound _ Hsorts) in Hi, Hj.
    unfold score. unfold scores in Hij.
    rewrite !(composite_scores_nth cut_block sqrt stopword_lines) in Hij
      by (try exact Hm; lia).
    exact Hij.
  - intros top_n.
    exact (recommend_courses_rows cut_block sqrt argsort stopword_lines
             Hsorts _ _ _ _ _ _ _ _ _ top_n w_sim w_rating Hr Hsc).
Qed.


(** ** C1: the composite score *)

(** C1, as stated, fails: the rating enters the score as it is, not
    normalized to a scale.  With the default weights and an empty
    query, the row rated 4.5 of the demo catalog scores 1.35 and the
    row rated 3 scores 0.9; the first lies outside [0, 1]. *)
Lemma composite_score_above_one :
  exists res,
    snd (demo_recommend stable_argsort (str "") default_top_n) = Ok res
    /\ composite_column res = [27 # 20; 9 # 10]
    /\ Exists (fun q => 1 < q)%Q (composite_column res).
Proof.
  eexists. split; [vm_compute; reflexivity|].
  split; [vm_compute; reflexivity|].
  apply Exists_cons_hd. vm_compute. reflexivity.
Qed.

(** C1, amended: every row returned by a well-formed call of
    [recommend_courses] is a catalog row [i] with the score
    [w_sim * similarity_i + w_rating * rating_i], where [rating_i] is
    the average rating as stored (0 when missing); [final_recommend]
    uses the weights 0.7 and 0.3.  For non-negative weights, a
    similarity in [0, 1] and a rating in [0, R], the score lies in
    [0, w_sim + w_rating * R]. *)
Theorem composite_score_formula cut_block sqrt argsort stopword_lines
    h r cat cn tn ar keywords tfidf tfidf_matrix top_n w_sim w_rating :
  sorts argsort ->
  nth_error h r = Some cat ->
  scorable cut_block stopword_lines cat cn tn ar tfidf tfidf_matrix keywords ->
  let similarity i :=
    cosine sqrt (tfidf (cleaned_query cut_block stopword_lines keywords))
           (nth i tfidf_matrix []) in
  let score i := (w_sim * similarity i + w_rating * rating_of (nth i ar NaN))%Q in
  (exists temp positions,
      recommend_courses cut_block sqrt argsort (Ok stopword_lines)
        keywords r tfidf tfidf_matrix top_n w_sim w_rating h
      = (h ++ [temp], Ok (rows_at cat cn tn score positions))
      /\ Forall (fun i => (i < nrows cat)%nat) positions)
  /\ final_recommend cut_block sqrt argsort (Ok stopword_lines)
       keywords r tfidf tfidf_matrix top_n
     = recommend_courses cut_block sqrt argsort (Ok stopword_lines)
         keywords r tfidf tfidf_matrix top_n (7 # 10) (3 # 10)
  /\ (forall i R,
        (0 <= w_sim)%Q -> (0 <= w_rating)%Q ->
        (0 <= similarity i <= 1)%Q ->
        (0 <= rating_of (nth i ar NaN) <= R)%Q ->
        (0 <= score i <= w_sim + w_rating * R)%Q).
Proof.
  intros Hsorts Hr Hsc similarity score. split; [|split].
  - destruct (recommend_courses_rows cut_block sqrt argsort stopword_lines
                Hsorts _ _ _ _ _ _ _ _ _ top_n w_sim w_rating Hr Hsc)
      as [temp Hrun].
    exists temp. eexists. split; [exact Hrun|].
    apply Forall_forall. intros i Hi.
    apply in_firstn in Hi.
    apply (descending_positions_bound _ Hsorts) in Hi.
    destruct Hsc as [Hwf Hcn Htn Har Hnum Hrows Hwidth Hne Hfeat].
    pose proof (lookup_length _ _ _ Hwf Har) as Hlen_ar.
    unfold composite_scores in Hi.
    rewrite length_map, length_combine, length_map in Hi. lia.
  - reflexivity.
  - intros i R Hs Hw [Hs0 Hs1] [Hr0 Hr1]. unfold score. split; nra.
Qed.

Lemma composite_score_formula_witness :
  exists temp positions,
    recommend_courses whole_block fixed_sqrt stable_argsort
      (Ok demo_stopword_lines) (str "clear explanations") 0%nat
      (bag_of_words demo_vocabulary) demo_matrix 5 (7 # 10) (3 # 10)
      [demo_catalog]
    = ([demo_catalog] ++ [temp],
       Ok (rows_at demo_catalog
             [Str (str "Calculus I"); Str (str "Organic Chem")]
             [Str (str "Dr. Lee"); Str (str "Dr. Shah")]
             (fun i =>
                (7 # 10)
                * cosine fixed_sqrt
                    (bag_of_words demo_vocabulary
                       (cleaned_query whole_block demo_stopword_lines
                          (str "clear explanations")))
                    (nth i demo_matrix [])
                + (3 # 10) * rating_of (nth i [Num (9 # 2); Num 3] NaN))%Q
             positions))
    /\ Forall (fun i => (i < nrows demo_catalog)%nat) positions.
Proof.
  exact (proj1 (composite_score_formula whole_block fixed_sqrt stable_argsort
                  demo_stopword_lines [demo_catalog] 0%nat demo_catalog _ _ _
                  (str "clear explanations") (bag_of_words demo_vocabulary)
                  demo_matrix 5 (7 # 10) (3 # 10)
                  stable_argsort_sorts eq_refl
                  (demo_scorable (str "clear explanations")))).
Defined.

(** ** C2: cold-start entries *)

Lemma cold_start_frame_ext df cns tns (f g : text * text -> Q) w_sim w_rating :
  (forall names, f names = g names) ->
  cold_start_frame df cns tns f w_sim w_rating
  = cold_start_frame df cns tns g w_sim w_rating.
Proof.
  intros H. unfold cold_start_frame.
  rewrite (map_ext f g H).
  rewrite (map_ext (fun names => (w_sim * f names + w_rating * 0)%Q)
                   (fun names => (w_sim * g names + w_rating * 0)%Q)).
  - reflexivity.
  - intros names. rewrite H. reflexivity.
Qed.

(** C2, as stated, fails: the cleaning function and the vectorizer
    are arguments of [handle_cold_start], so the pipeline and the
    vocabulary are those of the main corpus only when the caller
    passes them.  On the demo entry, scored for the query "seminar"
    with the default weights: with [clean_text] and the demo
    vocabulary the entry scores 0.7; with a cleaning function that
    returns its argument as it is, "Seminar" keeps its capital and
    the entry scores 0; with a vocabulary that has "park" where the
    demo vocabulary has "seminar", the same call scores 0.7 for the
    teacher's name. *)
Lemma cold_start_pipeline_is_the_callers :
  option_map composite_column
    (match snd (handle_cold_start fixed_sqrt 0%nat
                  (bag_of_words demo_vocabulary)
                  (clean_text whole_block demo_stopwords)
                  (bag_of_words demo_vocabulary (str "seminar"))
                  default_similarity_weight default_rating_weight
                  [demo_new_courses])
     with Ok res => Some res | Err _ => None end)
  = Some [7 # 10]
  /\ option_map composite_column
       (match snd (handle_cold_start fixed_sqrt 0%nat
                     (bag_of_words demo_vocabulary)
                     (fun t => Ok t)
                     (bag_of_words demo_vocabulary (str "seminar"))
                     default_similarity_weight default_rating_weight
                     [demo_new_courses])
        with Ok res => Some res | Err _ => None end)
     = Some [0%Q]
  /\ option_map composite_column
       (match snd (handle_cold_start fixed_sqrt 0%nat
                     (bag_of_words
                        [str "clear"; str "explanations"; str "patient";
                         str "difficult"; str "workload"; str "park"])
                     (clean_text whole_block demo_stopwords)
                     (bag_of_words demo_vocabulary (str "seminar"))
                     default_similarity_weight default_rating_weight
                     [demo_new_courses])
        with Ok res => Some res | Err _ => None end)
     = Some [7 # 10].
Proof. vm_compute. repeat split; reflexivity. Qed.

(** C2, amended: for a frame with at least one entry, given by course
    and teacher names, [handle_cold_start] builds the text
    [course_name + " " + teacher_name], cleans it with the cleaning
    function [f] and vectorizes it with the vectorizer [tfidf] it was
    passed, and scores it with a rating of 0 whatever other columns, a
    rating among them, the input frame has: the score is
    [w_sim * similarity + w_rating * 0]. *)
Theorem cold_start_scoring sqrt h r df cns tns tfidf f cleaned
    keywords_tfidf w_sim w_rating :
  nth_error h r = Some df ->
  wf_df df = true ->
  lookup "course_name" (columns df) = Some (map Str cns) ->
  lookup "teacher_name" (columns df) = Some (map Str tns) ->
  (forall t, f t = Ok (cleaned t)) ->
  (forall t, length (tfidf t) = length keywords_tfidf) ->
  (0 < nrows df)%nat ->
  (0 < length keywords_tfidf)%nat ->
  let similarity (names : text * text) :=
    cosine sqrt keywords_tfidf
      (tfidf (cleaned (fst names ++ str " " ++ snd names))) in
  exists h' res,
    handle_cold_start sqrt r tfidf f keywords_tfidf w_sim w_rating h
    = (h', Ok res)
    /\ res = cold_start_frame df cns tns similarity w_sim w_rating
    /\ lookup "similarity" (columns res)
       = Some (map Num (map similarity (combine cns tns)))
    /\ lookup "avg_rating" (columns res) = Some (repeat (Num 0) (nrows df))
    /\ lookup "composite_score" (columns res)
       = Some (map Num (map (fun names =>
                               (w_sim * similarity names + w_rating * 0)%Q)
                            (combine cns tns)))
    /\ Forall (fun names =>
                 (w_sim * similarity names + w_rating * 0
                  == w_sim * similarity names)%Q)
              (combine cns tns).
Proof.
  intros Hr Hwf Hcn Htn Hf Hdim Hne Hfeat similarity.
  pose proof (handle_cold_start_run sqrt h r df cns tns tfidf f cleaned
                keywords_tfidf w_sim w_rating Hr Hwf Hcn Htn Hf Hdim
                Hne Hfeat) as Hrun.
  cbv zeta in Hrun.
  rewrite (cold_start_frame_ext df cns tns _ similarity) in Hrun.
  2:{ intros names. unfold similarity, substitute_text.
      rewrite <- app_assoc. reflexivity. }
  do 2 eexists. split; [exact Hrun|].
  split; [reflexivity|]. split; [reflexivity|]. split; [reflexivity|].
  split; [reflexivity|].
  apply Forall_forall. intros names _. ring.
Qed.

Lemma cold_start_scoring_witness :
  let similarity (names : text * text) :=
    cosine fixed_sqrt (bag_of_words demo_vocabulary (str "seminar"))
      (bag_of_words demo_vocabulary
         (cleaned_query whole_block demo_stopword_lines
            (fst names ++ str " " ++ snd names))) in
  exists h' res,
    handle_cold_start fixed_sqrt 0%nat (bag_of_words demo_vocabulary)
      (clean_text whole_block (Ok demo_stopword_lines))
      (bag_of_words demo_vocabulary (str "seminar")) (7 # 10) (3 # 10)
      [demo_new_courses]
    = (h', Ok res)
    /\ res = cold_start_frame demo_new_courses
               [str "New Seminar"] [str "Dr. Park"] similarity
               (7 # 10) (3 # 10)
    /\ lookup "similarity" (columns res)
       = Some (map Num (map similarity
                          (combine [str "New Seminar"] [str "Dr. Park"])))
    /\ lookup "avg_rating" (columns res)
       = Some (repeat (Num 0) (nrows demo_new_courses))
    /\ lookup "composite_score" (columns res)
       = Some (map Num (map (fun names =>
                               ((7 # 10) * similarity names + (3 # 10) * 0)%Q)
                            (combine [str "New Seminar"] [str "Dr. Park"])))
    /\ Forall (fun names =>
                 ((7 # 10) * similarity names + (3 # 10) * 0
                  == (7 # 10) * similarity names)%Q)
              (combine [str "New Seminar"] [str "Dr. Park"]).
Proof.
  apply (cold_start_scoring fixed_sqrt [demo_new_courses] 0%nat
           demo_new_courses [str "New Seminar"] [str "Dr. Park"]
           (bag_of_words demo_vocabulary)
           (clean_text whole_block (Ok demo_stopword_lines))
           (cleaned_query whole_block demo_stopword_lines)
           (bag_of_words demo_vocabulary (str "seminar")) (7 # 10) (3 # 10)).
  - reflexivity.
  - reflexivity.
  - reflexivity.
  - reflexivity.
  - exact (clean_text_ok whole_block demo_stopword_lines).
  - intros t. unfold bag_of_words. rewrite !length_map. reflexivity.
  - vm_compute. lia.
  - vm_compute. lia.
Defined.

(** ** C3: length and order of the ranking *)



(** ** C7: a [top_n] that is not positive *)

(** C7, as stated, fails: [recommend_courses] checks neither [top_n]
    nor the weights.  On the two-row demo catalog, [top_n = -1] is
    scored and answered with one ranked row, and [top_n = 0] with an
    empty frame; neither raises. *)
Lemma nonpositive_top_n_is_scored :
  (exists res,
      snd (demo_recommend stable_argsort (str "clear explanations") (-1))
      = Ok res
      /\ index res = [0%nat] /\ composite_column res <> [])
  /\ (exists res,
         snd (demo_recommend stable_argsort (str "clear explanations") 0)
         = Ok res
         /\ nrows res = 0%nat).
Proof.
  split; eexists; (split; [vm_compute; reflexivity|]).
  - split; [reflexivity|]. vm_compute. discriminate.
  - reflexivity.
Qed.

(** C7, amended: a call with [top_n <= 0] is not rejected.  Whatever
    the weights, the catalog is scored and sorted and the call returns
    normally: with the ranking (what the call returns when asked for
    as many rows as the catalog has) being the catalog rows in an
    order of never increasing score, [top_n = 0] returns no row and a
    negative [top_n] returns the ranking without its last [-top_n]
    rows. *)
Theorem nonpositive_top_n_result cut_block sqrt argsort stopword_lines
    h r cat cn tn ar keywords tfidf tfidf_matrix top_n w_sim w_rating :
  sorts argsort ->
  nth_error h r = Some cat ->
  scorable cut_block stopword_lines cat cn tn ar tfidf tfidf_matrix keywords ->
  top_n <= 0 ->
  let score :=
    score_at cut_block sqrt stopword_lines tfidf tfidf_matrix keywords
      w_sim w_rating ar in
  exists ranked,
    Permutation ranked (seq 0 (nrows cat))
    /\ StronglySorted (fun i j => (score j <= score i)%Q) ranked
    /\ (exists temp,
          recommend_courses cut_block sqrt argsort (Ok stopword_lines)
            keywords r tfidf tfidf_matrix (Z.of_nat (nrows cat))
            w_sim w_rating h
          = (h ++ [temp], Ok (rows_at cat cn tn score ranked)))
    /\ (exists temp,
          recommend_courses cut_block sqrt argsort (Ok stopword_lines)
            keywords r tfidf tfidf_matrix top_n w_sim w_rating h
          = (h ++ [temp],
             Ok (rows_at cat cn tn score
                   (firstn (if top_n =? 0 then 0%nat
                            else (nrows cat - Z.to_nat (- top_n))%nat)
                           ranked)))).
Proof.
  intros Hsorts Hr Hsc Htop score.
  destruct (recommend_courses_positions cut_block sqrt argsort stopword_lines
              h r cat cn tn ar keywords tfidf tfidf_matrix w_sim w_rating
              Hsorts Hr Hsc) as [ranked [Hperm [Hsorted Hrun]]].
  pose proof (Permutation_length Hperm) as Hlen. rewrite length_seq in Hlen.
  exists ranked. split; [exact Hperm|]. split; [exact Hsorted|]. split.
  - destruct (Hrun (Z.of_nat (nrows cat))) as [temp Htemp].
    exists temp. rewrite Htemp. do 3 f_equal.
    apply firstn_all2. rewrite Hlen. unfold head_count.
    replace (0 <=? Z.of_nat (nrows cat)) with true
      by (symmetry; apply Z.leb_le; lia).
    rewrite Nat2Z.id. lia.
  - destruct (Hrun top_n) as [temp Htemp].
    exists temp. rewrite Htemp. do 4 f_equal.
    unfold head_count. destruct (0 <=? top_n) eqn:E.
    + apply Z.leb_le in E. assert (top_n = 0) by lia. subst top_n.
      reflexivity.
    + apply Z.leb_gt in E.
      replace (top_n =? 0) with false by (symmetry; apply Z.eqb_neq; lia).
      reflexivity.
Qed.

Lemma nonpositive_top_n_result_witness :
  let score :=
    score_at whole_block fixed_sqrt demo_stopword_lines
      (bag_of_words demo_vocabulary) demo_matrix (str "clear explanations")
      (7 # 10) (3 # 10) [Num (9 # 2); Num 3] in
  exists ranked,
    Permutation ranked (seq 0 (nrows demo_catalog))
    /\ StronglySorted (fun i j => (score j <= score i)%Q) ranked
    /\ (exists temp,
          recommend_courses whole_block fixed_sqrt stable_argsort
            (Ok demo_stopword_lines) (str "clear explanations") 0%nat
            (bag_of_words demo_vocabulary) demo_matrix
            (Z.of_nat (nrows demo_catalog)) (7 # 10) (3 # 10) [demo_catalog]
          = ([demo_catalog] ++ [temp],
             Ok (rows_at demo_catalog
                   [Str (str "Calculus I"); Str (str "Organic Chem")]
                   [Str (str "Dr. Lee"); Str (str "Dr. Shah")] score ranked)))
    /\ (exists temp,
          recommend_courses whole_block fixed_sqrt stable_argsort
            (Ok demo_stopword_lines) (str "clear explanations") 0%nat
            (bag_of_words demo_vocabulary) demo_matrix (-1)
            (7 # 10) (3 # 10) [demo_catalog]
          = ([demo_catalog] ++ [temp],
             Ok (rows_at demo_catalog
                   [Str (str "Calculus I"); Str (str "Organic Chem")]
                   [Str (str "Dr. Lee"); Str (str "Dr. Shah")] score
                   (firstn (if -1 =? 0 then 0%nat
                            else (nrows demo_catalog - Z.to_nat (- -1))%nat)
                           ranked)))).
Proof.
  apply (nonpositive_top_n_result whole_block fixed_sqrt stable_argsort
           demo_stopword_lines [demo_catalog] 0%nat demo_catalog
           [Str (str "Calculus I"); Str (str "Organic Chem")]
           [Str (str "Dr. Lee"); Str (str "Dr. Shah")]
           [Num (9 # 2); Num 3]).
  - exact stable_argsort_sorts.
  - reflexivity.
  - exact (demo_scorable (str "clear explanations")).
  - lia.
Defined.

(** ** C5: the caller's frames *)

(** C5 holds on the main path ([recommend_courses_frame]) and fails on
    the cold-start path: [handle_cold_start] assigns two columns to the
    frame it is given, not to a copy.  After the call on the demo
    entry, the caller's frame (object 0) has five columns instead of
    three. *)
Theorem cold_start_changes_caller_frame :
  column_names demo_new_courses
  = ["course_name"; "teacher_name"; "avg_rating"]
  /\ option_map column_names (nth_error (fst demo_cold_start) 0)
     = Some ["course_name"; "teacher_name"; "avg_rating";
             "替代文本"; "cleaned_替代文本"]
  /\ nth_error (fst demo_cold_start) 0 <> Some demo_new_courses
  /\ firstn 1
       (fst (demo_recommend stable_argsort (str "clear explanations") 5))
     = [demo_catalog].
Proof.
  split; [reflexivity|]. split; [vm_compute; reflexivity|].
  split; [vm_compute; discriminate|].
  apply (recommend_courses_frame whole_block fixed_sqrt stable_argsort
           demo_stopwords (str "clear explanations") 0%nat
           (bag_of_words demo_vocabulary) demo_matrix 5
           default_similarity_weight default_rating_weight [demo_catalog]).
Qed.

(** ** C10: the fields of a result *)

Lemma recommend_courses_columns cut_block sqrt argsort stopword_lines
    h r cat cn tn ar keywords tfidf tfidf_matrix top_n w_sim w_rating :
  sorts argsort ->
  nth_error h r = Some cat ->
  scorable cut_block stopword_lines cat cn tn ar tfidf tfidf_matrix keywords ->
  exists temp res,
    recommend_courses cut_block sqrt argsort (Ok stopword_lines)
      keywords r tfidf tfidf_matrix top_n w_sim w_rating h
    = (h ++ [temp], Ok res)
    /\ column_names res = ["course_name"; "teacher_name"; "composite_score"].
Proof.
  intros Hsorts Hr Hsc.
  destruct (recommend_courses_ranked cut_block sqrt argsort stopword_lines
              _ _ _ _ _ _ _ _ _ top_n w_sim w_rating Hsorts Hr Hsc)
    as [temp [scores [Hrun _]]].
  exists temp. eexists. split; [exact Hrun|reflexivity].
Qed.

(** C10 holds on the main path ([recommend_courses_columns]) and fails
    on the cold-start path: the frame [handle_cold_start] returns keeps
    the similarity and the rating next to the three result fields. *)
Theorem cold_start_result_exposes_internal_columns :
  option_map column_names
    (match snd demo_cold_start with Ok res => Some res | Err _ => None end)
  = Some ["course_name"; "teacher_name"; "similarity"; "avg_rating";
          "composite_score"]
  /\ option_map column_names
       (match snd (demo_recommend stable_argsort (str "seminar") 5) with
        | Ok res => Some res
        | Err _ => None
        end)
     = Some ["course_name"; "teacher_name"; "composite_score"].
Proof. split; vm_compute; reflexivity. Qed.

(** ** C6: resources that fail to load *)

(** A matrix with another number of rows than the catalog, but not
    without rows or columns, is refused when the similarities are
    assigned (line 76), and the error reaches the caller. *)
Lemma recommend_courses_misaligned cut_block sqrt argsort stopword_lines
    h r cat keywords tfidf tfidf_matrix top_n w_sim w_rating :
  nth_error h r = Some cat ->
  (0 < nrows cat)%nat ->
  length tfidf_matrix <> nrows cat ->
  Forall (fun row =>
            length row
            = length (tfidf (cleaned_query cut_block stopword_lines keywords)))
         tfidf_matrix ->
  (0 < length tfidf_matrix)%nat ->
  (0 < length (tfidf (cleaned_query cut_block stopword_lines keywords)))%nat ->
  recommend_courses cut_block sqrt argsort (Ok stopword_lines)
    keywords r tfidf tfidf_matrix top_n w_sim w_rating h
  = (h ++ [cat], Err ValueError).
Proof.
  intros Hr Hrows Hlen Hwidth HY Hfeat. unfold recommend_courses.
  rewrite (bind_ok _ _ h h (cleaned_query cut_block stopword_lines keywords))
    by reflexivity.
  cbv zeta.
  erewrite bind_ok
    by (unfold lift; rewrite (cosine_similarity_ok _ _ _ Hfeat HY Hwidth);
        reflexivity).
  erewrite bind_ok
    by (unfold copy, bind, read, alloc; rewrite Hr; reflexivity).
  apply bind_err.
  unfold setitem, bind, read, lift. rewrite nth_error_last.
  unfold df_set, nrows in *.
  destruct (index cat) as [|i ix] eqn:Ei; [simpl in Hrows; lia|].
  rewrite !length_map.
  destruct (map Num _) as [|x c] eqn:Ec;
    match goal with
    | |- context [if ?b then _ else _] => destruct b eqn:Eb
    end;
    try reflexivity; apply Nat.eqb_eq in Eb; contradiction.
Qed.


(** C6, as stated, fails: [load_resources] catches what goes wrong
    while loading.  With the model file missing it returns three
    [None]s after an error message; nothing is raised. *)
Lemma load_failure_is_returned :
  load_resources None (Some demo_catalog) []
  = ([], Ok ([st_error_load IOError], (None, None, None)))
  /\ ~ exists e, snd (load_resources None (Some demo_catalog) []) = Err e.
Proof.
  split; [reflexivity|]. intros [e He]. discriminate He.
Qed.

(** C6, amended: when the model or the catalog cannot be loaded, or the
    catalog lacks the [cleaned_review] column, [load_resources] does
    not raise: it reports the exception through [st.error] and returns
    [(None, None, None)], upon which [main] reports that
    initialization failed and scores nothing, which differs from the
    message for an empty result.  A stopword file that cannot be read
    does raise, from [clean_text] through [recommend_courses] to the
    caller. *)
Theorem load_failure_is_reported_not_raised cut_block sqrt argsort
    stopwords_txt tfidf_model_pkl course_teacher_tfidf_pkl user_keywords
    r tfidf tfidf_matrix top_n w_sim w_rating h :
  tfidf_model_pkl = None
  \/ course_teacher_tfidf_pkl = None
  \/ (exists df, course_teacher_tfidf_pkl = Some df
                 /\ lookup "cleaned_review" (columns df) = None) ->
  (exists h' e,
      load_resources tfidf_model_pkl course_teacher_tfidf_pkl h
      = (h', Ok ([st_error_load e], (None, None, None)))
      /\ main_step2 cut_block sqrt argsort stopwords_txt tfidf_model_pkl
           course_teacher_tfidf_pkl user_keywords h
         = (h', Ok [st_error_load e; st_error_init]))
  /\ clean_text cut_block (Err IOError) user_keywords = Err IOError
  /\ recommend_courses cut_block sqrt argsort (Err IOError) user_keywords r tfidf
       tfidf_matrix top_n w_sim w_rating h
     = (h, Err IOError).
Proof.
  intros Hfail. split; [|split; reflexivity].
  assert (Hload : exists h' e,
             load_resources tfidf_model_pkl course_teacher_tfidf_pkl h
             = (h', Ok ([st_error_load e], (None, None, None)))).
  { unfold load_resources, try_except, bind, lift, ret.
    destruct tfidf_model_pkl as [m|]; [|eauto].
    destruct course_teacher_tfidf_pkl as [df|]; [|eauto].
    destruct Hfail as [Hf|[Hf|[df' [Hdf Hcol]]]]; try discriminate.
    injection Hdf as <-.
    unfold alloc, getitem, bind, read, lift, df_get.
    rewrite nth_error_last, Hcol. eauto. }
  destruct Hload as [h' [e Hload]]. exists h', e. split; [exact Hload|].
  unfold main_step2. rewrite (bind_ok _ _ _ _ _ Hload). reflexivity.
Qed.

Lemma load_failure_is_reported_not_raised_witness :
  (exists h' e,
      load_resources None (Some demo_catalog) []
      = (h', Ok ([st_error_load e], (None, None, None)))
      /\ main_step2 whole_block fixed_sqrt stable_argsort demo_stopwords
           None (Some demo_catalog) (str "clear") []
         = (h', Ok [st_error_load e; st_error_init]))
  /\ clean_text whole_block (Err IOError) (str "clear") = Err IOError
  /\ recommend_courses whole_block fixed_sqrt stable_argsort (Err IOError)
       (str "clear") 0%nat (bag_of_words demo_vocabulary) demo_matrix 5
       (7 # 10) (3 # 10) []
     = ([], Err IOError).
Proof.
  apply (load_failure_is_reported_not_raised whole_block fixed_sqrt
           stable_argsort demo_stopwords None (Some demo_catalog)
           (str "clear") 0%nat (bag_of_words demo_vocabulary) demo_matrix 5
           (7 # 10) (3 # 10) []).
  left. reflexivity.
Defined.

(** ** C8: normalizing twice *)

(** C8, as stated, fails: the segmenter returns the space between two
    words as a token, no stopword can remove it, and the tokens are
    joined with further spaces.  "a b" is normalized to "a   b", and
    that to "a       b". *)
Lemma normalize_not_idempotent :
  clean_text whole_block demo_stopwords (str "a b") = Ok (str "a   b")
  /\ clean_text whole_block demo_stopwords (str "a   b")
     = Ok (str "a       b")
  /\ rbind (clean_text whole_block demo_stopwords (str "a b"))
           (clean_text whole_block demo_stopwords)
     <> clean_text whole_block demo_stopwords (str "a b").
Proof.
  split; [reflexivity|]. split; [reflexivity|].
  vm_compute. discriminate.
Qed.

Lemma concat_flush cut_block blk :
  segments cut_block -> concat (flush cut_block blk) = blk.
Proof.
  intros Hseg. destruct blk as [|c blk]; [reflexivity|].
  apply (proj1 (Hseg (c :: blk))).
Qed.

(** The tokens of [lcut] are consecutive pieces of the text. *)
Lemma concat_cut_from cut_block n :
  segments cut_block ->
  forall s blk, (length s <= n)%nat ->
    concat (cut_from cut_block blk s) = blk ++ s.
Proof.
  intros Hseg. induction n as [|n IH]; intros s blk Hlen.
  - destruct s; [|simpl in Hlen; lia]. simpl.
    rewrite concat_flush, app_nil_r by exact Hseg. reflexivity.
  - destruct s as [|c s']; simpl.
    + rewrite concat_flush, app_nil_r by exact Hseg. reflexivity.
    + simpl in Hlen. destruct (is_han c).
      * rewrite IH by lia. rewrite <- app_assoc. reflexivity.
      * destruct s' as [|c' s''].
        -- rewrite concat_app, concat_flush by exact Hseg. reflexivity.
        -- simpl in Hlen. cbv beta iota.
           destruct ((c =? 13) && (c' =? 10)).
           ++ rewrite concat_app, concat_flush, concat_cons by exact Hseg.
              rewrite IH by lia. reflexivity.
           ++ rewrite concat_app, concat_flush, concat_cons by exact Hseg.
              rewrite (IH (c' :: s'') []) by (simpl; lia). reflexivity.
Qed.

Lemma lcut_tokens cut_block s w c :
  segments cut_block -> In w (lcut cut_block s) -> In c w -> In c s.
Proof.
  intros Hseg Hw Hc.
  rewrite <- (app_nil_l s).
  rewrite <- (concat_cut_from cut_block (length s) Hseg s [] (le_n _)).
  apply in_concat. exists w. split; assumption.
Qed.

Lemma in_join sep words c :
  In c (join sep words) -> In c sep \/ exists w, In w words /\ In c w.
Proof.
  induction words as [|w words IH]; simpl; [contradiction|].
  destruct words as [|w' words'].
  - intros H. right. exists w. auto.
  - intros H. apply in_app_or in H as [H|H]; [right; exists w; auto|].
    apply in_app_or in H as [H|H]; [left; exact H|].
    destruct (IH H) as [Hs|[w0 [Hw0 Hc]]]; [left; exact Hs|].
    right. exists w0. split; [right; exact Hw0 | exact Hc].
Qed.

Lemma lower_char_not_upper c : is_upper (lower_char c) = false.
Proof.
  unfold lower_char. destruct (is_upper c) eqn:E; [|exact E].
  unfold is_upper, between in *. apply andb_true_iff in E as [E1 E2].
  apply Z.leb_le in E1, E2.
  replace (c + 32 <=? 90) with false by (symmetry; apply Z.leb_gt; lia).
  apply andb_false_r.
Qed.

Lemma cleaned_characters t c :
  In c (lower (strip_disallowed t)) ->
  allowed c = true /\ is_upper c = false.
Proof.
  unfold lower, strip_disallowed. intros H.
  apply in_map_iff in H as [c0 [<- H0]].
  apply filter_In in H0 as [_ H0].
  split; [apply lower_char_allowed; exact H0 | apply lower_char_not_upper].
Qed.

Lemma per_character_segments : segments per_character.
Proof.
  intros blk. unfold per_character. split.
  - induction blk as [|c blk IH]; simpl; [reflexivity|]. rewrite IH. reflexivity.
  - apply Forall_map, Forall_forall. intros c _. discriminate.
Qed.

Lemma whole_words_segments : segments whole_words.
Proof.
  intros [|c blk]; simpl; split; try reflexivity.
  - constructor.
  - rewrite app_nil_r. reflexivity.
  - repeat constructor. discriminate.
Qed.

Lemma whole_words_final : final_pieces whole_words.
Proof.
  intros [|c blk] w; simpl; [contradiction|].
  intros [<-|[]]. reflexivity.
Qed.

(** A run of [is_han] characters is read into the block. *)
Lemma cut_from_han cut_block s :
  Forall (fun c => is_han c = true) s ->
  forall blk, cut_from cut_block blk s = flush cut_block (blk ++ s).
Proof.
  induction 1 as [|c s Hc _ IH]; intros blk; simpl.
  - rewrite app_nil_r. reflexivity.
  - rewrite Hc, IH, <- app_assoc. reflexivity.
Qed.

(** The tokens of [lcut]: pieces of a block of [is_han] characters,
    single characters outside [is_han], and [\r\n] pairs. *)
Lemma cut_from_kinds cut_block n :
  forall s blk, (length s <= n)%nat ->
    Forall (fun c => is_han c = true) blk ->
    forall w, In w (cut_from cut_block blk s) ->
      (exists b, Forall (fun c => is_han c = true) b /\ In w (cut_block b))
      \/ (exists c, w = [c] /\ is_han c = false)
      \/ w = [13; 10].
Proof.
  assert (Hflush : forall blk w,
             Forall (fun c => is_han c = true) blk ->
             In w (flush cut_block blk) ->
             exists b, Forall (fun c => is_han c = true) b
                       /\ In w (cut_block b)).
  { intros blk w Hblk Hw. destruct blk as [|c blk]; [contradiction|].
    exists (c :: blk). split; assumption. }
  induction n as [|n IH]; intros s blk Hlen Hblk w Hw.
  - destruct s; [|simpl in Hlen; lia]. simpl in Hw. left. eauto.
  - destruct s as [|c s']; simpl in Hw; [left; eauto|].
    simpl in Hlen. destruct (is_han c) eqn:Ec.
    + apply (IH s' (blk ++ [c])); [lia | | exact Hw].
      apply Forall_app. split; [exact Hblk | repeat constructor; exact Ec].
    + destruct s' as [|c' s''].
      * apply in_app_or in Hw as [Hw|[<-|[]]]; [left; eauto|].
        right. left. eauto.
      * simpl in Hlen. destruct ((c =? 13) && (c' =? 10)) eqn:E.
        -- apply in_app_or in Hw as [Hw|[<-|Hw]]; [left; eauto| |].
           ++ apply andb_true_iff in E as [E1 E2].
              apply Z.eqb_eq in E1, E2. subst. right. right. reflexivity.
           ++ apply (IH s'' []); [lia | constructor | exact Hw].
        -- apply in_app_or in Hw as [Hw|[<-|Hw]]; [left; eauto| |].
           ++ right. left. eauto.
           ++ apply (IH (c' :: s'') []); [simpl; lia | constructor | exact Hw].
Qed.

(** A cleaned text is left as it is by the character filter and the
    lower-casing. *)
Lemma cleaned_characters_fixed w :
  Forall (fun c => allowed c = true /\ is_upper c = false) w ->
  lower (strip_disallowed w) = w.
Proof.
  unfold lower, strip_disallowed.
  induction 1 as [|c w [Ha Hu] _ IH]; simpl; [reflexivity|].
  rewrite Ha. simpl. rewrite IH. unfold lower_char. rewrite Hu. reflexivity.
Qed.

(** A token the first pass kept is cleaned to itself. *)
Lemma kept_token_is_fixed cut_block stopword_lines t w :
  segments cut_block ->
  final_pieces cut_block ->
  In w (kept_tokens cut_block stopword_lines t) ->
  clean_text cut_block (Ok stopword_lines) w = Ok w.
Proof.
  intros Hseg Hfinal Hw. unfold kept_tokens in Hw.
  apply filter_In in Hw as [Hw Hstop].
  assert (Hchars : Forall (fun c => allowed c = true /\ is_upper c = false) w).
  { apply Forall_forall. intros c Hc.
    apply (cleaned_characters t). eapply lcut_tokens; eassumption. }
  assert (Hcut : lcut cut_block w = [w]).
  { unfold lcut in *.
    destruct (cut_from_kinds cut_block _ _ [] (le_n _) (Forall_nil _) w Hw)
      as [[b [Hb Hin]]|[[c [-> Hc]]| ->]].
    - destruct (Hseg b) as [Hcat Hne].
      assert (Hhan : Forall (fun c => is_han c = true) w).
      { apply Forall_forall. intros c Hc. rewrite Forall_forall in Hb.
        apply Hb. rewrite <- Hcat. apply in_concat. exists w. auto. }
      rewrite (cut_from_han cut_block w Hhan []). simpl.
      rewrite Forall_forall in Hne. specialize (Hne w Hin).
      destruct w as [|c w]; [contradiction Hne; reflexivity|].
      simpl. apply (Hfinal b). exact Hin.
    - simpl. rewrite Hc. reflexivity.
    - reflexivity. }
  unfold clean_text, read_stopwords. simpl rbind. cbv zeta.
  rewrite (cleaned_characters_fixed w Hchars), Hcut. simpl filter.
  rewrite Hstop. reflexivity.
Qed.

(** C8, amended: the first two stages of [clean_text], removing the
    characters outside the allow-list and lower-casing, are idempotent
    on every text; and [clean_text] as a whole is idempotent on every
    input of which it keeps at most one token, for a segmenter that
    cuts a block into non-empty pieces it would not cut further.  (With
    two tokens or more the separator it inserts is a token of the next
    pass, as the example "a b" shows.) *)
Theorem normalize_idempotent_up_to_one_token cut_block stopword_lines
    (t : text) :
  segments cut_block ->
  final_pieces cut_block ->
  (length (kept_tokens cut_block stopword_lines t) <= 1)%nat ->
  lower (strip_disallowed (lower (strip_disallowed t)))
  = lower (strip_disallowed t)
  /\ rbind (clean_text cut_block (Ok stopword_lines) t)
           (clean_text cut_block (Ok stopword_lines))
     = clean_text cut_block (Ok stopword_lines) t.
Proof.
  intros Hseg Hfinal Hone. split; [apply strip_lower_idempotent|].
  assert (Hclean : clean_text cut_block (Ok stopword_lines) t
                   = Ok (join (str " ")
                           (kept_tokens cut_block stopword_lines t)))
    by reflexivity.
  rewrite Hclean. simpl rbind.
  destruct (kept_tokens cut_block stopword_lines t) as [|w [|w' ws]] eqn:E.
  - reflexivity.
  - simpl join.
    apply (kept_token_is_fixed cut_block stopword_lines t w Hseg Hfinal).
    rewrite E. left. reflexivity.
  - simpl in Hone. lia.
Qed.

Lemma normalize_idempotent_up_to_one_token_witness :
  lower (strip_disallowed (lower (strip_disallowed (str "Clear-101!"))))
  = lower (strip_disallowed (str "Clear-101!"))
  /\ rbind (clean_text whole_words (Ok demo_stopword_lines)
             (str "Clear-101!"))
           (clean_text whole_words (Ok demo_stopword_lines))
     = clean_text whole_words (Ok demo_stopword_lines) (str "Clear-101!").
Proof.
  apply (normalize_idempotent_up_to_one_token whole_words
           demo_stopword_lines (str "Clear-101!")).
  - exact whole_words_segments.
  - exact whole_words_final.
  - vm_compute. lia.
Defined.

(** ** C9: similarity of a vector of zero norm *)

(** C9: [cosine_similarity] divides every row by its norm, and a
    division by zero would leave entries that are no numbers; the
    guard on the norm prevents it.  For all vectors the similarity is
    a number, not NaN, and when the query vector or the catalog vector
    has zero L2 norm (its sum of squares is zero) that number is 0.
    The empty query is cleaned to the empty text without error, and if
    the vectorizer maps the empty text to a vector of zero norm, its
    similarity to every row of an aligned matrix is the number 0. *)
Theorem cosine_similarity_zero_norm cut_block sqrt stopword_lines
    (tfidf : TfidfVectorizer) (tfidf_matrix : list vec) (x y : vec) :
  (sumsq x == 0)%Q \/ (sumsq y == 0)%Q ->
  (sumsq (tfidf []) == 0)%Q ->
  Forall (fun row => length row = length (tfidf [])) tfidf_matrix ->
  (0 < length tfidf_matrix)%nat ->
  (0 < length (tfidf []))%nat ->
  (forall u v, exists q, cosine_entry sqrt u v = Num q)
  /\ (exists q, cosine_entry sqrt x y = Num q /\ (q == 0)%Q)
  /\ clean_text cut_block (Ok stopword_lines) [] = Ok []
  /\ exists similarity_scores,
       cosine_similarity sqrt (tfidf []) tfidf_matrix = Ok similarity_scores
       /\ length similarity_scores = length tfidf_matrix
       /\ Forall (fun s => exists q, s = Num q /\ (q == 0)%Q)
                 similarity_scores.
Proof.
  intros Hzero Hempty Hwidth Hrows Hfeat.
  split; [intros u v; eexists; apply cosine_entry_num|].
  split.
  { eexists. split; [apply cosine_entry_num | apply cosine_zero; exact Hzero]. }
  split; [reflexivity|].
  exists (map Num (map (cosine sqrt (tfidf [])) tfidf_matrix)).
  split; [apply cosine_similarity_ok; assumption|].
  split; [rewrite !length_map; reflexivity|].
  apply Forall_map, Forall_map, Forall_forall. intros row _.
  eexists. split; [reflexivity|].
  apply cosine_zero. left. exact Hempty.
Qed.

Lemma cosine_similarity_zero_norm_witness :
  (forall u v, exists q, cosine_entry fixed_sqrt u v = Num q)
  /\ (exists q,
        cosine_entry fixed_sqrt [0; 0; 0; 0; 0; 0]%Q [1; 1; 1; 0; 0; 0]%Q
        = Num q
        /\ (q == 0)%Q)
  /\ clean_text whole_block (Ok demo_stopword_lines) [] = Ok []
  /\ exists similarity_scores,
       cosine_similarity fixed_sqrt (bag_of_words demo_vocabulary [])
         demo_matrix
       = Ok similarity_scores
       /\ length similarity_scores = length demo_matrix
       /\ Forall (fun s => exists q, s = Num q /\ (q == 0)%Q)
                 similarity_scores.
Proof.
  apply (cosine_similarity_zero_norm whole_block fixed_sqrt
           demo_stopword_lines (bag_of_words demo_vocabulary) demo_matrix
           [0; 0; 0; 0; 0; 0]%Q [1; 1; 1; 0; 0; 0]%Q).
  - left. reflexivity.
  - reflexivity.
  - repeat constructor.
  - vm_compute. lia.
  - vm_compute. lia.
Defined.

(** ** The scenarios of the specification, run on the model *)

(** Scenario A: "clear explanations" ranks Calculus I first. *)
Example scenario_clear_explanations :
  option_map index
    (match snd (demo_recommend stable_argsort (str "clear explanations") 5)
     with Ok res => Some res | Err _ => None end)
  = Some [0; 1]%nat.
Proof. vm_compute. reflexivity. Qed.

(** Scenario B: with an empty query the rows are ordered by their
    ratings alone, here 0.3 * 4.5 and 0.3 * 3. *)
Example scenario_empty_query :
  option_map composite_column
    (match snd (demo_recommend stable_argsort (str "") 5)
     with Ok res => Some res | Err _ => None end)
  = Some [27 # 20; 9 # 10].
Proof. vm_compute. reflexivity. Qed.

(** Scenario C: five rows asked of a catalog of two gives two. *)
Example scenario_more_than_available :
  option_map nrows
    (match snd (demo_recommend stable_argsort (str "workload") 5)
     with Ok res => Some res | Err _ => None end)
  = Some 2%nat.
Proof. vm_compute. reflexivity. Qed.

(** Scenario D: a new entry without reviews gets a score, from its
    names alone and with a rating of 0. *)
Example scenario_cold_start :
  option_map (fun res => (lookup "avg_rating" (columns res),
                          composite_column res))
    (match snd demo_cold_start with Ok res => Some res | Err _ => None end)
  = Some (Some [Num 0], [7 # 10]).
Proof. vm_compute. reflexivity. Qed.

(* ================================================================= *)
(** * Further properties of the scoring functions *)

(** ** [recommend_courses]: what it keeps and what it returns *)

(** X1: whatever its arguments, and whether it returns or raises,
    [recommend_courses] leaves every object of the heap as it was; all
    it does to the heap is to add objects behind them. *)
Theorem recommend_courses_only_adds_objects cut_block sqrt argsort
    stopwords_txt keywords r tfidf tfidf_matrix top_n w_sim w_rating h :
  exists added,
    fst (recommend_courses cut_block sqrt argsort stopwords_txt keywords r
           tfidf tfidf_matrix top_n w_sim w_rating h)
    = h ++ added.
Proof.
  set (h' := fst (recommend_courses cut_block sqrt argsort stopwords_txt
                    keywords r tfidf tfidf_matrix top_n w_sim w_rating h)).
  exists (skipn (length h) h').
  rewrite <- (firstn_skipn (length h) h') at 1. f_equal.
  apply recommend_courses_frame.
Qed.

Lemma StronglySorted_app_inv {A} (R : A -> A -> Prop) l1 l2 a b :
  StronglySorted R (l1 ++ l2) -> In a l1 -> In b l2 -> R a b.
Proof.
  induction l1 as [|x l1 IH]; simpl; intros Hs Ha Hb; [contradiction|].
  apply StronglySorted_inv in Hs as [Hs Hx].
  destruct Ha as [<-|Ha]; [|apply IH; assumption].
  rewrite Forall_forall in Hx. apply Hx. apply in_or_app. right. exact Hb.
Qed.

(** X2: the rows [recommend_courses] returns are the best ones: the
    catalog positions split into those returned, in the order of the
    result, and those left out, and no row left out has a higher
    composite score than a row returned. *)
Theorem returned_rows_score_highest cut_block sqrt argsort stopword_lines
    h r cat cn tn ar keywords tfidf tfidf_matrix top_n w_sim w_rating :
  sorts argsort ->
  nth_error h r = Some cat ->
  scorable cut_block stopword_lines cat cn tn ar tfidf tfidf_matrix keywords ->
  let score :=
    score_at cut_block sqrt stopword_lines tfidf tfidf_matrix keywords
      w_sim w_rating ar in
  exists temp returned left_out,
    recommend_courses cut_block sqrt argsort (Ok stopword_lines)
      keywords r tfidf tfidf_matrix top_n w_sim w_rating h
    = (h ++ [temp], Ok (rows_at cat cn tn score returned))
    /\ Permutation (returned ++ left_out) (seq 0 (nrows cat))
    /\ forall i j, In i returned -> In j left_out ->
                   (score j <= score i)%Q.
Proof.
  intros Hsorts Hr Hsc score.
  destruct (recommend_courses_rows cut_block sqrt argsort stopword_lines
              Hsorts _ _ _ _ _ _ _ _ _ top_n w_sim w_rating Hr Hsc)
    as [temp Hrun].
  set (scores := composite_scores cut_block sqrt stopword_lines tfidf
                   tfidf_matrix keywords w_sim w_rating ar) in *.
  set (positions := descending_positions argsort scores) in *.
  set (k := head_count top_n (nrows cat)) in *.
  pose proof (composite_scores_length cut_block sqrt _ _ _ _ _ _ _ _
                w_sim w_rating Hsc) as Hlen. fold scores in Hlen.
  destruct (scorable_lengths _ _ _ _ _ _ _ _ _ Hsc) as [Har Hm].
  exists temp, (firstn k positions), (skipn k positions).
  split; [exact Hrun|]. split.
  - rewrite firstn_skipn, <- Hlen.
    apply descending_positions_perm. exact Hsorts.
  - intros i j Hi Hj.
    pose proof (descending_positions_sorted argsort Hsorts scores) as Hsorted.
    fold positions in Hsorted.
    rewrite <- (firstn_skipn k positions) in Hsorted.
    pose proof (StronglySorted_app_inv _ _ _ i j Hsorted Hi Hj) as Hij.
    assert (Hbound : forall p, In p positions -> (p < length ar)%nat).
    { intros p Hp. rewrite Har, <- Hlen.
      apply (descending_positions_bound _ Hsorts). exact Hp. }
    unfold scores in Hij.
    rewrite !(composite_scores_nth cut_block sqrt stopword_lines) in Hij.
    + exact Hij.
    + exact Hm.
    + apply Hbound. rewrite <- (firstn_skipn k positions).
      apply in_or_app. left. exact Hi.
    + exact Hm.
    + apply Hbound. rewrite <- (firstn_skipn k positions).
      apply in_or_app. right. exact Hj.
Qed.

Lemma returned_rows_score_highest_witness :
  let score :=
    score_at whole_block fixed_sqrt demo_stopword_lines
      (bag_of_words demo_vocabulary) demo_matrix (str "workload")
      (7 # 10) (3 # 10) [Num (9 # 2); Num 3] in
  exists temp returned left_out,
    recommend_courses whole_block fixed_sqrt stable_argsort
      (Ok demo_stopword_lines) (str "workload") 0%nat
      (bag_of_words demo_vocabulary) demo_matrix 1 (7 # 10) (3 # 10)
      [demo_catalog]
    = ([demo_catalog] ++ [temp],
       Ok (rows_at demo_catalog
             [Str (str "Calculus I"); Str (str "Organic Chem")]
             [Str (str "Dr. Lee"); Str (str "Dr. Shah")] score returned))
    /\ Permutation (returned ++ left_out) (seq 0 (nrows demo_catalog))
    /\ forall i j, In i returned -> In j left_out ->
                   (score j <= score i)%Q.
Proof.
  apply (returned_rows_score_highest whole_block fixed_sqrt stable_argsort
           demo_stopword_lines [demo_catalog] 0%nat demo_catalog).
  - exact stable_argsort_sorts.
  - reflexivity.
  - exact (demo_scorable (str "workload")).
Defined.

(** X3: asked for at least as many rows as the catalog has,
    [recommend_courses] returns every catalog row exactly once: the
    labels of the result are a permutation of the labels of the
    catalog. *)
Theorem full_ranking_is_a_permutation cut_block sqrt argsort stopword_lines
    h r cat cn tn ar keywords tfidf tfidf_matrix top_n w_sim w_rating :
  sorts argsort ->
  nth_error h r = Some cat ->
  scorable cut_block stopword_lines cat cn tn ar tfidf tfidf_matrix keywords ->
  Z.of_nat (nrows cat) <= top_n ->
  exists temp res,
    recommend_courses cut_block sqrt argsort (Ok stopword_lines)
      keywords r tfidf tfidf_matrix top_n w_sim w_rating h
    = (h ++ [temp], Ok res)
    /\ Permutation (index res) (index cat).
Proof.
  intros Hsorts Hr Hsc Htop.
  destruct (recommend_courses_rows cut_block sqrt argsort stopword_lines
              Hsorts _ _ _ _ _ _ _ _ _ top_n w_sim w_rating Hr Hsc)
    as [temp Hrun].
  exists temp. eexists. split; [exact Hrun|]. simpl index.
  pose proof (composite_scores_length cut_block sqrt _ _ _ _ _ _ _ _
                w_sim w_rating Hsc) as Hlen.
  rewrite firstn_all2.
  - rewrite (Permutation_map _ (descending_positions_perm _ Hsorts _)).
    rewrite Hlen. unfold nrows. rewrite map_nth_seq. reflexivity.
  - rewrite (descending_positions_length _ Hsorts), Hlen.
    unfold head_count. destruct (0 <=? top_n) eqn:E; [lia|].
    apply Z.leb_gt in E. lia.
Qed.

Lemma full_ranking_is_a_permutation_witness :
  exists temp res,
    recommend_courses whole_block fixed_sqrt stable_argsort
      (Ok demo_stopword_lines) (str "workload") 0%nat
      (bag_of_words demo_vocabulary) demo_matrix 5 (7 # 10) (3 # 10)
      [demo_catalog]
    = ([demo_catalog] ++ [temp], Ok res)
    /\ Permutation (index res) (index demo_catalog).
Proof.
  apply (full_ranking_is_a_permutation whole_block fixed_sqrt stable_argsort
           demo_stopword_lines [demo_catalog] 0%nat demo_catalog
           [Str (str "Calculus I"); Str (str "Organic Chem")]
           [Str (str "Dr. Lee"); Str (str "Dr. Shah")]
           [Num (9 # 2); Num 3]).
  - exact stable_argsort_sorts.
  - reflexivity.
  - exact (demo_scorable (str "workload")).
  - simpl. lia.
Defined.

(** ** [recommend_courses]: rows of equal score *)

Lemma tied_scorable keywords :
  scorable whole_block demo_stopword_lines tied_catalog
    (map (fun i => Str (str "Course " ++ [65 + Z.of_nat i])) (seq 0 20))
    (repeat (Str (str "Dr. Lee")) 20)
    (repeat (Num 4) 20)
    (bag_of_words demo_vocabulary) tied_matrix keywords.
Proof.
  constructor; try reflexivity.
  - simpl. repeat constructor.
  - unfold tied_matrix, bag_of_words. simpl repeat. repeat constructor.
  - unfold nrows. simpl. lia.
  - unfold bag_of_words. rewrite length_map. simpl. lia.
Qed.

(** X23: [sort_values(ascending=False)] reverses the column, sorts it
    ascending and reverses the outcome.  So when the argsort it calls
    is stable, rows of equal composite score are returned in their
    catalog order (for a catalog labelled 0, 1, 2, ...: with
    increasing labels), and not in the reverse of it.  The call as
    written does not ask for a stable sort; stability is a hypothesis
    here. *)
Theorem stable_ranking_keeps_catalog_order cut_block sqrt argsort
    stopword_lines h r cat cn tn ar keywords tfidf tfidf_matrix top_n
    w_sim w_rating :
  sorts argsort ->
  stable argsort ->
  nth_error h r = Some cat ->
  scorable cut_block stopword_lines cat cn tn ar tfidf tfidf_matrix keywords ->
  index cat = seq 0 (nrows cat) ->
  exists temp res qs,
    recommend_courses cut_block sqrt argsort (Ok stopword_lines)
      keywords r tfidf tfidf_matrix top_n w_sim w_rating h
    = (h ++ [temp], Ok res)
    /\ lookup "composite_score" (columns res) = Some (map Num qs)
    /\ forall p p',
         (p < p')%nat -> (p' < nrows res)%nat ->
         (nth p qs 0 == nth p' qs 0)%Q ->
         (nth p (index res) 0 < nth p' (index res) 0)%nat.
Proof.
  intros Hsorts Hstable Hr Hsc Hindex.
  destruct (recommend_courses_ranked cut_block sqrt argsort stopword_lines
              _ _ _ _ _ _ _ _ _ top_n w_sim w_rating Hsorts Hr Hsc)
    as [temp [scores [Hrun Hlen]]].
  exists temp. do 2 eexists. split; [exact Hrun|].
  split; [apply rows_at_composite|].
  set (pos := firstn (head_count top_n (nrows cat))
                     (descending_positions argsort scores)).
  intros p p' Hlt Hp'. rewrite rows_at_nrows in Hp'. fold pos in Hp'.
  assert (Hbound : forall q, (q < length pos)%nat ->
                             (nth q pos 0 < nrows cat)%nat).
  { intros q Hq. rewrite <- Hlen.
    apply (descending_positions_bound _ Hsorts).
    apply (in_firstn (head_count top_n (nrows cat))). apply nth_In. exact Hq. }
  assert (Hscore : forall q, (q < length pos)%nat ->
                     nth q (map (fun i => nth i scores 0%Q) pos) 0%Q
                     = nth (nth q pos 0%nat) scores 0%Q).
  { intros q Hq.
    rewrite (nth_indep _ 0%Q (nth 0%nat scores 0%Q))
      by (rewrite length_map; exact Hq).
    apply (map_nth (fun i => nth i scores 0%Q)). }
  assert (Hlabel : forall q, (q < length pos)%nat ->
                     nth q (index (rows_at cat cn tn
                                     (fun i => nth i scores 0%Q) pos)) 0%nat
                     = nth q pos 0%nat).
  { intros q Hq. simpl index.
    rewrite (nth_indep _ 0%nat (nth 0%nat (index cat) 0%nat))
      by (rewrite length_map; exact Hq).
    rewrite (map_nth (fun i => nth i (index cat) 0%nat)).
    rewrite Hindex, seq_nth by (apply Hbound; exact Hq). reflexivity. }
  rewrite !Hscore, !Hlabel by lia.
  apply (StronglySorted_nth
           (fun a b => (nth a scores 0 == nth b scores 0)%Q -> (a < b)%nat));
    [|exact Hlt|exact Hp'].
  apply StronglySorted_firstn.
  apply descending_positions_stable; assumption.
Qed.

Lemma stable_ranking_keeps_catalog_order_witness :
  exists temp res qs,
    recommend_courses whole_block fixed_sqrt stable_argsort
      (Ok demo_stopword_lines) (str "clear") 0%nat
      (bag_of_words demo_vocabulary) tied_matrix 5 (7 # 10) (3 # 10)
      [tied_catalog]
    = ([tied_catalog] ++ [temp], Ok res)
    /\ lookup "composite_score" (columns res) = Some (map Num qs)
    /\ forall p p',
         (p < p')%nat -> (p' < nrows res)%nat ->
         (nth p qs 0 == nth p' qs 0)%Q ->
         (nth p (index res) 0 < nth p' (index res) 0)%nat.
Proof.
  apply (stable_ranking_keeps_catalog_order whole_block fixed_sqrt
           stable_argsort demo_stopword_lines [tied_catalog] 0%nat
           tied_catalog
           (map (fun i => Str (str "Course " ++ [65 + Z.of_nat i])) (seq 0 20))
           (repeat (Str (str "Dr. Lee")) 20)
           (repeat (Num 4) 20)).
  - exact stable_argsort_sorts.
  - exact stable_argsort_stable.
  - reflexivity.
  - exact (tied_scorable (str "clear")).
  - reflexivity.
Defined.

(** The twenty tied rows under the stable argsort: the first five, in
    catalog order. *)
Example scenario_tied_rows :
  option_map index
    (match snd (recommend_courses whole_block fixed_sqrt stable_argsort
                  demo_stopwords (str "clear") 0%nat
                  (bag_of_words demo_vocabulary) tied_matrix default_top_n
                  default_similarity_weight default_rating_weight
                  [tied_catalog])
     with Ok res => Some res | Err _ => None end)
  = Some [0; 1; 2; 3; 4]%nat.
Proof. vm_compute. reflexivity. Qed.

(** ** [recommend_courses]: inputs it refuses *)

Lemma cosine_similarity_width sqrt X Y :
  Exists (fun row => length row <> length X) Y ->
  cosine_similarity sqrt X Y = Err ValueError.
Proof.
  intros H. unfold cosine_similarity.
  destruct X as [|a X]; [reflexivity|].
  destruct Y as [|r Y]; [reflexivity|].
  destruct (forallb _ (r :: Y)) eqn:E; [|reflexivity]. exfalso.
  rewrite forallb_forall in E. apply Exists_exists in H as [row [Hin Hne]].
  apply Hne. apply Nat.eqb_eq. apply E. exact Hin.
Qed.

Lemma cosine_similarity_empty sqrt X Y :
  length X = 0%nat \/ length Y = 0%nat ->
  cosine_similarity sqrt X Y = Err ValueError.
Proof.
  unfold cosine_similarity.
  intros [H|H]; destruct X; try discriminate; try reflexivity.
  destruct Y; [reflexivity | discriminate].
Qed.

(** X4: a matrix with a row of another width than the query vector is
    refused with a ValueError before the catalog is looked at: nothing
    is copied and the heap is as it was. *)
Theorem query_of_another_width_is_refused cut_block sqrt argsort
    stopword_lines h r keywords tfidf tfidf_matrix top_n w_sim w_rating :
  Exists (fun row =>
            length row
            <> length (tfidf (cleaned_query cut_block stopword_lines keywords)))
         tfidf_matrix ->
  recommend_courses cut_block sqrt argsort (Ok stopword_lines)
    keywords r tfidf tfidf_matrix top_n w_sim w_rating h
  = (h, Err ValueError).
Proof.
  intros Hwidth. unfold recommend_courses.
  rewrite (bind_ok _ _ h h (cleaned_query cut_block stopword_lines keywords))
    by reflexivity.
  cbv zeta. apply bind_err. unfold lift.
  rewrite (cosine_similarity_width _ _ _ Hwidth). reflexivity.
Qed.

Lemma query_of_another_width_is_refused_witness :
  recommend_courses whole_block fixed_sqrt stable_argsort
    (Ok demo_stopword_lines) (str "workload") 0%nat
    (bag_of_words demo_vocabulary) [[1; 0; 0]%Q] 5 (7 # 10) (3 # 10)
    [demo_catalog]
  = ([demo_catalog], Err ValueError).
Proof.
  apply (query_of_another_width_is_refused whole_block fixed_sqrt
           stable_argsort demo_stopword_lines [demo_catalog] 0%nat
           (str "workload") (bag_of_words demo_vocabulary) [[1; 0; 0]%Q]).
  apply Exists_cons_hd. vm_compute. discriminate.
Defined.

Lemma recommend_courses_refused cut_block sqrt argsort stopword_lines
    h r keywords tfidf tfidf_matrix top_n w_sim w_rating e :
  cosine_similarity sqrt
    (tfidf (cleaned_query cut_block stopword_lines keywords)) tfidf_matrix
  = Err e ->
  recommend_courses cut_block sqrt argsort (Ok stopword_lines)
    keywords r tfidf tfidf_matrix top_n w_sim w_rating h
  = (h, Err e).
Proof.
  intros He. unfold recommend_courses.
  rewrite (bind_ok _ _ h h (cleaned_query cut_block stopword_lines keywords))
    by reflexivity.
  cbv zeta. apply bind_err. unfold lift. rewrite He. reflexivity.
Qed.

(** X5: for a catalog with rows, a matrix with another number of rows
    is refused with a ValueError: when the similarities are assigned
    (line 76), or already by [cosine_similarity] (line 73) when the
    matrix has no row or no column; the caller's catalog is
    unchanged. *)
Theorem matrix_of_another_height_is_refused cut_block sqrt argsort
    stopword_lines h r cat keywords tfidf tfidf_matrix top_n w_sim w_rating :
  nth_error h r = Some cat ->
  (0 < nrows cat)%nat ->
  length tfidf_matrix <> nrows cat ->
  Forall (fun row =>
            length row
            = length (tfidf (cleaned_query cut_block stopword_lines keywords)))
         tfidf_matrix ->
  exists h',
    recommend_courses cut_block sqrt argsort (Ok stopword_lines)
      keywords r tfidf tfidf_matrix top_n w_sim w_rating h
    = (h', Err ValueError)
    /\ nth_error h' r = Some cat.
Proof.
  intros Hr Hrows Hlen Hwidth.
  destruct (Nat.eq_dec (length tfidf_matrix) 0) as [HY|HY];
    [|destruct (Nat.eq_dec
                  (length (tfidf (cleaned_query cut_block stopword_lines
                                    keywords))) 0) as [HX|HX]].
  - exists h. split; [|exact Hr].
    apply recommend_courses_refused, cosine_similarity_empty.
    right. exact HY.
  - exists h. split; [|exact Hr].
    apply recommend_courses_refused, cosine_similarity_empty.
    left. exact HX.
  - exists (h ++ [cat]). split.
    + apply recommend_courses_misaligned; try assumption; lia.
    + rewrite nth_error_app1; [exact Hr|].
      apply nth_error_Some. congruence.
Qed.

Lemma matrix_of_another_height_is_refused_witness :
  exists h',
    recommend_courses whole_block fixed_sqrt stable_argsort
      (Ok demo_stopword_lines) (str "workload") 0%nat
      (bag_of_words demo_vocabulary)
      [bag_of_words demo_vocabulary (str "clear")] 5 (7 # 10) (3 # 10)
      [demo_catalog]
    = (h', Err ValueError)
    /\ nth_error h' 0 = Some demo_catalog.
Proof.
  apply (matrix_of_another_height_is_refused whole_block fixed_sqrt
           stable_argsort demo_stopword_lines [demo_catalog] 0%nat
           demo_catalog (str "workload") (bag_of_words demo_vocabulary)
           [bag_of_words demo_vocabulary (str "clear")]).
  - reflexivity.
  - vm_compute. lia.
  - vm_compute. discriminate.
  - repeat constructor.
Defined.

(** X24: a matrix without rows, as an empty catalog gives, is refused
    by [cosine_similarity] with a ValueError (line 73), and so is a
    query vector without columns: the call raises before the catalog
    is copied (line 75), and the heap is as it was. *)
Theorem empty_matrix_is_refused cut_block sqrt argsort stopword_lines
    h r keywords tfidf tfidf_matrix top_n w_sim w_rating :
  length tfidf_matrix = 0%nat
  \/ length (tfidf (cleaned_query cut_block stopword_lines keywords)) = 0%nat ->
  recommend_courses cut_block sqrt argsort (Ok stopword_lines)
    keywords r tfidf tfidf_matrix top_n w_sim w_rating h
  = (h, Err ValueError).
Proof.
  intros H. apply recommend_courses_refused, cosine_similarity_empty.
  destruct H as [H|H]; [right | left]; exact H.
Qed.

Lemma empty_matrix_is_refused_witness :
  recommend_courses whole_block fixed_sqrt stable_argsort
    (Ok demo_stopword_lines) (str "workload") 0%nat
    (bag_of_words demo_vocabulary) [] 5 (7 # 10) (3 # 10)
    [mkDF [] [("course_name", []); ("teacher_name", []);
              ("cleaned_review", []); ("avg_rating", [])]]
  = ([mkDF [] [("course_name", []); ("teacher_name", []);
               ("cleaned_review", []); ("avg_rating", [])]],
     Err ValueError).
Proof.
  apply (empty_matrix_is_refused whole_block fixed_sqrt stable_argsort
           demo_stopword_lines
           [mkDF [] [("course_name", []); ("teacher_name", []);
                     ("cleaned_review", []); ("avg_rating", [])]]
           0%nat (str "workload") (bag_of_words demo_vocabulary) []).
  left. reflexivity.
Defined.

(** The run of [recommend_courses] up to the assignment of the
    similarities (lines 71-76). *)
Lemma recommend_courses_prefix cut_block sqrt argsort stopword_lines
    h r cat keywords tfidf tfidf_matrix top_n w_sim w_rating
    (k : DataFrame -> M DataFrame) :
  nth_error h r = Some cat ->
  length tfidf_matrix = nrows cat ->
  Forall (fun row =>
            length row
            = length (tfidf (cleaned_query cut_block stopword_lines keywords)))
         tfidf_matrix ->
  (0 < nrows cat)%nat ->
  (0 < length (tfidf (cleaned_query cut_block stopword_lines keywords)))%nat ->
  let sims :=
    map (cosine sqrt (tfidf (cleaned_query cut_block stopword_lines keywords)))
        tfidf_matrix in
  let temp :=
    mkDF (index cat) (assign "similarity" (map Num sims) (columns cat)) in
  recommend_courses cut_block sqrt argsort (Ok stopword_lines)
    keywords r tfidf tfidf_matrix top_n w_sim w_rating h
  = (avg_rating <- getitem (length h) "avg_rating" ;;
     setitem (length h) "avg_rating" (fillna0 avg_rating) ;;
     similarity <- getitem (length h) "similarity" ;;
     weighted_similarity <- lift (col_scale w_sim similarity) ;;
     avg_rating' <- getitem (length h) "avg_rating" ;;
     weighted_rating <- lift (col_scale w_rating avg_rating') ;;
     composite <- lift (col_add weighted_similarity weighted_rating) ;;
     setitem (length h) "composite_score" composite ;;
     df <- read (length h) ;;
     selected <-
       lift (df_select df ["course_name"; "teacher_name"; "composite_score"]) ;;
     sorted <- lift (sort_values_desc argsort "composite_score" selected) ;;
     ret (df_head top_n sorted)) (h ++ [temp]).
Proof.
  intros Hr Hrows Hwidth Hne Hfeat sims temp. unfold recommend_courses.
  rewrite (bind_ok _ _ h h (cleaned_query cut_block stopword_lines keywords))
    by reflexivity.
  cbv zeta.
  assert (HY : (0 < length tfidf_matrix)%nat) by (rewrite Hrows; exact Hne).
  erewrite bind_ok
    by (unfold lift; rewrite (cosine_similarity_ok _ _ _ Hfeat HY Hwidth);
        reflexivity).
  erewrite bind_ok
    by (unfold copy, bind, read, alloc; rewrite Hr; reflexivity).
  erewrite bind_ok.
  2:{ erewrite setitem_run; [reflexivity| apply nth_error_last |].
      rewrite !length_map. exact Hrows. }
  rewrite update_last. reflexivity.
Qed.

(** The run of [recommend_courses] up to the assignment of the
    composite scores (lines 71-81), for a catalog with ratings. *)
Lemma recommend_courses_scored cut_block sqrt argsort stopword_lines
    h r cat ar keywords tfidf tfidf_matrix top_n w_sim w_rating :
  nth_error h r = Some cat ->
  wf_df cat = true ->
  length tfidf_matrix = nrows cat ->
  Forall (fun row =>
            length row
            = length (tfidf (cleaned_query cut_block stopword_lines keywords)))
         tfidf_matrix ->
  lookup "avg_rating" (columns cat) = Some ar ->
  Forall is_number ar ->
  (0 < nrows cat)%nat ->
  (0 < length (tfidf (cleaned_query cut_block stopword_lines keywords)))%nat ->
  let sims :=
    map (cosine sqrt (tfidf (cleaned_query cut_block stopword_lines keywords)))
        tfidf_matrix in
  let scores :=
    composite_scores cut_block sqrt stopword_lines tfidf tfidf_matrix
      keywords w_sim w_rating ar in
  let temp :=
    mkDF (index cat)
      (assign "composite_score" (map Num scores)
         (assign "avg_rating" (fillna0 ar)
            (assign "similarity" (map Num sims) (columns cat)))) in
  recommend_courses cut_block sqrt argsort (Ok stopword_lines)
    keywords r tfidf tfidf_matrix top_n w_sim w_rating h
  = (selected <-
       lift (df_select temp
               ["course_name"; "teacher_name"; "composite_score"]) ;;
     sorted <- lift (sort_values_desc argsort "composite_score" selected) ;;
     ret (df_head top_n sorted)) (h ++ [temp]).
Proof.
  intros Hr Hwf Hrows Hwidth Har Hnum Hne Hfeat sims scores temp.
  pose proof (lookup_length _ _ _ Hwf Har) as Hlen_ar.
  rewrite (recommend_courses_prefix cut_block sqrt argsort stopword_lines
             h r cat keywords tfidf tfidf_matrix top_n w_sim w_rating
             (fun df => ret df) Hr Hrows Hwidth Hne Hfeat).
  cbv zeta. fold sims.
  erewrite bind_ok.
  2:{ eapply getitem_run; [apply nth_error_last|]. simpl columns.
      rewrite lookup_assign_other by reflexivity. exact Har. }
  erewrite bind_ok.
  2:{ erewrite setitem_run; [reflexivity| apply nth_error_last |].
      unfold fillna0. rewrite length_map. exact Hlen_ar. }
  rewrite update_last. simpl index. simpl columns.
  erewrite bind_ok.
  2:{ eapply getitem_run; [apply nth_error_last|]. simpl columns.
      rewrite lookup_assign_other by reflexivity.
      apply lookup_assign_same. }
  erewrite bind_ok by (unfold lift; rewrite col_scale_num; reflexivity).
  erewrite bind_ok.
  2:{ eapply getitem_run; [apply nth_error_last|]. simpl columns.
      apply lookup_assign_same. }
  rewrite (fillna0_numbers _ Hnum).
  erewrite bind_ok by (unfold lift; rewrite col_scale_num; reflexivity).
  erewrite bind_ok.
  2:{ unfold lift. rewrite col_add_weighted; [reflexivity|].
      unfold sims. rewrite length_map, Hlen_ar. exact Hrows. }
  fold sims.
  fold (composite_scores cut_block sqrt stopword_lines tfidf tfidf_matrix
          keywords w_sim w_rating ar).
  fold scores.
  erewrite bind_ok.
  2:{ erewrite setitem_run; [reflexivity| apply nth_error_last |].
      unfold scores, composite_scores, sims.
      rewrite !length_map, length_combine, length_map, Hlen_ar.
      unfold nrows in *. simpl.
      etransitivity; [|apply Nat.min_id]. f_equal. exact Hrows. }
  rewrite update_last. simpl index. simpl columns.
  erewrite bind_ok by (unfold read; rewrite nth_error_last; reflexivity).
  unfold temp. rewrite (fillna0_numbers _ Hnum). reflexivity.
Qed.

(** X6: a catalog with rows that lacks a column [recommend_courses]
    reads makes it raise a KeyError.  The rating is looked for first
    (line 77) and the error names it; the course and teacher names are
    only missed once the scores are computed, at the selection of line
    82, whose error lists every name that was not found. *)
Theorem missing_column_is_a_key_error cut_block sqrt argsort stopword_lines
    h r cat keywords tfidf tfidf_matrix top_n w_sim w_rating :
  nth_error h r = Some cat ->
  wf_df cat = true ->
  length tfidf_matrix = nrows cat ->
  Forall (fun row =>
            length row
            = length (tfidf (cleaned_query cut_block stopword_lines keywords)))
         tfidf_matrix ->
  (0 < nrows cat)%nat ->
  (0 < length (tfidf (cleaned_query cut_block stopword_lines keywords)))%nat ->
  let outcome :=
    snd (recommend_courses cut_block sqrt argsort (Ok stopword_lines)
           keywords r tfidf tfidf_matrix top_n w_sim w_rating h) in
  (lookup "avg_rating" (columns cat) = None ->
   outcome = Err (KeyError "avg_rating"))
  /\ (forall ar,
        lookup "avg_rating" (columns cat) = Some ar -> Forall is_number ar ->
        let missing :=
          filter (fun n => negb (has_column cat n))
                 ["course_name"; "teacher_name"] in
        missing <> [] ->
        outcome = Err (MissingColumns missing)).
Proof.
  intros Hr Hwf Hrows Hwidth Hne Hfeat outcome. unfold outcome. split.
  - intros Hnone.
    rewrite (recommend_courses_prefix cut_block sqrt argsort stopword_lines
               h r cat keywords tfidf tfidf_matrix top_n w_sim w_rating
               (fun df => ret df) Hr Hrows Hwidth Hne Hfeat).
    cbv zeta. erewrite bind_err; [reflexivity|].
    unfold getitem, bind, read, lift, df_get.
    rewrite nth_error_last. simpl columns.
    rewrite lookup_assign_other by reflexivity. rewrite Hnone. reflexivity.
  - intros ar Har Hnum Hmissing.
    rewrite (recommend_courses_scored cut_block sqrt argsort stopword_lines
               h r cat ar keywords tfidf tfidf_matrix top_n w_sim w_rating
               Hr Hwf Hrows Hwidth Har Hnum Hne Hfeat).
    cbv zeta. erewrite bind_err; [reflexivity|].
    unfold lift, df_select.
    match goal with
    | |- context [filter ?f ["course_name"; "teacher_name"; "composite_score"]] =>
        replace (filter f ["course_name"; "teacher_name"; "composite_score"])
          with (filter (fun n => negb (has_column cat n))
                       ["course_name"; "teacher_name"])
    end.
    + revert Hmissing. unfold has_column. simpl filter.
      destruct (lookup "course_name" (columns cat)),
               (lookup "teacher_name" (columns cat));
        intros Hmissing; try reflexivity.
      contradiction Hmissing. reflexivity.
    + unfold has_column. simpl columns. simpl filter.
      rewrite lookup_assign_same.
      rewrite !(lookup_assign_other "course_name") by reflexivity.
      rewrite !(lookup_assign_other "teacher_name") by reflexivity.
      destruct (lookup "course_name" (columns cat)),
               (lookup "teacher_name" (columns cat)); reflexivity.
Qed.

Lemma missing_column_is_a_key_error_witness :
  snd (recommend_courses whole_block fixed_sqrt stable_argsort
         (Ok demo_stopword_lines) (str "workload") 0%nat
         (bag_of_words demo_vocabulary) demo_matrix 5 (7 # 10) (3 # 10)
         [mkDF [0; 1]%nat [("avg_rating", [Num (9 # 2); NaN])]])
  = Err (MissingColumns ["course_name"; "teacher_name"]).
Proof.
  refine (proj2
            (missing_column_is_a_key_error whole_block fixed_sqrt
               stable_argsort demo_stopword_lines
               [mkDF [0; 1]%nat [("avg_rating", [Num (9 # 2); NaN])]]
               0%nat
               (mkDF [0; 1]%nat [("avg_rating", [Num (9 # 2); NaN])])
               (str "workload")
               (bag_of_words demo_vocabulary) demo_matrix 5 (7 # 10) (3 # 10)
               eq_refl eq_refl eq_refl _ _ _)
            [Num (9 # 2); NaN] eq_refl _ _).
  - repeat constructor.
  - vm_compute. lia.
  - vm_compute. lia.
  - repeat constructor.
  - discriminate.
Defined.

Lemma col_scale_text w a :
  Exists (fun c => exists t, c = Str t) a -> col_scale w a = Err TypeError.
Proof.
  unfold col_scale. induction 1 as [c a [t ->]|c a _ IH]; simpl.
  - reflexivity.
  - rewrite IH. destruct c; reflexivity.
Qed.

Lemma fillna0_keeps_text a :
  Exists (fun c => exists t, c = Str t) a ->
  Exists (fun c => exists t, c = Str t) (fillna0 a).
Proof.
  induction 1 as [c a [t ->]|c a _ IH]; simpl.
  - apply Exists_cons_hd. eauto.
  - apply Exists_cons_tl. exact IH.
Qed.

(** X7: a rating column that holds a text makes [recommend_courses]
    raise a TypeError when the ratings are weighted (line 80);
    [fillna(0)] does not repair it.  The query vector has at least one
    column, as every vector of a fitted vectorizer has. *)
Theorem text_rating_is_a_type_error cut_block sqrt argsort stopword_lines
    h r cat ar keywords tfidf tfidf_matrix top_n w_sim w_rating :
  nth_error h r = Some cat ->
  wf_df cat = true ->
  length tfidf_matrix = nrows cat ->
  Forall (fun row =>
            length row
            = length (tfidf (cleaned_query cut_block stopword_lines keywords)))
         tfidf_matrix ->
  lookup "avg_rating" (columns cat) = Some ar ->
  Exists (fun c => exists t, c = Str t) ar ->
  (0 < length (tfidf (cleaned_query cut_block stopword_lines keywords)))%nat ->
  snd (recommend_courses cut_block sqrt argsort (Ok stopword_lines)
         keywords r tfidf tfidf_matrix top_n w_sim w_rating h)
  = Err TypeError.
Proof.
  intros Hr Hwf Hrows Hwidth Har Htext Hfeat.
  pose proof (lookup_length _ _ _ Hwf Har) as Hlen_ar.
  assert (Hne : (0 < nrows cat)%nat).
  { rewrite <- Hlen_ar. destruct Htext; simpl; lia. }
  rewrite (recommend_courses_prefix cut_block sqrt argsort stopword_lines
             h r cat keywords tfidf tfidf_matrix top_n w_sim w_rating
             (fun df => ret df) Hr Hrows Hwidth Hne Hfeat).
  cbv zeta.
  erewrite bind_ok.
  2:{ eapply getitem_run; [apply nth_error_last|]. simpl columns.
      rewrite lookup_assign_other by reflexivity. exact Har. }
  erewrite bind_ok.
  2:{ erewrite setitem_run; [reflexivity| apply nth_error_last |].
      unfold fillna0. rewrite length_map. exact Hlen_ar. }
  rewrite update_last. simpl index. simpl columns.
  erewrite bind_ok.
  2:{ eapply getitem_run; [apply nth_error_last|]. simpl columns.
      rewrite lookup_assign_other by reflexivity.
      apply lookup_assign_same. }
  erewrite bind_ok by (unfold lift; rewrite col_scale_num; reflexivity).
  erewrite bind_ok.
  2:{ eapply getitem_run; [apply nth_error_last|]. simpl columns.
      apply lookup_assign_same. }
  erewrite bind_err; [reflexivity|].
  unfold lift. rewrite (col_scale_text _ _ (fillna0_keeps_text _ Htext)).
  reflexivity.
Qed.

Lemma text_rating_is_a_type_error_witness :
  snd (recommend_courses whole_block fixed_sqrt stable_argsort
         (Ok demo_stopword_lines) (str "workload") 0%nat
         (bag_of_words demo_vocabulary) demo_matrix 5 (7 # 10) (3 # 10)
         [mkDF [0; 1]%nat
            [("course_name", [Str (str "Calculus I"); Str (str "Organic Chem")]);
             ("teacher_name", [Str (str "Dr. Lee"); Str (str "Dr. Shah")]);
             ("avg_rating", [Num (9 # 2); Str (str "n/a")])]])
  = Err TypeError.
Proof.
  apply (text_rating_is_a_type_error whole_block fixed_sqrt stable_argsort
           demo_stopword_lines
           [mkDF [0; 1]%nat
              [("course_name",
                [Str (str "Calculus I"); Str (str "Organic Chem")]);
               ("teacher_name", [Str (str "Dr. Lee"); Str (str "Dr. Shah")]);
               ("avg_rating", [Num (9 # 2); Str (str "n/a")])]]
           0%nat
           (mkDF [0; 1]%nat
              [("course_name",
                [Str (str "Calculus I"); Str (str "Organic Chem")]);
               ("teacher_name", [Str (str "Dr. Lee"); Str (str "Dr. Shah")]);
               ("avg_rating", [Num (9 # 2); Str (str "n/a")])])
           [Num (9 # 2); Str (str "n/a")]).
  - reflexivity.
  - reflexivity.
  - reflexivity.
  - repeat constructor.
  - reflexivity.
  - apply Exists_cons_tl, Exists_cons_hd. eauto.
  - vm_compute. lia.
Defined.

(** ** [handle_cold_start]: calls that fail, calls that repeat *)

Lemma col_apply_fails f e l :
  (forall t, f t = Err e) -> l <> [] -> col_apply f (map Str l) = Err e.
Proof.
  intros Hf Hl. destruct l as [|t l]; [congruence|].
  unfold col_apply. simpl. rewrite Hf. reflexivity.
Qed.

Lemma transform_text_cases tfidf l :
  transform tfidf (map Str l) = Ok (map tfidf l)
  \/ transform tfidf (map Str l) = Err ValueError.
Proof.
  unfold transform.
  rewrite (rmap_ok _ (fun a => match a with
                               | Str t => tfidf t
                               | _ => []
                               end)).
  - rewrite map_map. simpl rbind.
    destruct l as [|t l]; [right; reflexivity|]. simpl.
    destruct (tfidf t); [right | left]; reflexivity.
  - intros x Hx. apply in_map_iff in Hx as [c [<- _]]. reflexivity.
Qed.

Lemma nonempty_rows_of_another_width (tfidf : TfidfVectorizer)
    (cleaned : text -> text) (keywords_tfidf : vec) (subs : list text) :
  (forall t, length (tfidf t) <> length keywords_tfidf) ->
  subs <> [] ->
  Exists (fun row => length row <> length keywords_tfidf)
         (map tfidf (map cleaned subs)).
Proof.
  intros Hwidth Hne. destruct subs as [|t subs]; [congruence|].
  simpl. apply Exists_cons_hd. apply Hwidth.
Qed.

(** The run of [handle_cold_start] up to the assignment of the
    substitute texts (line 56). *)
Lemma handle_cold_start_prefix sqrt h r df cns tns tfidf f keywords_tfidf
    w_sim w_rating :
  nth_error h r = Some df ->
  wf_df df = true ->
  lookup "course_name" (columns df) = Some (map Str cns) ->
  lookup "teacher_name" (columns df) = Some (map Str tns) ->
  let subs := map substitute_text (combine cns tns) in
  let df1 := mkDF (index df) (assign "替代文本" (map Str subs) (columns df)) in
  handle_cold_start sqrt r tfidf f keywords_tfidf w_sim w_rating h
  = (cleaned <- lift (col_apply f (map Str subs)) ;;
     setitem r "cleaned_替代文本" cleaned ;;
     cleaned' <- getitem r "cleaned_替代文本" ;;
     new_tfidf_matrix <- lift (transform tfidf cleaned') ;;
     similarity_scores <-
       lift (cosine_similarity sqrt keywords_tfidf new_tfidf_matrix) ;;
     df <- read r ;;
     selected <- lift (df_select df ["course_name"; "teacher_name"]) ;;
     cold_start_results <- alloc selected ;;
     setitem cold_start_results "similarity" similarity_scores ;;
     setitem_scalar cold_start_results "avg_rating" (Num 0) ;;
     similarity <- getitem cold_start_results "similarity" ;;
     weighted_similarity <- lift (col_scale w_sim similarity) ;;
     avg_rating <- getitem cold_start_results "avg_rating" ;;
     weighted_rating <- lift (col_scale w_rating avg_rating) ;;
     composite <- lift (col_add weighted_similarity weighted_rating) ;;
     setitem cold_start_results "composite_score" composite ;;
     read cold_start_results) (update r df1 h).
Proof.
  intros Hr Hwf Hcn Htn subs df1.
  pose proof (lookup_length _ _ _ Hwf Hcn) as Hlen_cn.
  pose proof (lookup_length _ _ _ Hwf Htn) as Hlen_tn.
  rewrite length_map in Hlen_cn, Hlen_tn.
  assert (Hsubs : length subs = nrows df)
    by (unfold subs; rewrite length_map, length_combine; lia).
  unfold handle_cold_start.
  erewrite bind_ok by (eapply getitem_run; eassumption).
  erewrite bind_ok by (unfold lift; rewrite col_add_scalar_text; reflexivity).
  erewrite bind_ok by (eapply getitem_run; eassumption).
  erewrite bind_ok.
  2:{ unfold lift. rewrite col_add_text, substitute_texts. reflexivity. }
  fold subs.
  erewrite bind_ok.
  2:{ erewrite setitem_run; [reflexivity | exact Hr |].
      rewrite length_map. exact Hsubs. }
  fold df1.
  assert (Hr1 : nth_error (update r df1 h) r = Some df1)
    by (eapply nth_error_update; exact Hr).
  erewrite bind_ok.
  2:{ eapply getitem_run; [exact Hr1 | apply lookup_assign_same]. }
  reflexivity.
Qed.

(** X8: a call of [handle_cold_start] that fails after line 56 leaves
    its columns behind in the caller's frame.  With entries to score
    and a stopword file that cannot be read, it raises IOError and the
    frame has gained the substitute texts; with a query vector of
    another width than the vectorizer's, it raises ValueError and the
    frame has gained both columns. *)
Theorem failed_cold_start_leaves_columns cut_block sqrt stopword_lines
    h r df cns tns tfidf keywords_tfidf w_sim w_rating :
  nth_error h r = Some df ->
  wf_df df = true ->
  lookup "course_name" (columns df) = Some (map Str cns) ->
  lookup "teacher_name" (columns df) = Some (map Str tns) ->
  (0 < nrows df)%nat ->
  let subs := map substitute_text (combine cns tns) in
  handle_cold_start sqrt r tfidf (clean_text cut_block (Err IOError))
    keywords_tfidf w_sim w_rating h
  = (update r
       (mkDF (index df) (assign "替代文本" (map Str subs) (columns df))) h,
     Err IOError)
  /\ ((forall t, length (tfidf t) <> length keywords_tfidf) ->
      handle_cold_start sqrt r tfidf
        (clean_text cut_block (Ok stopword_lines))
        keywords_tfidf w_sim w_rating h
      = (update r
           (cold_start_input_after df cns tns
              (cleaned_query cut_block stopword_lines)) h,
         Err ValueError)).
Proof.
  intros Hr Hwf Hcn Htn Hrows subs.
  pose proof (lookup_length _ _ _ Hwf Hcn) as Hlen_cn.
  pose proof (lookup_length _ _ _ Hwf Htn) as Hlen_tn.
  rewrite length_map in Hlen_cn, Hlen_tn.
  assert (Hsubs : length subs = nrows df)
    by (unfold subs; rewrite length_map, length_combine; lia).
  assert (Hne : subs <> []).
  { intros E. rewrite E in Hsubs. simpl in Hsubs. lia. }
  split.
  - rewrite (handle_cold_start_prefix sqrt h r df cns tns tfidf _
               keywords_tfidf w_sim w_rating Hr Hwf Hcn Htn).
    cbv zeta. fold subs. apply bind_err. unfold lift.
    rewrite (col_apply_fails _ IOError); [reflexivity| |exact Hne].
    intros t. reflexivity.
  - intros Hwidth.
    rewrite (handle_cold_start_prefix sqrt h r df cns tns tfidf _
               keywords_tfidf w_sim w_rating Hr Hwf Hcn Htn).
    cbv zeta. fold subs.
    set (df1 := mkDF (index df) (assign "替代文本" (map Str subs) (columns df))).
    assert (Hr1 : nth_error (update r df1 h) r = Some df1)
      by (eapply nth_error_update; exact Hr).
    erewrite bind_ok.
    2:{ unfold lift.
        rewrite (col_apply_text _ (cleaned_query cut_block stopword_lines));
          [reflexivity|].
        intros t. reflexivity. }
    erewrite bind_ok.
    2:{ erewrite setitem_run; [reflexivity | exact Hr1 |].
        rewrite !length_map. exact Hsubs. }
    rewrite update_update.
    change (mkDF (index df1)
              (assign "cleaned_替代文本"
                 (map Str (map (cleaned_query cut_block stopword_lines) subs))
                 (columns df1)))
      with (cold_start_input_after df cns tns
              (cleaned_query cut_block stopword_lines)).
    set (df2 := cold_start_input_after df cns tns
                  (cleaned_query cut_block stopword_lines)).
    assert (Hr2 : nth_error (update r df2 h) r = Some df2)
      by (eapply nth_error_update; exact Hr).
    erewrite bind_ok.
    2:{ eapply getitem_run; [exact Hr2 | apply lookup_assign_same]. }
    destruct (transform_text_cases tfidf
                (map (cleaned_query cut_block stopword_lines) subs))
      as [Ht|Ht].
    + fold subs. erewrite bind_ok by (unfold lift; rewrite Ht; reflexivity).
      apply bind_err. unfold lift.
      rewrite cosine_similarity_width; [reflexivity|].
      apply (nonempty_rows_of_another_width tfidf
               (cleaned_query cut_block stopword_lines) keywords_tfidf subs);
        assumption.
    + fold subs. apply bind_err. unfold lift. rewrite Ht. reflexivity.
Qed.

Lemma failed_cold_start_leaves_columns_witness :
  handle_cold_start fixed_sqrt 0%nat (bag_of_words demo_vocabulary)
    (clean_text whole_block (Err IOError))
    (bag_of_words demo_vocabulary (str "seminar")) (7 # 10) (3 # 10)
    [demo_new_courses]
  = (update 0
       (mkDF (index demo_new_courses)
          (assign "替代文本"
             (map Str (map substitute_text
                         (combine [str "New Seminar"] [str "Dr. Park"])))
             (columns demo_new_courses)))
       [demo_new_courses],
     Err IOError).
Proof.
  exact (proj1 (failed_cold_start_leaves_columns whole_block fixed_sqrt
                  demo_stopword_lines [demo_new_courses] 0%nat
                  demo_new_courses [str "New Seminar"] [str "Dr. Park"]
                  (bag_of_words demo_vocabulary)
                  (bag_of_words demo_vocabulary (str "seminar"))
                  (7 # 10) (3 # 10)
                  eq_refl eq_refl eq_refl eq_refl (le_n 1))).
Defined.

(** X26: a frame without entries is refused.  [handle_cold_start]
    writes its two text columns, both empty, to the caller's frame
    (lines 56-57) and then raises the ValueError of the vectorizer,
    which takes no matrix without rows (line 58), whatever the
    cleaning function, the vectorizer and the query vector are. *)
Theorem cold_start_without_entries_is_refused sqrt h r df tfidf f
    keywords_tfidf w_sim w_rating :
  nth_error h r = Some df ->
  index df = [] ->
  wf_df df = true ->
  lookup "course_name" (columns df) = Some [] ->
  lookup "teacher_name" (columns df) = Some [] ->
  handle_cold_start sqrt r tfidf f keywords_tfidf w_sim w_rating h
  = (update r
       (mkDF []
          (assign "cleaned_替代文本" []
             (assign "替代文本" [] (columns df)))) h,
     Err ValueError).
Proof.
  intros Hr Hix Hwf Hcn Htn.
  rewrite (handle_cold_start_prefix sqrt h r df [] [] tfidf f
             keywords_tfidf w_sim w_rating Hr Hwf Hcn Htn).
  cbv zeta. simpl combine. simpl map. rewrite Hix.
  set (df1 := mkDF [] (assign "替代文本" [] (columns df))).
  assert (Hr1 : nth_error (update r df1 h) r = Some df1)
    by (eapply nth_error_update; exact Hr).
  erewrite bind_ok by reflexivity.
  erewrite bind_ok.
  2:{ erewrite setitem_run; [reflexivity | exact Hr1 | reflexivity]. }
  rewrite update_update. simpl index. simpl columns.
  set (df2 := mkDF [] (assign "cleaned_替代文本" []
                         (assign "替代文本" [] (columns df)))).
  assert (Hr2 : nth_error (update r df2 h) r = Some df2)
    by (eapply nth_error_update; exact Hr).
  erewrite bind_ok.
  2:{ eapply getitem_run; [exact Hr2 | apply lookup_assign_same]. }
  apply bind_err. reflexivity.
Qed.

Lemma cold_start_without_entries_is_refused_witness :
  handle_cold_start fixed_sqrt 0%nat (bag_of_words demo_vocabulary)
    (clean_text whole_block demo_stopwords)
    (bag_of_words demo_vocabulary (str "seminar")) (7 # 10) (3 # 10)
    [mkDF [] [("course_name", []); ("teacher_name", [])]]
  = (update 0
       (mkDF []
          (assign "cleaned_替代文本" []
             (assign "替代文本" []
                (columns (mkDF [] [("course_name", []);
                                   ("teacher_name", [])])))))
       [mkDF [] [("course_name", []); ("teacher_name", [])]],
     Err ValueError).
Proof.
  apply (cold_start_without_entries_is_refused fixed_sqrt
           [mkDF [] [("course_name", []); ("teacher_name", [])]] 0%nat
           (mkDF [] [("course_name", []); ("teacher_name", [])])).
  - reflexivity.
  - reflexivity.
  - reflexivity.
  - reflexivity.
  - reflexivity.
Defined.

(** X9: when the frame lacks a name column, [handle_cold_start] raises
    a KeyError naming it, the course name first, and the frame and the
    rest of the heap are as they were. *)
Theorem cold_start_missing_name_column sqrt h r df tfidf f keywords_tfidf
    w_sim w_rating :
  nth_error h r = Some df ->
  (lookup "course_name" (columns df) = None ->
   handle_cold_start sqrt r tfidf f keywords_tfidf w_sim w_rating h
   = (h, Err (KeyError "course_name")))
  /\ (forall cns,
        lookup "course_name" (columns df) = Some (map Str cns) ->
        lookup "teacher_name" (columns df) = None ->
        handle_cold_start sqrt r tfidf f keywords_tfidf w_sim w_rating h
        = (h, Err (KeyError "teacher_name"))).
Proof.
  intros Hr. split.
  - intros Hnone. unfold handle_cold_start. apply bind_err.
    unfold getitem, bind, read, lift, df_get. rewrite Hr, Hnone. reflexivity.
  - intros cns Hcn Hnone. unfold handle_cold_start.
    erewrite bind_ok by (eapply getitem_run; eassumption).
    erewrite bind_ok by (unfold lift; rewrite col_add_scalar_text; reflexivity).
    apply bind_err.
    unfold getitem, bind, read, lift, df_get. rewrite Hr, Hnone. reflexivity.
Qed.

Lemma cold_start_missing_name_column_witness :
  handle_cold_start fixed_sqrt 0%nat (bag_of_words demo_vocabulary)
    (clean_text whole_block demo_stopwords)
    (bag_of_words demo_vocabulary (str "seminar")) (7 # 10) (3 # 10)
    [mkDF [0]%nat [("course_name", [Str (str "New Seminar")])]]
  = ([mkDF [0]%nat [("course_name", [Str (str "New Seminar")])]],
     Err (KeyError "teacher_name")).
Proof.
  exact (proj2 (cold_start_missing_name_column fixed_sqrt
                  [mkDF [0]%nat [("course_name", [Str (str "New Seminar")])]]
                  0%nat
                  (mkDF [0]%nat [("course_name", [Str (str "New Seminar")])])
                  (bag_of_words demo_vocabulary)
                  (clean_text whole_block demo_stopwords)
                  (bag_of_words demo_vocabulary (str "seminar"))
                  (7 # 10) (3 # 10) eq_refl)
               [str "New Seminar"] eq_refl eq_refl).
Defined.

Lemma assign_present name c cols :
  lookup name cols = Some c -> assign name c cols = cols.
Proof.
  induction cols as [|[n c0] cols IH]; simpl; [discriminate|].
  destruct (String.eqb n name) eqn:E.
  - intros H. injection H as ->. reflexivity.
  - intros H. rewrite IH by exact H. reflexivity.
Qed.

Lemma assign_lengths n name c cols :
  length c = n ->
  forallb (fun nc : string * column => (length (snd nc) =? n)%nat) cols = true ->
  forallb (fun nc : string * column => (length (snd nc) =? n)%nat)
          (assign name c cols) = true.
Proof.
  intros Hc. induction cols as [|[m c0] cols IH]; simpl.
  - intros _. rewrite Hc, Nat.eqb_refl. reflexivity.
  - intros H. apply andb_true_iff in H as [H1 H2].
    destruct (String.eqb m name); simpl.
    + rewrite Hc, Nat.eqb_refl. exact H2.
    + rewrite H1. apply IH. exact H2.
Qed.

Lemma update_present {A} r (d : A) h :
  nth_error h r = Some d -> update r d h = h.
Proof.
  revert r; induction h as [|x h IH]; intros [|r] H; simpl in *;
    try discriminate.
  - injection H as ->. reflexivity.
  - rewrite IH by exact H. reflexivity.
Qed.

(** X10: for a frame with at least one entry, a second call of
    [handle_cold_start] on the same frame finds the columns of the
    first, overwrites them with the same values and returns the same
    result: the caller's frame is changed by the first call only. *)
Theorem cold_start_twice sqrt h r df cns tns tfidf f cleaned keywords_tfidf
    w_sim w_rating :
  nth_error h r = Some df ->
  wf_df df = true ->
  lookup "course_name" (columns df) = Some (map Str cns) ->
  lookup "teacher_name" (columns df) = Some (map Str tns) ->
  (forall t, f t = Ok (cleaned t)) ->
  (forall t, length (tfidf t) = length keywords_tfidf) ->
  (0 < nrows df)%nat ->
  (0 < length keywords_tfidf)%nat ->
  exists h1 res,
    handle_cold_start sqrt r tfidf f keywords_tfidf w_sim w_rating h
    = (h1, Ok res)
    /\ handle_cold_start sqrt r tfidf f keywords_tfidf w_sim w_rating h1
       = (h1 ++ [res], Ok res).
Proof.
  intros Hr Hwf Hcn Htn Hf Hdim Hne Hfeat.
  pose proof (handle_cold_start_run sqrt h r df cns tns tfidf f cleaned
                keywords_tfidf w_sim w_rating Hr Hwf Hcn Htn Hf Hdim
                Hne Hfeat) as Hrun.
  cbv zeta in Hrun.
  set (df2 := cold_start_input_after df cns tns cleaned) in *.
  set (res := cold_start_frame df cns tns
                (fun names => cosine sqrt keywords_tfidf
                                (tfidf (cleaned (substitute_text names))))
                w_sim w_rating) in *.
  exists (update r df2 h ++ [res]), res. split; [exact Hrun|].
  pose proof (lookup_length _ _ _ Hwf Hcn) as Hlen_cn.
  pose proof (lookup_length _ _ _ Hwf Htn) as Hlen_tn.
  rewrite length_map in Hlen_cn, Hlen_tn.
  assert (Hlen : length (combine cns tns) = nrows df)
    by (rewrite length_combine; lia).
  assert (Hr2 : nth_error (update r df2 h ++ [res]) r = Some df2).
  { rewrite nth_error_app1.
    - eapply nth_error_update. exact Hr.
    - rewrite update_length. apply nth_error_Some. congruence. }
  assert (Hwf2 : wf_df df2 = true).
  { unfold wf_df, df2, cold_start_input_after, nrows. simpl.
    apply assign_lengths; [rewrite !length_map; exact Hlen|].
    apply assign_lengths; [rewrite !length_map; exact Hlen|].
    exact Hwf. }
  assert (Hcn2 : lookup "course_name" (columns df2) = Some (map Str cns))
    by (simpl; rewrite !lookup_assign_other by reflexivity; exact Hcn).
  assert (Htn2 : lookup "teacher_name" (columns df2) = Some (map Str tns))
    by (simpl; rewrite !lookup_assign_other by reflexivity; exact Htn).
  pose proof (handle_cold_start_run sqrt _ r df2 cns tns tfidf f cleaned
                keywords_tfidf w_sim w_rating Hr2 Hwf2 Hcn2 Htn2 Hf Hdim
                Hne Hfeat)
    as Hrun2.
  cbv zeta in Hrun2. rewrite Hrun2.
  assert (E : cold_start_input_after df2 cns tns cleaned = df2).
  { unfold cold_start_input_after at 1. simpl index.
    rewrite (assign_present "替代文本").
    - rewrite (assign_present "cleaned_替代文本"); [reflexivity|].
      apply lookup_assign_same.
    - simpl. rewrite lookup_assign_other by reflexivity.
      apply lookup_assign_same. }
  rewrite E, (update_present _ _ _ Hr2). reflexivity.
Qed.

Lemma cold_start_twice_witness :
  exists h1 res,
    handle_cold_start fixed_sqrt 0%nat (bag_of_words demo_vocabulary)
      (clean_text whole_block (Ok demo_stopword_lines))
      (bag_of_words demo_vocabulary (str "seminar")) (7 # 10) (3 # 10)
      [demo_new_courses]
    = (h1, Ok res)
    /\ handle_cold_start fixed_sqrt 0%nat (bag_of_words demo_vocabulary)
         (clean_text whole_block (Ok demo_stopword_lines))
         (bag_of_words demo_vocabulary (str "seminar")) (7 # 10) (3 # 10) h1
       = (h1 ++ [res], Ok res).
Proof.
  apply (cold_start_twice fixed_sqrt [demo_new_courses] 0%nat
           demo_new_courses [str "New Seminar"] [str "Dr. Park"]
           (bag_of_words demo_vocabulary)
           (clean_text whole_block (Ok demo_stopword_lines))
           (cleaned_query whole_block demo_stopword_lines)).
  - reflexivity.
  - reflexivity.
  - reflexivity.
  - reflexivity.
  - intros t. reflexivity.
  - intros t. unfold bag_of_words. rewrite !length_map. reflexivity.
  - vm_compute. lia.
  - vm_compute. lia.
Defined.

(** ** [clean_text]: what its output is made of and what it ignores *)

(** X11: whatever the dictionary cuts a block into, the text
    [clean_text] returns is made of lower-case Latin letters,
    ideographs of the allow-list and whitespace only: no digit, no
    punctuation and no capital letter survives. *)
Theorem clean_text_alphabet cut_block stopword_lines t u :
  segments cut_block ->
  clean_text cut_block (Ok stopword_lines) t = Ok u ->
  Forall (fun c => allowed c = true /\ is_upper c = false) u.
Proof.
  intros Hseg H. unfold clean_text, read_stopwords, rbind in H.
  injection H as <-. apply Forall_forall. intros c Hc.
  apply in_join in Hc as [Hc|[w [Hw Hc]]].
  - destruct Hc as [<-|[]]. split; reflexivity.
  - apply filter_In in Hw as [Hw _].
    apply (cleaned_characters t).
    apply (lcut_tokens cut_block _ w); assumption.
Qed.

Lemma clean_text_alphabet_witness :
  Forall (fun c => allowed c = true /\ is_upper c = false)
         (cleaned_query per_character demo_stopword_lines
            (str "Clear, HUMOR 101")).
Proof.
  apply (clean_text_alphabet per_character demo_stopword_lines
           (str "Clear, HUMOR 101")).
  - exact per_character_segments.
  - reflexivity.
Defined.

Lemma allowed_lower_char c : allowed (lower_char c) = allowed c.
Proof.
  destruct (is_upper c) eqn:E.
  - assert (Ha : allowed c = true).
    { unfold allowed, is_latin. rewrite E, !orb_true_r. reflexivity. }
    rewrite Ha. apply lower_char_allowed. exact Ha.
  - unfold lower_char. rewrite E. reflexivity.
Qed.

Lemma strip_lower_of_lower t :
  lower (strip_disallowed (lower t)) = lower (strip_disallowed t).
Proof.
  unfold lower, strip_disallowed.
  induction t as [|c t IH]; simpl; [reflexivity|].
  rewrite allowed_lower_char. destruct (allowed c); simpl.
  - rewrite lower_char_idempotent, IH. reflexivity.
  - exact IH.
Qed.

(** X12: [clean_text] ignores the characters outside its allow-list
    and the case of ASCII letters: a text with one more digit, symbol
    or punctuation mark is cleaned to the same result (or fails in the
    same way), and so is a text lower-cased beforehand, when it is
    made of ASCII characters and characters of the allow-list (where
    [str.lower] changes the letters A-Z only). *)
Theorem clean_text_ignores_case_and_symbols cut_block stopwords_txt
    (t1 t2 t : text) (c : Z) :
  allowed c = false ->
  Forall (fun c => 0 <= c < 128 \/ allowed c = true) t ->
  clean_text cut_block stopwords_txt (t1 ++ c :: t2)
  = clean_text cut_block stopwords_txt (t1 ++ t2)
  /\ clean_text cut_block stopwords_txt (lower t)
     = clean_text cut_block stopwords_txt t.
Proof.
  intros Hc _. unfold clean_text. split.
  - unfold strip_disallowed. rewrite !filter_app. simpl. rewrite Hc.
    reflexivity.
  - rewrite strip_lower_of_lower. reflexivity.
Qed.

Lemma clean_text_ignores_case_and_symbols_witness :
  clean_text whole_block demo_stopwords (str "clear" ++ 33 :: str " humor")
  = clean_text whole_block demo_stopwords (str "clear" ++ str " humor")
  /\ clean_text whole_block demo_stopwords (lower (str "Clear HUMOR"))
     = clean_text whole_block demo_stopwords (str "Clear HUMOR").
Proof.
  apply (clean_text_ignores_case_and_symbols whole_block demo_stopwords
           (str "clear") (str " humor") (str "Clear HUMOR") 33).
  - reflexivity.
  - unfold str. simpl. repeat (constructor; [left; lia|]). constructor.
Defined.

Lemma in_lstrip t c : In c t -> is_space c = false -> In c (lstrip t).
Proof.
  intros Hin Hc. induction t as [|x t IH]; simpl; [contradiction|].
  destruct (is_space x) eqn:E.
  - destruct Hin as [->|Hin]; [congruence|]. apply IH. exact Hin.
  - exact Hin.
Qed.

Lemma in_strip t c : In c t -> is_space c = false -> In c (strip t).
Proof.
  intros Hin Hc. unfold strip.
  apply in_rev. rewrite rev_involutive.
  apply in_lstrip; [|exact Hc]. apply -> in_rev.
  apply in_lstrip; assumption.
Qed.

Lemma disallowed_not_space c : allowed c = false -> is_space c = false.
Proof.
  unfold allowed. intros H. apply orb_false_iff in H as [_ H]. exact H.
Qed.

Lemma upper_not_space c : is_upper c = true -> is_space c = false.
Proof.
  unfold is_upper, is_space, between. intros H.
  apply andb_true_iff in H as [H1 H2]. apply Z.leb_le in H1, H2.
  repeat match goal with
         | |- context [?a <=? ?b] =>
             first [ replace (a <=? b) with false
                       by (symmetry; apply Z.leb_gt; lia)
                   | replace (a <=? b) with true
                       by (symmetry; apply Z.leb_le; lia) ]
         | |- context [?a =? ?b] =>
             replace (a =? b) with false by (symmetry; apply Z.eqb_neq; lia)
         end.
  reflexivity.
Qed.

(** X13: the stopword lines are neither lower-cased nor filtered like
    the text.  A line with a capital letter, a digit or any other
    character outside the allow-list therefore never removes a token:
    the file with and without that line cleans every text alike. *)
Theorem stopword_with_capital_or_symbol_is_dead cut_block
    (before after : list text) (line : text) (c : Z) (t : text) :
  segments cut_block ->
  In c line ->
  allowed c = false \/ is_upper c = true ->
  clean_text cut_block (Ok (before ++ line :: after)) t
  = clean_text cut_block (Ok (before ++ after)) t.
Proof.
  intros Hseg Hin Hc. unfold clean_text, read_stopwords, rbind.
  do 2 f_equal. apply filter_ext_in. intros w Hw. f_equal.
  unfold is_stopword. rewrite !map_app, !existsb_app. simpl.
  replace (text_eqb w (strip line)) with false; [reflexivity|].
  symmetry. destruct (text_eqb w (strip line)) eqn:E; [|reflexivity].
  exfalso. apply text_eqb_eq in E. subst w.
  assert (Hcs : is_space c = false)
    by (destruct Hc; [apply disallowed_not_space | apply upper_not_space];
        assumption).
  pose proof (in_strip line c Hin Hcs) as Hcw.
  pose proof (lcut_tokens cut_block _ _ c Hseg Hw Hcw) as Hct.
  apply cleaned_characters in Hct as [Ha Hu].
  destruct Hc; congruence.
Qed.

Lemma stopword_with_capital_or_symbol_is_dead_witness :
  clean_text per_character
    (Ok ([str "the" ++ [10]] ++ (str "The" ++ [10]) :: [str "and" ++ [10]]))
    (str "The course")
  = clean_text per_character
      (Ok ([str "the" ++ [10]] ++ [str "and" ++ [10]])) (str "The course").
Proof.
  apply (stopword_with_capital_or_symbol_is_dead per_character
           [str "the" ++ [10]] [str "and" ++ [10]] (str "The" ++ [10]) 84).
  - exact per_character_segments.
  - left. reflexivity.
  - right. reflexivity.
Defined.

(** ** [load_resources]: what it hands over *)

Lemma load_resources_ok (tfidf : TfidfVectorizer) df reviews h :
  lookup "cleaned_review" (columns df) = Some (map Str reviews) ->
  reviews <> [] ->
  Forall (fun row => (0 < length row)%nat) (map tfidf reviews) ->
  load_resources (Some tfidf) (Some df) h
  = (h ++ [df],
     Ok ([st_success],
         (Some tfidf, Some (length h), Some (map tfidf reviews)))).
Proof.
  intros Hrev Hne Hwide. unfold load_resources, try_except.
  erewrite bind_ok by reflexivity.
  erewrite bind_ok by reflexivity.
  erewrite bind_ok.
  2:{ eapply getitem_run; [apply nth_error_last | exact Hrev]. }
  erewrite bind_ok
    by (unfold lift; rewrite transform_text;
        [reflexivity | exact Hne | exact Hwide]).
  reflexivity.
Qed.

(** The reviews of a scorable catalog can be loaded. *)
Lemma scorable_reviews cut_block stopword_lines df cn tn ar tfidf reviews
    keywords :
  scorable cut_block stopword_lines df cn tn ar tfidf (map tfidf reviews)
           keywords ->
  reviews <> []
  /\ Forall (fun row => (0 < length row)%nat) (map tfidf reviews).
Proof.
  intros [Hwf Hcn Htn Har Hnum Hrows Hwidth Hne Hfeat]. split.
  - intros E. subst reviews. simpl in Hrows. lia.
  - eapply Forall_impl; [|exact Hwidth]. intros row Hrow. simpl in Hrow.
    rewrite Hrow. exact Hfeat.
Qed.

(** X14: when the model and the catalog load, the catalog has rows,
    the reviews are texts and the vectorizer has at least one feature,
    [load_resources] reports success and hands over the vectorizer, a
    reference to a new object holding the catalog, and a matrix
    aligned with it: the vectors of the reviews in catalog order, one
    row per catalog row. *)
Theorem loaded_matrix_is_aligned tfidf df reviews h :
  wf_df df = true ->
  lookup "cleaned_review" (columns df) = Some (map Str reviews) ->
  (0 < nrows df)%nat ->
  (forall t, (0 < length (tfidf t))%nat) ->
  exists h',
    load_resources (Some tfidf) (Some df) h
    = (h', Ok ([st_success],
               (Some tfidf, Some (length h), Some (map tfidf reviews))))
    /\ nth_error h' (length h) = Some df
    /\ firstn (length h) h' = h
    /\ length (map tfidf reviews) = nrows df.
Proof.
  intros Hwf Hrev Hne Hfeat. exists (h ++ [df]).
  pose proof (lookup_length _ _ _ Hwf Hrev) as Hlen.
  rewrite length_map in Hlen.
  split.
  { apply load_resources_ok; [exact Hrev | |].
    - intros E. subst reviews. simpl in Hlen. lia.
    - apply Forall_forall. intros row Hrow.
      apply in_map_iff in Hrow as [t [<- _]]. apply Hfeat. }
  split; [apply nth_error_last|].
  split.
  - rewrite firstn_app, Nat.sub_diag, firstn_all. simpl. apply app_nil_r.
  - rewrite length_map. exact Hlen.
Qed.

Lemma loaded_matrix_is_aligned_witness :
  exists h',
    load_resources (Some (bag_of_words demo_vocabulary)) (Some demo_catalog) []
    = (h', Ok ([st_success],
               (Some (bag_of_words demo_vocabulary),
                Some (length (@nil DataFrame)),
                Some (map (bag_of_words demo_vocabulary)
                        [str "students say clear explanations patient";
                         str "difficult heavy workload stressful"]))))
    /\ nth_error h' (length (@nil DataFrame)) = Some demo_catalog
    /\ firstn (length (@nil DataFrame)) h' = []
    /\ length (map (bag_of_words demo_vocabulary)
                 [str "students say clear explanations patient";
                  str "difficult heavy workload stressful"])
       = nrows demo_catalog.
Proof.
  apply (loaded_matrix_is_aligned (bag_of_words demo_vocabulary) demo_catalog
           [str "students say clear explanations patient";
            str "difficult heavy workload stressful"] []).
  - reflexivity.
  - reflexivity.
  - vm_compute. lia.
  - intros t. unfold bag_of_words. rewrite length_map. simpl. lia.
Defined.

Lemma transform_fails tfidf a :
  Exists (fun c => forall t, c <> Str t) a ->
  exists e, transform tfidf a = Err e.
Proof.
  intros H. unfold transform.
  assert (Hr : exists e,
             rmap (fun x => match x with
                            | Str t => Ok (tfidf t)
                            | NaN => Err ValueError
                            | Num _ => Err AttributeError
                            end) a = Err e).
  { induction H as [c a Hc|c a _ [e IH]]; simpl.
    - destruct c as [t| |]; simpl; eauto.
      exfalso; apply (Hc t); reflexivity.
    - rewrite IH. destruct c; simpl; eauto. }
  destruct Hr as [e Hr]. rewrite Hr. simpl. eauto.
Qed.

(** X15: a review that is not a text, a missing one included, makes
    the whole loading fail: [load_resources] reports the exception of
    the vectorizer and hands over nothing, although the model and the
    catalog were read. *)
Theorem review_that_is_not_text_fails_loading tfidf df reviews h :
  lookup "cleaned_review" (columns df) = Some reviews ->
  Exists (fun c => forall t, c <> Str t) reviews ->
  exists e,
    load_resources (Some tfidf) (Some df) h
    = (h ++ [df], Ok ([st_error_load e], (None, None, None))).
Proof.
  intros Hrev Hbad. destruct (transform_fails tfidf _ Hbad) as [e He].
  exists e. unfold load_resources, try_except.
  erewrite bind_ok by reflexivity.
  erewrite bind_ok by reflexivity.
  erewrite bind_ok.
  2:{ eapply getitem_run; [apply nth_error_last | exact Hrev]. }
  erewrite bind_err; [reflexivity|].
  unfold lift. rewrite He. reflexivity.
Qed.

Lemma review_that_is_not_text_fails_loading_witness :
  exists e,
    load_resources (Some (bag_of_words demo_vocabulary))
      (Some (mkDF [0; 1]%nat
               [("course_name",
                 [Str (str "Calculus I"); Str (str "Organic Chem")]);
                ("cleaned_review", [Str (str "clear"); NaN])]))
      []
    = ([] ++ [mkDF [0; 1]%nat
                [("course_name",
                  [Str (str "Calculus I"); Str (str "Organic Chem")]);
                 ("cleaned_review", [Str (str "clear"); NaN])]],
       Ok ([st_error_load e], (None, None, None))).
Proof.
  apply (review_that_is_not_text_fails_loading
           (bag_of_words demo_vocabulary) _ [Str (str "clear"); NaN] []).
  - reflexivity.
  - apply Exists_cons_tl, Exists_cons_hd. discriminate.
Defined.

(* ================================================================= *)
(** * Properties of the page *)

Lemma frames_try_except {A} n (m : M A) (handler : exn -> M A) :
  frames n m -> (forall e, frames n (handler e)) ->
  frames n (try_except m handler).
Proof.
  intros Hm Hh h Hn. unfold try_except.
  destruct (Hm h Hn) as [H1 H2].
  destruct (m h) as [h1 [a|e]]; simpl in *.
  - auto.
  - destruct (Hh e h1) as [H3 H4]; [lia|].
    split; [congruence | lia].
Qed.

Lemma load_resources_frames n tfidf_pkl cat_pkl :
  frames n (load_resources tfidf_pkl cat_pkl).
Proof.
  unfold load_resources. apply frames_try_except.
  - apply frames_bind_any; [apply frames_lift | intros tfidf].
    apply frames_bind_any;
      [destruct cat_pkl; [apply frames_alloc | apply frames_lift] | intros r].
    apply frames_bind_any; [apply frames_getitem | intros c].
    apply frames_bind_any; [apply frames_lift | intros m].
    apply frames_ret.
  - intros e. apply frames_ret.
Qed.

Lemma recommend_courses_frames n cut_block sqrt argsort stopwords_txt
    keywords r tfidf tfidf_matrix top_n w_sim w_rating :
  frames n (recommend_courses cut_block sqrt argsort stopwords_txt keywords r
              tfidf tfidf_matrix top_n w_sim w_rating).
Proof.
  unfold recommend_courses.
  apply frames_bind_any; [apply frames_lift | intros cleaned].
  apply frames_bind_any; [apply frames_lift | intros sims].
  apply (frames_bind _ (fun a => (n <= a)%nat));
    [apply frames_copy | intros; eapply copy_fresh; eassumption |].
  intros temp Htemp.
  repeat (apply frames_bind_any;
          [first [ apply frames_setitem; exact Htemp
                 | apply frames_getitem
                 | apply frames_lift
                 | apply frames_read ]
          | intros ]).
  apply frames_ret.
Qed.

Lemma display_recommendation_section_frames n cut_block sqrt argsort
    stopwords_txt tfidf r tfidf_matrix s :
  frames n (display_recommendation_section cut_block sqrt argsort
              stopwords_txt tfidf r tfidf_matrix s).
Proof.
  unfold display_recommendation_section, final_recommend.
  apply frames_bind_any; [apply recommend_courses_frames | intros recs].
  destruct (nrows recs =? 0)%nat; apply frames_ret.
Qed.

Lemma restart_button_heap w h s log :
  fst (fst (fst (restart_button w h s log))) = h.
Proof. unfold restart_button. destruct (restart w); reflexivity. Qed.

(** X16: a run of [main] changes no object that existed before it,
    whatever the files hold, whatever the state and the widgets, and
    whether the run ends or raises: the objects are still there, as
    they were, in front of those the run created.  So a catalog kept
    from one run to the next is never altered by the page. *)
Theorem main_only_adds_objects cut_block sqrt argsort stopwords_txt
    tfidf_model_pkl course_teacher_tfidf_pkl w state h :
  exists added,
    fst (fst (fst (main cut_block sqrt argsort stopwords_txt tfidf_model_pkl
                     course_teacher_tfidf_pkl w state h)))
    = h ++ added.
Proof.
  set (h' := fst (fst (fst (main cut_block sqrt argsort stopwords_txt
                              tfidf_model_pkl course_teacher_tfidf_pkl
                              w state h)))).
  exists (skipn (length h) h').
  rewrite <- (firstn_skipn (length h) h') at 1. f_equal.
  rewrite <- (firstn_all h) at 2. subst h'.
  destruct (load_resources_frames (length h) tfidf_model_pkl
              course_teacher_tfidf_pkl h (le_n _)) as [L1 L2].
  unfold main.
  destruct (load_resources tfidf_model_pkl course_teacher_tfidf_pkl h)
    as [h1 [[log [[[tfidf|] [r|]] [m|]]]|e]]; simpl in L1, L2; try exact L1.
  destruct stopwords_txt as [lines|]; [|exact L1].
  destruct ((0 <=? current_step (init_session_state state))
            && (current_step (init_session_state state) <=? 2));
    [|exact L1].
  destruct (current_step (init_session_state state) =? 1).
  - destruct (display_input_section w (init_session_state state))
      as [[s1 events] [|]]; [exact L1|].
    rewrite restart_button_heap. exact L1.
  - destruct (current_step (init_session_state state) =? 2).
    + destruct (display_recommendation_section_frames (length h) cut_block
                  sqrt argsort (Ok lines) tfidf r m
                  (init_session_state state) h1 L2) as [D1 D2].
      destruct (display_recommendation_section cut_block sqrt argsort
                  (Ok lines) tfidf r m (init_session_state state) h1)
        as [h2 [[s1 events]|e]]; simpl in D1.
      * rewrite restart_button_heap. congruence.
      * simpl. congruence.
    + rewrite restart_button_heap. exact L1.
Qed.

Lemma restart_button_state w h s log :
  page_state s ->
  page_state (snd (fst (fst (restart_button w h s log))))
  /\ snd (restart_button w h s log) <> ProgressOutOfRange.
Proof.
  intros Hs. unfold restart_button. destruct (restart w); simpl.
  - split; [split; [reflexivity | left; reflexivity] | discriminate].
  - split; [exact Hs | discriminate].
Qed.

(** X17: the page stays within its two steps.  Started on a new
    session, or on one without cold-start data at step 1 or 2, a run of
    [main] ends in such a session again, whatever the files hold and
    whatever the widgets say; and the progress bar is never asked for a
    value outside its range. *)
Theorem page_state_is_kept cut_block sqrt argsort stopwords_txt
    tfidf_model_pkl course_teacher_tfidf_pkl w state h :
  match state with Some s => page_state s | None => True end ->
  page_state
    (snd (fst (fst (main cut_block sqrt argsort stopwords_txt
                      tfidf_model_pkl course_teacher_tfidf_pkl w state h))))
  /\ snd (main cut_block sqrt argsort stopwords_txt tfidf_model_pkl
            course_teacher_tfidf_pkl w state h)
     <> ProgressOutOfRange.
Proof.
  intros Hstate.
  assert (Hs : page_state (init_session_state state)).
  { destruct state as [s|]; [exact Hstate|].
    split; [reflexivity | left; reflexivity]. }
  clear Hstate. unfold main.
  set (s := init_session_state state) in *.
  destruct (load_resources tfidf_model_pkl course_teacher_tfidf_pkl h)
    as [h1 [[log [[[tfidf|] [r|]] [m|]]]|e]]; simpl;
    try (split; [exact Hs | discriminate]).
  destruct stopwords_txt as [lines|]; [|split; [exact Hs | discriminate]].
  destruct Hs as [Hnew Hstep].
  assert (Hrange : (0 <=? current_step s) && (current_step s <=? 2) = true).
  { apply andb_true_iff. split; apply Z.leb_le; lia. }
  rewrite Hrange.
  destruct (current_step s =? 1) eqn:E1.
  - unfold display_input_section.
    destruct (submit_recommend w); simpl.
    + destruct (user_keywords_input w) as [|c kw].
      * apply restart_button_state. split; assumption.
      * simpl. split; [split; [exact Hnew | right; reflexivity] | discriminate].
    + apply restart_button_state. split; assumption.
  - destruct (current_step s =? 2) eqn:E2.
    + unfold display_recommendation_section, bind.
      destruct (final_recommend cut_block sqrt argsort (Ok lines)
                  (user_keywords s) r tfidf m default_top_n h1)
        as [h2 [recs|e]].
      * destruct (nrows recs =? 0)%nat; unfold ret;
          apply restart_button_state; split; assumption.
      * simpl. split; [split; assumption | discriminate].
    + apply restart_button_state. split; assumption.
Qed.

Lemma page_state_is_kept_witness :
  page_state
    (snd (fst (fst (main whole_block fixed_sqrt stable_argsort demo_stopwords
                      (Some (bag_of_words demo_vocabulary))
                      (Some demo_catalog)
                      (mkWidgets (str "clear") false false)
                      (Some (mkSession (str "clear") empty_frame
                                       empty_frame 2))
                      []))))
  /\ snd (main whole_block fixed_sqrt stable_argsort demo_stopwords
            (Some (bag_of_words demo_vocabulary)) (Some demo_catalog)
            (mkWidgets (str "clear") false false)
            (Some (mkSession (str "clear") empty_frame empty_frame 2))
            [])
     <> ProgressOutOfRange.
Proof.
  apply (page_state_is_kept whole_block fixed_sqrt stable_argsort
           demo_stopwords (Some (bag_of_words demo_vocabulary))
           (Some demo_catalog) (mkWidgets (str "clear") false false)
           (Some (mkSession (str "clear") empty_frame empty_frame 2)) []).
  split; [reflexivity | right; reflexivity].
Defined.

(** A run of [main] at step 2 over resources that load. *)
Lemma main_at_step_two cut_block sqrt argsort stopword_lines tfidf df
    cn tn ar reviews w s h :
  lookup "cleaned_review" (columns df) = Some (map Str reviews) ->
  scorable cut_block stopword_lines df cn tn ar tfidf (map tfidf reviews)
           (user_keywords s) ->
  current_step s = 2 ->
  let recs :=
    ranking argsort default_top_n df cn tn
      (composite_scores cut_block sqrt stopword_lines tfidf
         (map tfidf reviews) (user_keywords s)
         default_similarity_weight default_rating_weight ar) in
  exists temp,
    main cut_block sqrt argsort (Ok stopword_lines) (Some tfidf) (Some df)
      w (Some s) h
    = restart_button w (h ++ [df] ++ [temp])
        (mkSession (user_keywords s) (new_courses s) recs 2)
        ([resource_event st_success; st_progress 2]
         ++ [if (nrows recs =? 0)%nat then st_no_recommendations
             else st_recommendations recs]).
Proof.
  intros Hrev Hsc Hstep recs.
  destruct (recommend_courses_run cut_block sqrt argsort stopword_lines
              (h ++ [df]) (length h) df cn tn ar (user_keywords s) tfidf
              (map tfidf reviews) default_top_n default_similarity_weight
              default_rating_weight (nth_error_last h df) Hsc)
    as [temp Hrun].
  destruct (scorable_reviews _ _ _ _ _ _ _ _ _ Hsc) as [Hne Hwide].
  exists temp. unfold main.
  rewrite (load_resources_ok tfidf df reviews h Hrev Hne Hwide).
  cbv beta iota zeta. unfold init_session_state. rewrite Hstep.
  cbv beta iota zeta. simpl andb. cbv beta iota.
  change (2 =? 1) with false. change (2 =? 2) with true. cbv beta iota.
  unfold display_recommendation_section, final_recommend, bind.
  rewrite Hrun. fold recs. rewrite Hstep, <- app_assoc.
  destruct (nrows recs =? 0)%nat; reflexivity.
Qed.

Lemma default_ranking_nrows cut_block sqrt argsort stopword_lines df cn tn ar
    tfidf tfidf_matrix keywords :
  sorts argsort ->
  scorable cut_block stopword_lines df cn tn ar tfidf tfidf_matrix keywords ->
  nrows (ranking argsort default_top_n df cn tn
           (composite_scores cut_block sqrt stopword_lines tfidf tfidf_matrix
              keywords default_similarity_weight default_rating_weight ar))
  = Nat.min 5 (nrows df).
Proof.
  intros Hsorts Hsc.
  pose proof (composite_scores_length cut_block sqrt stopword_lines df cn tn
                ar tfidf tfidf_matrix keywords default_similarity_weight
                default_rating_weight Hsc) as Hlen.
  rewrite (ranking_rows argsort Hsorts) by exact Hlen.
  rewrite rows_at_nrows, length_firstn.
  rewrite (descending_positions_length _ Hsorts), Hlen.
  unfold head_count, default_top_n. change (0 <=? 5) with true.
  change (Z.to_nat 5) with 5%nat. cbv iota. lia.
Qed.

(** X18: at step 2, over a catalog that has rows, the page always shows
    courses: whatever the stored keywords are, and also when they match
    no review at all, the result has five rows, or as many as the
    catalog has, and the message that no course was found is not
    shown. *)
Theorem step_two_always_shows_courses cut_block sqrt argsort stopword_lines
    tfidf df cn tn ar reviews w s h :
  sorts argsort ->
  lookup "cleaned_review" (columns df) = Some (map Str reviews) ->
  scorable cut_block stopword_lines df cn tn ar tfidf (map tfidf reviews)
           (user_keywords s) ->
  current_step s = 2 ->
  (0 < nrows df)%nat ->
  exists h' s' recs out,
    main cut_block sqrt argsort (Ok stopword_lines) (Some tfidf) (Some df)
      w (Some s) h
    = (h', s',
       [resource_event st_success; st_progress 2; st_recommendations recs],
       out)
    /\ nrows recs = Nat.min 5 (nrows df)
    /\ (restart w = false ->
        s' = mkSession (user_keywords s) (new_courses s) recs 2
        /\ out = Done).
Proof.
  intros Hsorts Hrev Hsc Hstep Hrows.
  destruct (main_at_step_two cut_block sqrt argsort stopword_lines tfidf df
              cn tn ar reviews w s h Hrev Hsc Hstep) as [temp Hmain].
  pose proof (default_ranking_nrows cut_block sqrt argsort stopword_lines df
                cn tn ar tfidf (map tfidf reviews) (user_keywords s)
                Hsorts Hsc) as Hn.
  rewrite Hmain.
  destruct (Nat.eqb_spec
              (nrows (ranking argsort default_top_n df cn tn
                        (composite_scores cut_block sqrt stopword_lines tfidf
                           (map tfidf reviews) (user_keywords s)
                           default_similarity_weight default_rating_weight
                           ar))) 0) as [E|_]; [lia|].
  unfold restart_button. destruct (restart w).
  - do 4 eexists. split; [reflexivity|]. split; [exact Hn | discriminate].
  - do 4 eexists. split; [reflexivity|]. split; [exact Hn|].
    intros _. split; reflexivity.
Qed.

Lemma step_two_always_shows_courses_witness :
  exists h' s' recs out,
    main whole_block fixed_sqrt stable_argsort (Ok demo_stopword_lines)
      (Some (bag_of_words demo_vocabulary)) (Some demo_catalog)
      (mkWidgets [] false false)
      (Some (mkSession (str "astronomy") empty_frame empty_frame 2)) []
    = (h', s',
       [resource_event st_success; st_progress 2; st_recommendations recs],
       out)
    /\ nrows recs = Nat.min 5 (nrows demo_catalog)
    /\ (restart (mkWidgets [] false false) = false ->
        s' = mkSession
               (user_keywords
                  (mkSession (str "astronomy") empty_frame empty_frame 2))
               (new_courses
                  (mkSession (str "astronomy") empty_frame empty_frame 2))
               recs 2
        /\ out = Done).
Proof.
  apply (step_two_always_shows_courses whole_block fixed_sqrt stable_argsort
           demo_stopword_lines (bag_of_words demo_vocabulary) demo_catalog
           [Str (str "Calculus I"); Str (str "Organic Chem")]
           [Str (str "Dr. Lee"); Str (str "Dr. Shah")]
           [Num (9 # 2); Num 3]
           [str "students say clear explanations patient";
            str "difficult heavy workload stressful"]
           (mkWidgets [] false false)
           (mkSession (str "astronomy") empty_frame empty_frame 2) []).
  - exact stable_argsort_sorts.
  - reflexivity.
  - exact (demo_scorable (str "astronomy")).
  - reflexivity.
  - vm_compute. lia.
Defined.

(** X19: from the input box to the ranking.  On a new session, typing
    keywords and clicking the button makes the run store them, move to
    step 2 and ask for a rerun before the restart button is reached;
    the next run, whatever the widgets then hold (restart apart), shows
    the ranking [recommend_courses] computes for the keywords that were
    typed, with the default weights and five rows at most, and stores
    it. *)
Theorem typed_keywords_reach_the_ranking cut_block sqrt argsort stopword_lines
    tfidf df cn tn ar reviews keywords restart1 h :
  sorts argsort ->
  lookup "cleaned_review" (columns df) = Some (map Str reviews) ->
  scorable cut_block stopword_lines df cn tn ar tfidf (map tfidf reviews)
           keywords ->
  (0 < nrows df)%nat ->
  keywords <> [] ->
  let recs :=
    ranking argsort default_top_n df cn tn
      (composite_scores cut_block sqrt stopword_lines tfidf
         (map tfidf reviews) keywords
         default_similarity_weight default_rating_weight ar) in
  exists h1 s1,
    main cut_block sqrt argsort (Ok stopword_lines) (Some tfidf) (Some df)
      (mkWidgets keywords true restart1) None h
    = (h1, s1, [resource_event st_success; st_progress 1], Rerun)
    /\ forall w2, restart w2 = false ->
       exists h2,
         main cut_block sqrt argsort (Ok stopword_lines) (Some tfidf)
           (Some df) w2 (Some s1) h1
         = (h2, mkSession keywords empty_frame recs 2,
            [resource_event st_success; st_progress 2;
             st_recommendations recs],
            Done).
Proof.
  intros Hsorts Hrev Hsc Hrows Hkw recs.
  exists (h ++ [df]), (mkSession keywords empty_frame empty_frame 2).
  split.
  - destruct (scorable_reviews _ _ _ _ _ _ _ _ _ Hsc) as [Hne Hwide].
    unfold main. rewrite (load_resources_ok tfidf df reviews h Hrev Hne Hwide).
    cbv beta iota zeta. unfold init_session_state, display_input_section.
    simpl. destruct keywords as [|c kw]; [contradiction Hkw; reflexivity|].
    reflexivity.
  - intros w2 Hw2.
    destruct (main_at_step_two cut_block sqrt argsort stopword_lines tfidf df
                cn tn ar reviews w2
                (mkSession keywords empty_frame empty_frame 2) (h ++ [df])
                Hrev Hsc eq_refl) as [temp Hmain].
    rewrite Hmain. simpl user_keywords. simpl new_courses. fold recs.
    pose proof (default_ranking_nrows cut_block sqrt argsort stopword_lines
                  df cn tn ar tfidf (map tfidf reviews) keywords
                  Hsorts Hsc) as Hn.
    fold recs in Hn.
    destruct (Nat.eqb_spec (nrows recs) 0) as [E|_]; [lia|].
    unfold restart_button. rewrite Hw2. eexists. reflexivity.
Qed.

Lemma typed_keywords_reach_the_ranking_witness :
  exists h1 s1,
    main whole_block fixed_sqrt stable_argsort (Ok demo_stopword_lines)
      (Some (bag_of_words demo_vocabulary)) (Some demo_catalog)
      (mkWidgets (str "clear explanations") true false) None []
    = (h1, s1, [resource_event st_success; st_progress 1], Rerun)
    /\ forall w2, restart w2 = false ->
       exists h2,
         main whole_block fixed_sqrt stable_argsort (Ok demo_stopword_lines)
           (Some (bag_of_words demo_vocabulary)) (Some demo_catalog)
           w2 (Some s1) h1
         = (h2,
            mkSession (str "clear explanations") empty_frame
              (ranking stable_argsort default_top_n demo_catalog
                 [Str (str "Calculus I"); Str (str "Organic Chem")]
                 [Str (str "Dr. Lee"); Str (str "Dr. Shah")]
                 (composite_scores whole_block fixed_sqrt demo_stopword_lines
                    (bag_of_words demo_vocabulary)
                    (map (bag_of_words demo_vocabulary)
                       [str "students say clear explanations patient";
                        str "difficult heavy workload stressful"])
                    (str "clear explanations")
                    default_similarity_weight default_rating_weight
                    [Num (9 # 2); Num 3]))
              2,
            [resource_event st_success; st_progress 2;
             st_recommendations
               (ranking stable_argsort default_top_n demo_catalog
                  [Str (str "Calculus I"); Str (str "Organic Chem")]
                  [Str (str "Dr. Lee"); Str (str "Dr. Shah")]
                  (composite_scores whole_block fixed_sqrt demo_stopword_lines
                     (bag_of_words demo_vocabulary)
                     (map (bag_of_words demo_vocabulary)
                        [str "students say clear explanations patient";
                         str "difficult heavy workload stressful"])
                     (str "clear explanations")
                     default_similarity_weight default_rating_weight
                     [Num (9 # 2); Num 3]))],
            Done).
Proof.
  apply (typed_keywords_reach_the_ranking whole_block fixed_sqrt
           stable_argsort demo_stopword_lines (bag_of_words demo_vocabulary)
           demo_catalog
           [Str (str "Calculus I"); Str (str "Organic Chem")]
           [Str (str "Dr. Lee"); Str (str "Dr. Shah")]
           [Num (9 # 2); Num 3]
           [str "students say clear explanations patient";
            str "difficult heavy workload stressful"]
           (str "clear explanations") false []).
  - exact stable_argsort_sorts.
  - reflexivity.
  - exact (demo_scorable (str "clear explanations")).
  - vm_compute. lia.
  - discriminate.
Defined.

Lemma catalog_reviews (tfidf : TfidfVectorizer) df reviews :
  wf_df df = true ->
  lookup "cleaned_review" (columns df) = Some (map Str reviews) ->
  (0 < nrows df)%nat ->
  (forall t, (0 < length (tfidf t))%nat) ->
  reviews <> []
  /\ Forall (fun row => (0 < length row)%nat) (map tfidf reviews).
Proof.
  intros Hwf Hrev Hne Hfeat.
  pose proof (lookup_length _ _ _ Hwf Hrev) as Hlen.
  rewrite length_map in Hlen. split.
  - intros E. subst reviews. simpl in Hlen. lia.
  - apply Forall_forall. intros row Hrow.
    apply in_map_iff in Hrow as [t [<- _]]. apply Hfeat.
Qed.

(** X20: at step 1 nothing is scored.  Over resources that load (a
    catalog with rows and text reviews, a vectorizer with at least one
    feature, a readable stopword file), a run at step 1 creates no
    object but the catalog; it moves to step 2 exactly when the button
    was clicked over a text that is not empty, then with that text
    stored and a rerun asked for; a click over an empty text is
    answered by the warning; and unless the page is restarted the
    stored recommendations stay as they were. *)
Theorem step_one_scores_nothing cut_block sqrt argsort stopword_lines
    (tfidf : TfidfVectorizer) df reviews w state h :
  wf_df df = true ->
  lookup "cleaned_review" (columns df) = Some (map Str reviews) ->
  (0 < nrows df)%nat ->
  (forall t, (0 < length (tfidf t))%nat) ->
  match state with Some s => current_step s = 1 | None => True end ->
  exists s' events out,
    main cut_block sqrt argsort (Ok stopword_lines) (Some tfidf) (Some df)
      w state h
    = (h ++ [df], s', events, out)
    /\ (current_step s' = 2
        <-> submit_recommend w = true /\ user_keywords_input w <> [])
    /\ (current_step s' = 2
        -> user_keywords s' = user_keywords_input w /\ out = Rerun)
    /\ (submit_recommend w = true -> user_keywords_input w = []
        -> In st_warning_keywords events)
    /\ (restart w = false
        -> recommendations s' = recommendations (init_session_state state)).
Proof.
  intros Hwf Hrev Hne Hfeat Hstate.
  destruct (catalog_reviews tfidf df reviews Hwf Hrev Hne Hfeat)
    as [Hreviews Hwide].
  assert (Hstep : current_step (init_session_state state) = 1)
    by (destruct state; [exact Hstate | reflexivity]).
  unfold main.
  rewrite (load_resources_ok tfidf df reviews h Hrev Hreviews Hwide).
  cbv beta iota zeta. rewrite Hstep. simpl andb. cbv beta iota.
  change (1 =? 1) with true. cbv beta iota.
  unfold display_input_section, restart_button.
  destruct (submit_recommend w); [destruct (user_keywords_input w) as [|c kw]|];
    destruct (restart w); simpl; do 3 eexists;
    (split; [reflexivity|]); simpl; rewrite ?Hstep;
    repeat split; try discriminate; try tauto; try lia;
    try (intros [? ?]; congruence); try (intros [? ?]; discriminate);
    auto.
Qed.

Lemma step_one_scores_nothing_witness :
  exists s' events out,
    main whole_block fixed_sqrt stable_argsort (Ok demo_stopword_lines)
      (Some (bag_of_words demo_vocabulary)) (Some demo_catalog)
      (mkWidgets [] true false) None []
    = ([] ++ [demo_catalog], s', events, out)
    /\ (current_step s' = 2
        <-> submit_recommend (mkWidgets [] true false) = true
            /\ user_keywords_input (mkWidgets [] true false) <> [])
    /\ (current_step s' = 2
        -> user_keywords s' = user_keywords_input (mkWidgets [] true false)
           /\ out = Rerun)
    /\ (submit_recommend (mkWidgets [] true false) = true
        -> user_keywords_input (mkWidgets [] true false) = []
        -> In st_warning_keywords events)
    /\ (restart (mkWidgets [] true false) = false
        -> recommendations s' = recommendations (init_session_state None)).
Proof.
  apply (step_one_scores_nothing whole_block fixed_sqrt stable_argsort
           demo_stopword_lines (bag_of_words demo_vocabulary) demo_catalog
           [str "students say clear explanations patient";
            str "difficult heavy workload stressful"]
           (mkWidgets [] true false) None []).
  - reflexivity.
  - reflexivity.
  - vm_compute. lia.
  - intros t. unfold bag_of_words. rewrite length_map. simpl. lia.
  - exact I.
Defined.

(** X21: when the model and the catalog load (a catalog with rows and
    text reviews, a vectorizer with at least one feature) but reading
    the stopword file raises, every run of [main] raises that
    exception while the sidebar is drawn (line 148): an IOError for a
    file that cannot be opened, a ValueError for one that is not gbk.
    This happens at step 1 as well, where no text is cleaned, and
    whatever the widgets say.  The session is left as
    [init_session_state] made it; neither the progress, the input box
    nor the restart button is reached. *)
Theorem unreadable_stopwords_stop_every_run cut_block sqrt argsort
    (tfidf : TfidfVectorizer) df reviews e w state h :
  wf_df df = true ->
  lookup "cleaned_review" (columns df) = Some (map Str reviews) ->
  (0 < nrows df)%nat ->
  (forall t, (0 < length (tfidf t))%nat) ->
  main cut_block sqrt argsort (Err e) (Some tfidf) (Some df) w state h
  = (h ++ [df], init_session_state state, [resource_event st_success],
     Raised e).
Proof.
  intros Hwf Hrev Hne Hfeat.
  destruct (catalog_reviews tfidf df reviews Hwf Hrev Hne Hfeat)
    as [Hreviews Hwide].
  unfold main.
  rewrite (load_resources_ok tfidf df reviews h Hrev Hreviews Hwide).
  reflexivity.
Qed.

Lemma unreadable_stopwords_stop_every_run_witness :
  main whole_block fixed_sqrt stable_argsort (Err ValueError)
    (Some (bag_of_words demo_vocabulary)) (Some demo_catalog)
    (mkWidgets (str "clear") true true) None []
  = ([] ++ [demo_catalog], init_session_state None,
     [resource_event st_success], Raised ValueError).
Proof.
  apply (unreadable_stopwords_stop_every_run whole_block fixed_sqrt
           stable_argsort (bag_of_words demo_vocabulary) demo_catalog
           [str "students say clear explanations patient";
            str "difficult heavy workload stressful"] ValueError
           (mkWidgets (str "clear") true true) None []).
  - reflexivity.
  - reflexivity.
  - vm_compute. lia.
  - intros t. unfold bag_of_words. rewrite length_map. simpl. lia.
Defined.

(** X25: a catalog without rows cannot be loaded.  The vectorizer
    refuses its empty review column with a ValueError, which
    [load_resources] reports and answers with three [None]s; [main]
    then shows that the initialization failed and returns from the
    sidebar with the session as [init_session_state] made it,
    whatever the widgets say. *)
Theorem catalog_without_rows_cannot_be_loaded cut_block sqrt argsort
    stopwords_txt (tfidf : TfidfVectorizer) df w state h :
  lookup "cleaned_review" (columns df) = Some [] ->
  load_resources (Some tfidf) (Some df) h
  = (h ++ [df], Ok ([st_error_load ValueError], (None, None, None)))
  /\ main cut_block sqrt argsort stopwords_txt (Some tfidf) (Some df)
       w state h
     = (h ++ [df], init_session_state state,
        [resource_event (st_error_load ValueError);
         resource_event st_error_init],
        Done).
Proof.
  intros Hrev.
  assert (Hload : load_resources (Some tfidf) (Some df) h
                  = (h ++ [df],
                     Ok ([st_error_load ValueError], (None, None, None)))).
  { unfold load_resources, try_except.
    erewrite bind_ok by reflexivity.
    erewrite bind_ok by reflexivity.
    erewrite bind_ok.
    2:{ eapply getitem_run; [apply nth_error_last | exact Hrev]. }
    erewrite bind_err; reflexivity. }
  split; [exact Hload|].
  unfold main. rewrite Hload. reflexivity.
Qed.

Lemma catalog_without_rows_cannot_be_loaded_witness :
  load_resources (Some (bag_of_words demo_vocabulary))
    (Some (mkDF [] [("course_name", []); ("teacher_name", []);
                    ("cleaned_review", []); ("avg_rating", [])])) []
  = ([] ++ [mkDF [] [("course_name", []); ("teacher_name", []);
                     ("cleaned_review", []); ("avg_rating", [])]],
     Ok ([st_error_load ValueError], (None, None, None)))
  /\ main whole_block fixed_sqrt stable_argsort demo_stopwords
       (Some (bag_of_words demo_vocabulary))
       (Some (mkDF [] [("course_name", []); ("teacher_name", []);
                       ("cleaned_review", []); ("avg_rating", [])]))
       (mkWidgets (str "clear") true true) None []
     = ([] ++ [mkDF [] [("course_name", []); ("teacher_name", []);
                        ("cleaned_review", []); ("avg_rating", [])]],
        init_session_state None,
        [resource_event (st_error_load ValueError);
         resource_event st_error_init],
        Done).
Proof.
  apply (catalog_without_rows_cannot_be_loaded whole_block fixed_sqrt
           stable_argsort demo_stopwords (bag_of_words demo_vocabulary)
           (mkDF [] [("course_name", []); ("teacher_name", []);
                     ("cleaned_review", []); ("avg_rating", [])])
           (mkWidgets (str "clear") true true) None []).
  reflexivity.
Defined.

(** X22: when the model or the catalog cannot be read, a run of [main]
    shows the two error messages and returns from the sidebar: the
    heap is as before, the session as [init_session_state] made it,
    and the clicks are lost, the one on the restart button
    included. *)
Theorem failed_loading_disables_the_page cut_block sqrt argsort stopwords_txt
    tfidf_model_pkl course_teacher_tfidf_pkl w state h :
  tfidf_model_pkl = None \/ course_teacher_tfidf_pkl = None ->
  main cut_block sqrt argsort stopwords_txt tfidf_model_pkl
    course_teacher_tfidf_pkl w state h
  = (h, init_session_state state,
     [resource_event (st_error_load IOError); resource_event st_error_init],
     Done).
Proof.
  intros [-> | ->]; unfold main, load_resources, try_except, bind, lift, ret.
  - reflexivity.
  - destruct tfidf_model_pkl; reflexivity.
Qed.

Lemma failed_loading_disables_the_page_witness :
  main whole_block fixed_sqrt stable_argsort demo_stopwords
    (Some (bag_of_words demo_vocabulary)) None
    (mkWidgets (str "clear") true true)
    (Some (mkSession (str "clear") empty_frame empty_frame 2)) [demo_catalog]
  = ([demo_catalog],
     init_session_state
       (Some (mkSession (str "clear") empty_frame empty_frame 2)),
     [resource_event (st_error_load IOError); resource_event st_error_init],
     Done).
Proof.
  apply (failed_loading_disables_the_page whole_block fixed_sqrt
           stable_argsort demo_stopwords
           (Some (bag_of_words demo_vocabulary)) None
           (mkWidgets (str "clear") true true)
           (Some (mkSession (str "clear") empty_frame empty_frame 2))
           [demo_catalog]).
  right. reflexivity.
Defined.
